(** * Little Prince gravity game: physics and level generation

    A shallow embedding of the physics core and of the seeded level
    generator of the game, with the properties of the design document stated
    and proved over it.

    Sources.  The definitions follow the modular files of the game: the
    utilities (swept test, screen wrap), the classes ([Planet], [BlackHole],
    [Player], [Level]), init.js and the game loop.  script.js, the older
    single-file version, has the same swept test, force law, landing, free
    fall, jump, archetypes, death and completion handlers and step order; it
    differs by its [updateAngularMovement] (kept here as
    [Legacy.updateAngularMovement]), by the acceleration constants of the
    player ([Legacy.new]), by the gravity strength of a black hole (4
    instead of 15), by the absence of the goal re-roll in the finalization
    of a level and by the absence of the touch joystick; its [update]
    ([LegacyGame.update]) hands the keys to [updatePhysics] as they are and
    does nothing while the game is paused.

    Numbers.  Every JavaScript number of the program is modelled by a real
    number: arithmetic is exact, [Math.sqrt], [Math.cos], [Math.sin] are the
    real functions.  This is the exact reading of the program: a value that
    it computes is the value of the program up to the rounding of IEEE
    doubles; NaN and signed zeros are not part of it.  A comparison of two
    computed values can come out differently in doubles when the values are
    within rounding distance of each other.  Where a property is about the
    yes or no of such a comparison, the swept test and the tests that call
    it are transcribed a second time on binary64 floats (module [Binary64]),
    and the property is stated of both readings, or refuted on doubles.  The
    seed of the level generator only takes integer values and is kept in
    [Z]; JavaScript's [%] is [Z.rem]. *)

From Stdlib Require Import Reals Lra Lia ZArith List Bool Psatz.
From Stdlib Require Floats.
Import ListNotations.

Open Scope R_scope.

(* ================================================================== *)
(** * JavaScript number primitives *)

Module Js.

(** Comparison operators, as booleans. *)
Definition ltb (a b : R) : bool := if Rlt_dec a b then true else false.
Definition leb (a b : R) : bool := if Rle_dec a b then true else false.
Definition gtb (a b : R) : bool := ltb b a.
Definition geb (a b : R) : bool := leb b a.
Definition eqb (a b : R) : bool := if Req_dec_T a b then true else false.
Definition neqb (a b : R) : bool := negb (eqb a b).

(** [Math.sign]. *)
Definition sign (a : R) : R :=
  if ltb 0 a then 1 else if ltb a 0 then -1 else 0.

(** [Math.floor], with an integer result. *)
Definition floor (a : R) : Z := Zfloor a.

(** [Math.atan2(y, x)] (signed zeros apart). *)
Definition atan2 (y x : R) : R :=
  if ltb 0 x then atan (y / x)
  else if ltb x 0 then
         (if leb 0 y then atan (y / x) + PI else atan (y / x) - PI)
  else if ltb 0 y then PI / 2
  else if ltb y 0 then - (PI / 2)
  else 0.

End Js.

Infix "<?" := Js.ltb (at level 70, no associativity) : R_scope.
Infix "<=?" := Js.leb (at level 70, no associativity) : R_scope.
Infix ">?" := Js.gtb (at level 70, no associativity) : R_scope.
Infix ">=?" := Js.geb (at level 70, no associativity) : R_scope.
Infix "=?" := Js.eqb (at level 70, no associativity) : R_scope.

(** Game constants. *)
Definition CANVAS_WIDTH : R := 800.
Definition CANVAS_HEIGHT : R := 600.
Definition GRAVITY_CONSTANT : R := 2778000.

(** A point or a vector, [{ x, y }]. *)
Record Vec : Set := mkVec { vx_ : R; vy_ : R }.

(* ================================================================== *)
(** * Geometry utilities *)

(** Swept collision detection: line segment against circle, in the exact
    reading ([Binary64.lineSegmentIntersectsCircle] is the same function on
    doubles). *)
Definition lineSegmentIntersectsCircle (x1 y1 x2 y2 cx cy radius : R) : bool :=
  let dx := x2 - x1 in
  let dy := y2 - y1 in
  let lengthSquared := dx * dx + dy * dy in
  if lengthSquared =? 0 then
    let distSquared := (x1 - cx) * (x1 - cx) + (y1 - cy) * (y1 - cy) in
    distSquared <=? radius * radius
  else
    let fx := x1 - cx in
    let fy := y1 - cy in
    let a := lengthSquared in
    let b := 2 * (fx * dx + fy * dy) in
    let c := (fx * fx + fy * fy) - radius * radius in
    let discriminant := b * b - 4 * a * c in
    if discriminant <? 0 then false
    else
      let sqrt_discriminant := sqrt discriminant in
      let t1 := (- b - sqrt_discriminant) / (2 * a) in
      let t2 := (- b + sqrt_discriminant) / (2 * a) in
      ((t1 >=? 0) && (t1 <=? 1)) || ((t2 >=? 0) && (t2 <=? 1))
      || ((t1 <? 0) && (t2 >? 1)).

(** [wrapScreenPosition], on the coordinates of the entity. *)
Definition wrapCoord (limit v : R) : R :=
  if v <? 0 then limit else if v >? limit then 0 else v.

Definition wrapScreenPosition (x y : R) : R * R :=
  (wrapCoord CANVAS_WIDTH x, wrapCoord CANVAS_HEIGHT y).


(** The point of the segment at parameter [t], and the squared distance of
    that point to the centre minus the squared radius (the quantity whose
    sign the swept test decides). *)
Definition segmentPoint (x1 y1 x2 y2 t : R) : R * R :=
  (x1 + t * (x2 - x1), y1 + t * (y2 - y1)).

Definition gapAt (x1 y1 x2 y2 cx cy radius t : R) : R :=
  (x1 + t * (x2 - x1) - cx) * (x1 + t * (x2 - x1) - cx)
  + (y1 + t * (y2 - y1) - cy) * (y1 + t * (y2 - y1) - cy)
  - radius * radius.

(** Euclidean distance, [Math.sqrt(dx * dx + dy * dy)]. *)
Definition distance (ax ay bx by_ : R) : R :=
  sqrt ((ax - bx) * (ax - bx) + (ay - by_) * (ay - by_)).

(* ================================================================== *)
(** * The swept test on doubles

    JavaScript numbers are IEEE 754 binary64 floats; so are Rocq's primitive
    floats, with the same rounding (to nearest, ties to even) of [+], [-],
    [*] and [/], and the same comparisons ([===] on numbers is [=?], false
    on NaN and true on the two zeros).  [Math.sqrt] is taken to be the
    correctly rounded square root, which is what the engines compute.  The
    swept test and the three tests that call it are transcribed here
    operation by operation, in the order in which JavaScript evaluates
    them. *)

Module Binary64.
Import PrimFloat SpecFloat FloatOps.
Local Open Scope float_scope.

(** [lineSegmentIntersectsCircle(x1, y1, x2, y2, cx, cy, radius)]. *)
Definition lineSegmentIntersectsCircle (x1 y1 x2 y2 cx cy radius : float) : bool :=
  let dx := x2 - x1 in
  let dy := y2 - y1 in
  let lengthSquared := dx * dx + dy * dy in
  if lengthSquared =? 0 then
    let distSquared := (x1 - cx) * (x1 - cx) + (y1 - cy) * (y1 - cy) in
    distSquared <=? radius * radius
  else
    let fx := x1 - cx in
    let fy := y1 - cy in
    let a := lengthSquared in
    let b := 2 * (fx * dx + fy * dy) in
    let c := (fx * fx + fy * fy) - radius * radius in
    let discriminant := b * b - 4 * a * c in
    if discriminant <? 0 then false
    else
      let sqrt_discriminant := sqrt discriminant in
      let t1 := (- b - sqrt_discriminant) / (2 * a) in
      let t2 := (- b + sqrt_discriminant) / (2 * a) in
      ((0 <=? t1) && (t1 <=? 1)) || ((0 <=? t2) && (t2 <=? 1))
      || ((t1 <? 0) && (1 <? t2)).

(** The point-in-circle test at a position, as the callers write it. *)
Definition pointInCircle (x y cx cy radius : float) : bool :=
  let dx := x - cx in
  let dy := y - cy in
  let distSquared := dx * dx + dy * dy in
  let radiusSquared := radius * radius in
  distSquared <=? radiusSquared.

(** The same with [<], as [checkBlackHoleCollision] writes it. *)
Definition pointStrictlyInCircle (x y cx cy radius : float) : bool :=
  let dx := x - cx in
  let dy := y - cy in
  let distSquared := dx * dx + dy * dy in
  let radiusSquared := radius * radius in
  distSquared <? radiusSquared.

(** [Level.checkGoal(player)], on the position of the goal, its radius, and
    the previous and current positions of the player. *)
Definition checkGoal (goalX goalY goalRadius prevX prevY x y : float) : bool :=
  let dx := x - goalX in
  let dy := y - goalY in
  let distSquared := dx * dx + dy * dy in
  let goalRadiusSquared := goalRadius * goalRadius in
  if distSquared <=? goalRadiusSquared then true
  else lineSegmentIntersectsCircle prevX prevY x y goalX goalY goalRadius.

(** The landing test of one planet in [Player.updatePhysics]. *)
Definition shouldLand (planetX planetY planetRadius radius prevX prevY x y : float)
  : bool :=
  let landingDistance := planetRadius + radius in
  let dx := x - planetX in
  let dy := y - planetY in
  let distSquared := dx * dx + dy * dy in
  let landingDistSquared := landingDistance * landingDistance in
  if distSquared <=? landingDistSquared then true
  else lineSegmentIntersectsCircle prevX prevY x y planetX planetY landingDistance.

(** The test of one black hole in [checkBlackHoleCollision]. *)
Definition hitsBlackHole (holeX holeY holeRadius pr prevX prevY px py : float)
  : bool :=
  let combinedRadius := holeRadius + pr in
  let dx := px - holeX in
  let dy := py - holeY in
  let distSquared := dx * dx + dy * dy in
  let radiusSquared := combinedRadius * combinedRadius in
  if distSquared <? radiusSquared then true
  else lineSegmentIntersectsCircle prevX prevY px py holeX holeY combinedRadius.

(** A double that is a number: neither NaN nor an infinity. *)
Definition finite (f : float) : bool :=
  match Prim2SF f with
  | S754_zero _ | S754_finite _ _ _ => true
  | _ => false
  end.

(** The real number that a finite double stands for: sign, mantissa and
    binary exponent. *)
Definition toR (f : float) : option R :=
  match Prim2SF f with
  | S754_zero _ => Some 0%R
  | S754_finite s m e =>
      Some (IZR (cond_Zopp s (Zpos m)) * IZR (2 ^ Z.max 0 e)
            / IZR (2 ^ Z.max 0 (- e)))%R
  | _ => None
  end.

(** A segment that ends inside the circle of centre (400, 300) and radius
    20, 0.0000000000000129 below its border, after some 200 pixels of
    travel. *)
Definition grazingX1 : float := 0x1.e9e7df7c647d4p+8.  (* 489.90575387433387 *)
Definition grazingY1 : float := 0x1.8ef6b331f2188p+6.  (* 99.74091795005927 *)
Definition grazingX2 : float := 0x1.9432a2859fc0bp+8.  (* 404.1977923884412 *)
Definition grazingY2 : float := 0x1.18720c2c353c3p+8.  (* 280.4454982404679 *)
Definition goalX : float := 400.
Definition goalY : float := 300.
Definition goalRadius : float := 20.

End Binary64.

(* ================================================================== *)
(** * Gravity sources

    [Planet.calculateGravity], [BlackHole.calculateGravity] and the
    [calculateGravity] of the goal object built by the [Level] constructor
    have the same body; [gameState.gravityMultiplier] is read at each
    evaluation and is an argument here. *)

Definition forceLaw (sx sy sradius sstrength gravityMultiplier px py : R) : Vec :=
  let dx := sx - px in
  let dy := sy - py in
  let distSquared := dx * dx + dy * dy in
  let distance := sqrt distSquared in
  if distance <? sradius + 5 then mkVec 0 0
  else
    let forceMagnitude :=
      (sstrength * GRAVITY_CONSTANT * gravityMultiplier) / (distSquared + 100) in
    let forceX := forceMagnitude * (dx / distance) in
    let forceY := forceMagnitude * (dy / distance) in
    mkVec forceX forceY.

Module Planet.
Record t : Set := mk { radius : R; x : R; y : R; gravityStrength : R }.

Definition calculateGravity (gravityMultiplier : R) (self : t) (px py : R) : Vec :=
  forceLaw (x self) (y self) (radius self) (gravityStrength self)
           gravityMultiplier px py.
End Planet.

(** One particle of a black hole's vortex (cosmetic). *)
Record VortexParticle : Set := mkVortex {
  vp_angle : R; vp_distance : R; vp_speed : R; vp_size : R; vp_hue : R }.

Module BlackHole.
Record t : Set := mk {
  x : R; y : R; radius : R; gravityStrength : R;
  particles : list VortexParticle; rotation : R }.

(** The 40 initial vortex particles; each takes five values of
    [Math.random], read from the stream [mr] from position [pos] on. *)
Fixpoint initialParticles (mr : nat -> R) (pos : nat) (radius : R) (n : nat)
  : list VortexParticle :=
  match n with
  | O => []
  | S k =>
      mkVortex (mr pos * PI * 2)
               (radius + mr (pos + 1)%nat * 30)
               (0.5 + mr (pos + 2)%nat * 1.5)
               (1 + mr (pos + 3)%nat * 2)
               (250 + mr (pos + 4)%nat * 40)
      :: initialParticles mr (pos + 5)%nat radius k
  end.

(** [new BlackHole(x, y, radius)].  The classes file gives a black hole
    gravity strength 15; script.js gives it 4. *)
Definition new (mr : nat -> R) (pos : nat) (x y radius : R) : t :=
  mk x y radius 15 (initialParticles mr pos radius 40) 0.

Definition calculateGravity (gravityMultiplier : R) (self : t) (px py : R) : Vec :=
  forceLaw (x self) (y self) (radius self) (gravityStrength self)
           gravityMultiplier px py.

(** [update(dt)]: the accretion disk turns, the particles spiral inward
    and are reset, at a random angle, when they reach the hole. *)
Fixpoint updateParticles (mr : nat -> R) (pos : nat) (radius dt : R)
  (ps : list VortexParticle) : list VortexParticle * nat :=
  match ps with
  | [] => ([], pos)
  | p :: rest =>
      let angle := vp_angle p + vp_speed p * dt in
      let dist := vp_distance p - vp_speed p * 8 * dt in
      if dist <? radius then
        let '(rest', pos') := updateParticles mr (S pos) radius dt rest in
        (mkVortex (mr pos * PI * 2) (radius + 30) (vp_speed p) (vp_size p)
                  (vp_hue p) :: rest', pos')
      else
        let '(rest', pos') := updateParticles mr pos radius dt rest in
        (mkVortex angle dist (vp_speed p) (vp_size p) (vp_hue p) :: rest', pos')
  end.

Definition update (mr : nat -> R) (pos : nat) (dt : R) (self : t) : t * nat :=
  let '(ps, pos') := updateParticles mr pos (radius self) dt (particles self) in
  (mk (x self) (y self) (radius self) (gravityStrength self) ps
      (rotation self + dt * 0.5), pos').
End BlackHole.

(** The goal object of a level, [{ x, y, radius, gravityStrength }]. *)
Module Goal.
Record t : Set := mk { x : R; y : R; radius : R; gravityStrength : R }.

Definition calculateGravity (gravityMultiplier : R) (self : t) (px py : R) : Vec :=
  forceLaw (x self) (y self) (radius self) (gravityStrength self)
           gravityMultiplier px py.
End Goal.

(** Anything with a [calculateGravity] method. *)
Inductive GravitySource : Set :=
| OfPlanet (p : Planet.t)
| OfBlackHole (b : BlackHole.t)
| OfGoal (g : Goal.t).

Definition sourceX (s : GravitySource) : R :=
  match s with
  | OfPlanet p => Planet.x p | OfBlackHole b => BlackHole.x b | OfGoal g => Goal.x g
  end.
Definition sourceY (s : GravitySource) : R :=
  match s with
  | OfPlanet p => Planet.y p | OfBlackHole b => BlackHole.y b | OfGoal g => Goal.y g
  end.
Definition sourceRadius (s : GravitySource) : R :=
  match s with
  | OfPlanet p => Planet.radius p
  | OfBlackHole b => BlackHole.radius b
  | OfGoal g => Goal.radius g
  end.
Definition sourceStrength (s : GravitySource) : R :=
  match s with
  | OfPlanet p => Planet.gravityStrength p
  | OfBlackHole b => BlackHole.gravityStrength b
  | OfGoal g => Goal.gravityStrength g
  end.

Definition calculateGravity (gravityMultiplier : R) (s : GravitySource)
  (px py : R) : Vec :=
  match s with
  | OfPlanet p => Planet.calculateGravity gravityMultiplier p px py
  | OfBlackHole b => BlackHole.calculateGravity gravityMultiplier b px py
  | OfGoal g => Goal.calculateGravity gravityMultiplier g px py
  end.

(* ================================================================== *)
(** * Player

    The trail, the colour and the particle bursts are rendering state and
    are left out.  [currentPlanet] is a reference to one of the level's
    planets; planets are never mutated, so the planet itself stands for the
    reference. *)

Record Keys : Set := mkKeys { left : bool; right : bool }.

(** [gameState.mobileInput] (the touch joystick), as far as the physics
    reads it. *)
Module MobileInput.
Record t : Set := mk {
  active : bool;
  currentX : R;
  centerX : R;
  deadzone : R;
  maxDistance : R;
  left : bool;
  right : bool;
  targetSpeed : R }.
End MobileInput.

Module Player.

Record t : Set := mk {
  x : R; y : R;
  prevX : R; prevY : R;
  screenWrapped : bool;
  vx : R; vy : R;
  onPlanet : bool;
  currentPlanet : option Planet.t;
  hasJumped : bool;
  angle : R;
  radius : R;
  angularSpeed : R;
  baseAngularSpeed : R;
  angularAcceleration : R;
  angularDeceleration : R;
  escapeThreshold : R }.

(** [new Player(x, y, planet)]. *)
Definition new (x y : R) (planet : option Planet.t) : t :=
  let baseAngularSpeed := 6 * 2 * PI in
  let angularAcceleration := baseAngularSpeed ^ 2 / (32 * PI) in
  mk x y x y false 0 0
     (match planet with Some _ => true | None => false end)
     planet false
     (match planet with
      | Some planet => Js.atan2 (y - Planet.y planet) (x - Planet.x planet)
      | None => 0
      end)
     8 0 baseAngularSpeed angularAcceleration (angularAcceleration * 0.8)
     (1 / sqrt 2).

Definition setPrev (px py : R) (p : t) : t :=
  mk (x p) (y p) px py (screenWrapped p) (vx p) (vy p) (onPlanet p)
     (currentPlanet p) (hasJumped p) (angle p) (radius p) (angularSpeed p)
     (baseAngularSpeed p) (angularAcceleration p) (angularDeceleration p)
     (escapeThreshold p).

(** The target speed chosen from the inputs. *)
Definition targetSpeedOf (mobile : MobileInput.t) (keys : Keys) (p : t) : R :=
  let targetSpeed :=
    if left keys && right keys then 0
    else if left keys then - baseAngularSpeed p
    else if right keys then baseAngularSpeed p
    else 0 in
  if MobileInput.targetSpeed mobile >? 0 then
    let mobileDirection := if MobileInput.left mobile then -1 else 1 in
    mobileDirection * baseAngularSpeed p * MobileInput.targetSpeed mobile
  else targetSpeed.

(** [updateAngularMovement(keys, dt)]; returns the new angular speed and
    the new angle. *)
Definition updateAngularMovement (mobile : MobileInput.t) (keys : Keys) (dt : R)
  (p : t) : R * R :=
  let targetSpeed := targetSpeedOf mobile keys p in
  let speedDifference := targetSpeed - angularSpeed p in
  let maxAcceleration := angularAcceleration p * dt in
  let speed1 :=
    if Rabs speedDifference <? maxAcceleration then targetSpeed
    else
      let accelerationDirection := Js.sign speedDifference in
      angularSpeed p + accelerationDirection * maxAcceleration in
  let speed2 := Rmax (- baseAngularSpeed p) (Rmin (baseAngularSpeed p) speed1) in
  (speed2, angle p + speed2 * dt).

(** The landing test of one planet. *)
Definition shouldLand (p : t) (planet : Planet.t) : bool :=
  let landingDistance := Planet.radius planet + radius p in
  let dx := x p - Planet.x planet in
  let dy := y p - Planet.y planet in
  let distSquared := dx * dx + dy * dy in
  let landingDistSquared := landingDistance * landingDistance in
  if distSquared <=? landingDistSquared then true
  else lineSegmentIntersectsCircle (prevX p) (prevY p) (x p) (y p)
         (Planet.x planet) (Planet.y planet) landingDistance.

Definition landOn (p : t) (planet : Planet.t) : t :=
  let dx := x p - Planet.x planet in
  let dy := y p - Planet.y planet in
  let surfaceDistance := Planet.radius planet + radius p in
  let angle := Js.atan2 dy dx in
  mk (Planet.x planet + cos angle * surfaceDistance)
     (Planet.y planet + sin angle * surfaceDistance)
     (prevX p) (prevY p) (screenWrapped p) 0 0 true (Some planet) false
     angle (radius p) 0 (baseAngularSpeed p) (angularAcceleration p)
     (angularDeceleration p) (escapeThreshold p).

(** The landing loop: the first planet, in level order, that passes the
    test. *)
Definition landing (planets : list Planet.t) (p : t) : t * bool :=
  if onPlanet p then (p, false)
  else match find (shouldLand p) planets with
       | Some planet => (landOn p planet, true)
       | None => (p, false)
       end.

Definition sumForces (gravityMultiplier : R) (sources : list GravitySource)
  (px py : R) : Vec :=
  fold_left (fun total s =>
               let gravity := calculateGravity gravityMultiplier s px py in
               mkVec (vx_ total + vx_ gravity) (vy_ total + vy_ gravity))
            sources (mkVec 0 0).

(** The sources summed in free fall: every planet, the goal, every black
    hole. *)
Definition sourcesOf (planets : list Planet.t) (goal : Goal.t)
  (blackHoles : list BlackHole.t) : list GravitySource :=
  map OfPlanet planets ++ [OfGoal goal] ++ map OfBlackHole blackHoles.

Definition onPlanetStep (mobile : MobileInput.t) (keys : Keys) (dt : R)
  (planet : Planet.t) (p : t) : t :=
  let '(speed, angle) := updateAngularMovement mobile keys dt p in
  let surfaceDistance := Planet.radius planet + radius p + 2 in
  let cosAngle := cos angle in
  let sinAngle := sin angle in
  mk (Planet.x planet + cosAngle * surfaceDistance)
     (Planet.y planet + sinAngle * surfaceDistance)
     (prevX p) (prevY p) (screenWrapped p) (vx p) (vy p) (onPlanet p)
     (currentPlanet p) (hasJumped p) angle (radius p) speed
     (baseAngularSpeed p) (angularAcceleration p) (angularDeceleration p)
     (escapeThreshold p).

(** Free fall, first half: the forces are summed, velocity and position
    are integrated. *)
Definition integrate (gravityMultiplier : R) (sources : list GravitySource)
  (dt : R) (p : t) : t :=
  let total := sumForces gravityMultiplier sources (x p) (y p) in
  let vx' := vx p + vx_ total * dt in
  let vy' := vy p + vy_ total * dt in
  mk (x p + vx' * dt) (y p + vy' * dt) (prevX p) (prevY p) (screenWrapped p)
     vx' vy' (onPlanet p) (currentPlanet p) (hasJumped p) (angle p)
     (radius p) (angularSpeed p) (baseAngularSpeed p) (angularAcceleration p)
     (angularDeceleration p) (escapeThreshold p).

(** Free fall, second half: screen wrapping, and the reset of the previous
    position when the wrap moved the player. *)
Definition wrapStep (p : t) : t :=
  let oldX := x p in
  let oldY := y p in
  let '(newX, newY) := wrapScreenPosition oldX oldY in
  let wrapped := Js.neqb newX oldX || Js.neqb newY oldY in
  mk newX newY
     (if wrapped then newX else prevX p)
     (if wrapped then newY else prevY p)
     wrapped (vx p) (vy p) (onPlanet p) (currentPlanet p) (hasJumped p)
     (angle p) (radius p) (angularSpeed p) (baseAngularSpeed p)
     (angularAcceleration p) (angularDeceleration p) (escapeThreshold p).

Definition freeFallStep (gravityMultiplier : R) (sources : list GravitySource)
  (dt : R) (p : t) : t :=
  wrapStep (integrate gravityMultiplier sources dt p).

(** [updatePhysics(planets, keys, deltaTime)].  [goal] and [blackHoles]
    are those of [gameState.currentLevel]; the boolean tells whether the
    player landed in this call. *)
Definition updatePhysics (gameSpeed gravityMultiplier : R)
  (mobile : MobileInput.t) (goal : Goal.t) (blackHoles : list BlackHole.t)
  (planets : list Planet.t) (keys : Keys) (deltaTime : R) (p : t) : t * bool :=
  let dt := deltaTime * 0.001 * gameSpeed in
  let '(p1, landed) := landing planets p in
  match onPlanet p1, currentPlanet p1 with
  | true, Some planet => (onPlanetStep mobile keys dt planet p1, landed)
  | _, _ =>
      (freeFallStep gravityMultiplier (sourcesOf planets goal blackHoles) dt p1,
       landed)
  end.

(** [jump()]. *)
Definition jump (p : t) : t :=
  match onPlanet p, currentPlanet p with
  | true, Some planet =>
      let orbitalRadius := Planet.radius planet + radius p + 2 in
      let currentLinearVelocity := Rabs (angularSpeed p) * orbitalRadius in
      let radialAngle := Js.atan2 (y p - Planet.y planet) (x p - Planet.x planet) in
      let directionSign := if angularSpeed p >=? 0 then 1 else -1 in
      let tangentialAngle := radialAngle + (PI / 2) * directionSign in
      let minRadialVelocity := 50 in
      mk (x p) (y p) (prevX p) (prevY p) (screenWrapped p)
         (cos tangentialAngle * currentLinearVelocity
          + cos radialAngle * minRadialVelocity)
         (sin tangentialAngle * currentLinearVelocity
          + sin radialAngle * minRadialVelocity)
         false (currentPlanet p) true (angle p) (radius p) (angularSpeed p)
         (baseAngularSpeed p) (angularAcceleration p) (angularDeceleration p)
         (escapeThreshold p)
  | _, _ => p
  end.

End Player.

(** script.js, the single-file version of the game, has an older
    [updateAngularMovement]: no target speed and no joystick; the left key
    is tested first. *)
Module Legacy.
Definition updateAngularMovement (keys : Keys) (dt : R) (p : Player.t) : R * R :=
  let speed :=
    if left keys then
      Rmax (Player.angularSpeed p - Player.angularAcceleration p * dt)
           (- Player.baseAngularSpeed p)
    else if right keys then
      Rmin (Player.angularSpeed p + Player.angularAcceleration p * dt)
           (Player.baseAngularSpeed p)
    else
      let decel := Player.angularDeceleration p * dt in
      if Rabs (Player.angularSpeed p) <? decel then 0
      else Player.angularSpeed p - Js.sign (Player.angularSpeed p) * decel in
  (speed, Player.angle p + speed * dt).

(** [new Player(x, y, planet)] of script.js: the acceleration is
    [baseAngularSpeed ^ 2 / (16 * PI)] and the deceleration 0.6 of it. *)
Definition new (x y : R) (planet : option Planet.t) : Player.t :=
  let baseAngularSpeed := 6 * 2 * PI in
  let angularAcceleration := baseAngularSpeed ^ 2 / (16 * PI) in
  Player.mk x y x y false 0 0
     (match planet with Some _ => true | None => false end)
     planet false
     (match planet with
      | Some planet => Js.atan2 (y - Planet.y planet) (x - Planet.x planet)
      | None => 0
      end)
     8 0 baseAngularSpeed angularAcceleration (angularAcceleration * 0.6)
     (1 / sqrt 2).

(** [updatePhysics] of script.js has the text of the modular one and calls
    the older [updateAngularMovement]. *)
Definition onPlanetStep (keys : Keys) (dt : R) (planet : Planet.t) (p : Player.t)
  : Player.t :=
  let '(speed, angle) := updateAngularMovement keys dt p in
  let surfaceDistance := Planet.radius planet + Player.radius p + 2 in
  let cosAngle := cos angle in
  let sinAngle := sin angle in
  Player.mk (Planet.x planet + cosAngle * surfaceDistance)
     (Planet.y planet + sinAngle * surfaceDistance)
     (Player.prevX p) (Player.prevY p) (Player.screenWrapped p) (Player.vx p)
     (Player.vy p) (Player.onPlanet p) (Player.currentPlanet p)
     (Player.hasJumped p) angle (Player.radius p) speed
     (Player.baseAngularSpeed p) (Player.angularAcceleration p)
     (Player.angularDeceleration p) (Player.escapeThreshold p).

Definition updatePhysics (gameSpeed gravityMultiplier : R) (goal : Goal.t)
  (blackHoles : list BlackHole.t) (planets : list Planet.t) (keys : Keys)
  (deltaTime : R) (p : Player.t) : Player.t * bool :=
  let dt := deltaTime * 0.001 * gameSpeed in
  let '(p1, landed) := Player.landing planets p in
  match Player.onPlanet p1, Player.currentPlanet p1 with
  | true, Some planet => (onPlanetStep keys dt planet p1, landed)
  | _, _ =>
      (Player.freeFallStep gravityMultiplier
         (Player.sourcesOf planets goal blackHoles) dt p1,
       landed)
  end.
End Legacy.

(* ================================================================== *)
(** * Level generator *)

Inductive Archetype : Set :=
| Standard | Simple | Binary | Gauntlet | Void | Maze | Giant | Precision
| Slingshot | Chaos
| Undefined (* an array read out of range *).

Record Config : Set := mkConfig {
  planetCount : Z * Z;
  sizeRange : R * R;
  minSpacing : R;
  blackHoleCount : Z;
  goalHops : Z;
  cfgArchetype : Archetype }.

(** The generator threads two pieces of state: the seed of its own
    linear-congruential sequence (the closure variable [randSeed]) and the
    position reached in the browser's [Math.random] stream, which only the
    [BlackHole] constructor reads. *)
Record GenState : Set := mkGen { randSeed : Z; mathPos : nat }.

Definition Gen (A : Type) : Type := GenState -> A * GenState.

Module GenMonad.
Definition ret {A} (a : A) : Gen A := fun s => (a, s).
Definition bind {A B} (m : Gen A) (k : A -> Gen B) : Gen B :=
  fun s => k (fst (m s)) (snd (m s)).
End GenMonad.
Import GenMonad.

Declare Scope gen_scope.
Delimit Scope gen_scope with gen.
Notation "x <- m ;; k" := (bind m (fun x => k))
  (at level 61, m at next level, right associativity) : gen_scope.
Notation "' p <- m ;; k" := (bind m (fun x => let 'p := x in k))
  (at level 61, p pattern, m at next level, right associativity) : gen_scope.
Open Scope gen_scope.

(** The step of the sequence, [(randSeed * 9301 + 49297) % 233280]. *)
Definition lcg (randSeed : Z) : Z := Z.rem (randSeed * 9301 + 49297) 233280.

(** The closure [random] of [generateLevel]. *)
Definition random : Gen R :=
  fun s => let randSeed := lcg (randSeed s) in
           (IZR randSeed / 233280, mkGen randSeed (mathPos s)).

(** Reserve [n] values of [Math.random]; returns the position of the first. *)
Definition takeMath (n : nat) : Gen nat :=
  fun s => (mathPos s, mkGen (randSeed s) (mathPos s + n)).

(** Array read [arr[k]]. *)
Definition arrayGet (arr : list Archetype) (k : Z) : Archetype :=
  if (k <? 0)%Z then Undefined else nth (Z.to_nat k) arr Undefined.

Module Level.

Record t : Set := mk {
  planets : list Planet.t;
  startPosition : Vec;
  goalPosition : Vec;
  goalRadius : R;
  blackHoles : list BlackHole.t;
  seed : Z;
  archetype : Archetype;
  goal : Goal.t }.

(** [new Level(planets, startPosition, goalPosition)]. *)
Definition new (planets : list Planet.t) (startPosition goalPosition : Vec) : t :=
  let goalRadius := 20 in
  mk planets startPosition goalPosition goalRadius [] 0 Standard
     (Goal.mk (vx_ goalPosition) (vy_ goalPosition) goalRadius 0.56).

Definition setBlackHoles (bhs : list BlackHole.t) (l : t) : t :=
  mk (planets l) (startPosition l) (goalPosition l) (goalRadius l) bhs
     (seed l) (archetype l) (goal l).

(** The difficulty tier of a level number. *)
Definition tierConfig (levelNumber : Z) : Gen Config :=
  if (levelNumber <=? 5)%Z then
    ret (mkConfig (3, 4)%Z (25, 45) 120 0 1 Simple)
  else if (levelNumber <=? 15)%Z then
    r1 <- random ;; r2 <- random ;;
    ret (mkConfig (4, 5)%Z (20, 55) 140 0
           (if r1 <? 0.5 then 1%Z else 2%Z)
           (if r2 <? 0.7 then Simple else Binary))
  else if (levelNumber <=? 30)%Z then
    r1 <- random ;; r2 <- random ;;
    ret (mkConfig (5, 6)%Z (15, 65) 160 0
           (Js.floor (r1 * 2) + 2)%Z
           (arrayGet [Simple; Binary; Gauntlet; Slingshot] (Js.floor (r2 * 4))))
  else if (levelNumber <=? 50)%Z then
    r1 <- random ;; r2 <- random ;;
    ret (mkConfig (6, 7)%Z (12, 75) 180 0
           (Js.floor (r1 * 2) + 3)%Z
           (arrayGet [Binary; Gauntlet; Slingshot; Void; Maze]
                     (Js.floor (r2 * 5))))
  else if (levelNumber <=? 75)%Z then
    r0 <- random ;; r1 <- random ;; r2 <- random ;;
    ret (mkConfig (6, 8)%Z (10, 85) 200
           (if r0 <? 0.3 then 1%Z else 0%Z)
           (Js.floor (r1 * 2) + 3)%Z
           (arrayGet [Gauntlet; Void; Maze; Giant; Precision]
                     (Js.floor (r2 * 5))))
  else
    r1 <- random ;; r2 <- random ;;
    ret (mkConfig (6, 9)%Z (8, 90) 220
           (Z.min (Js.floor (IZR levelNumber / 50)) 3)
           (Js.floor (r1 * 3) + 3)%Z
           (arrayGet [Void; Maze; Giant; Precision; Chaos]
                     (Js.floor (r2 * 5)))).

(** Gravity strength of a planet of a given radius,
    [Math.pow(radius / baseRadius, 3)] with [baseRadius = 35]. *)
Definition strengthOf (radius : R) : R := (radius / 35) ^ 3.

(** The spacing test of the rejection-sampling loops: the candidate keeps
    [existing.radius + radius + spacing] from every placed planet. *)
Definition farEnough (spacing radius x y : R) (planets : list Planet.t) : bool :=
  forallb (fun existing =>
             let dx := x - Planet.x existing in
             let dy := y - Planet.y existing in
             let dist := sqrt (dx * dx + dy * dy) in
             let minDist := Planet.radius existing + radius + spacing in
             negb (dist <? minDist))
          planets.

(** The [while (!validPosition && attempts < 100)] loop shared by the
    archetypes simple, binary, maze, giant, precision and chaos.  They
    differ by the draw of the radius, by the inset from the canvas border
    (20, 30 or 15, the span being reduced by twice as much) and by the
    spacing required.  [None] when the budget runs out. *)
Fixpoint sample (drawRadius : Gen R) (inset spacing : R)
  (planets : list Planet.t) (attempts : nat) : Gen (option (R * R * R)) :=
  match attempts with
  | O => ret None
  | S attempts' =>
      radius <- drawRadius ;;
      rx <- random ;;
      ry <- random ;;
      let x := radius + inset + rx * (CANVAS_WIDTH - 2 * radius - 2 * inset) in
      let y := radius + inset + ry * (CANVAS_HEIGHT - 2 * radius - 2 * inset) in
      if farEnough spacing radius x y planets then ret (Some (radius, x, y))
      else sample drawRadius inset spacing planets attempts'
  end.

(** One turn of a placement loop: sample, and push on success. *)
Definition placeOne (drawRadius : Gen R) (inset spacing : R)
  (planets : list Planet.t) : Gen (list Planet.t) :=
  c <- sample drawRadius inset spacing planets 100 ;;
  match c with
  | Some (radius, x, y) =>
      ret (planets ++ [Planet.mk radius x y (strengthOf radius)])
  | None => ret planets
  end.

Fixpoint placeMany (drawRadius : Gen R) (inset spacing : R) (count : nat)
  (planets : list Planet.t) : Gen (list Planet.t) :=
  match count with
  | O => ret planets
  | S count' =>
      planets' <- placeOne drawRadius inset spacing planets ;;
      placeMany drawRadius inset spacing count' planets'
  end.

(** [sizeRange[0] + Math.floor(random() * width)]. *)
Definition drawRadiusFloor (lo width : R) : Gen R :=
  r <- random ;; ret (lo + IZR (Js.floor (r * width))).

(** [sizeRange[0] + Math.floor(random() * width * factor)]. *)
Definition drawRadiusFloorScaled (lo width factor : R) : Gen R :=
  r <- random ;; ret (lo + IZR (Js.floor (r * width * factor))).

(** Finalization, shared by all archetypes: start position, goal,
    black holes. *)

(** Does the goal at [(goalX, goalY)] come closer to some planet than
    [planet.radius + goalRadius + minBuffer]? *)
Definition goalCollides (goalRadius minBuffer goalX goalY : R)
  (planets : list Planet.t) : bool :=
  existsb (fun planet =>
             let dx := goalX - Planet.x planet in
             let dy := goalY - Planet.y planet in
             let distance := sqrt (dx * dx + dy * dy) in
             distance <? Planet.radius planet + goalRadius + minBuffer)
          planets.

(** The re-roll loop of the goal, [budget] attempts being left.  The
    boolean tells that the loop ended with [attempts >= maxAttempts]. *)
Fixpoint rerollGoal (goalPlanet : Planet.t) (goalDistance : R)
  (planets : list Planet.t) (budget : nat) (goalX goalY : R)
  : Gen (R * R * bool) :=
  match budget with
  | O => ret (goalX, goalY, true)
  | S budget' =>
      if goalCollides 20 40 goalX goalY planets then
        r1 <- random ;;
        r2 <- random ;;
        let newAngle := r1 * PI * 2 in
        let newDistance := goalDistance + (r2 - 0.5) * 60 in
        rerollGoal goalPlanet goalDistance planets budget'
          (Planet.x goalPlanet + cos newAngle * newDistance)
          (Planet.y goalPlanet + sin newAngle * newDistance)
      else ret (goalX, goalY, false)
  end.

(** The displacement forced when every attempt failed. *)
Definition forceGoalOutside (goalPlanet : Planet.t) (goalX goalY : R) : R * R :=
  let goalRadius := 20 in
  let minBuffer := 40 in
  let dx := goalX - Planet.x goalPlanet in
  let dy := goalY - Planet.y goalPlanet in
  let currentDistance := sqrt (dx * dx + dy * dy) in
  if currentDistance <? Planet.radius goalPlanet + goalRadius + minBuffer then
    let forceDistance := Planet.radius goalPlanet + goalRadius + minBuffer + 20 in
    let angle := Js.atan2 dy dx in
    (Planet.x goalPlanet + cos angle * forceDistance,
     Planet.y goalPlanet + sin angle * forceDistance)
  else (goalX, goalY).

Definition clampGoal (goalX goalY : R) : R * R :=
  let goalRadius := 20 in
  let goalMargin := 30 in
  (Rmax (goalRadius + goalMargin) (Rmin (CANVAS_WIDTH - goalRadius - goalMargin) goalX),
   Rmax (goalRadius + goalMargin) (Rmin (CANVAS_HEIGHT - goalRadius - goalMargin) goalY)).

(** The validity test of a black-hole position. *)
Definition blackHoleValid (planets : list Planet.t) (goalX goalY : R)
  (startPosition : Vec) (blackHoles : list BlackHole.t) (x y : R) : bool :=
  forallb (fun planet =>
             let dx := x - Planet.x planet in
             let dy := y - Planet.y planet in
             let dist := sqrt (dx * dx + dy * dy) in
             negb (dist <? Planet.radius planet + 80))
          planets
  && negb (sqrt ((x - goalX) ^ 2 + (y - goalY) ^ 2) <? 100)
  && negb (sqrt ((x - vx_ startPosition) ^ 2 + (y - vy_ startPosition) ^ 2) <? 120)
  && forallb (fun bh =>
                let dx := x - BlackHole.x bh in
                let dy := y - BlackHole.y bh in
                let dist := sqrt (dx * dx + dy * dy) in
                negb (dist <? 150))
             blackHoles.

Fixpoint sampleBlackHole (planets : list Planet.t) (goalX goalY : R)
  (startPosition : Vec) (blackHoles : list BlackHole.t) (attempts : nat)
  : Gen (option (R * R)) :=
  match attempts with
  | O => ret None
  | S attempts' =>
      rx <- random ;;
      ry <- random ;;
      let x := 50 + rx * (CANVAS_WIDTH - 100) in
      let y := 50 + ry * (CANVAS_HEIGHT - 100) in
      if blackHoleValid planets goalX goalY startPosition blackHoles x y
      then ret (Some (x, y))
      else sampleBlackHole planets goalX goalY startPosition blackHoles attempts'
  end.

Fixpoint addBlackHoles (mr : nat -> R) (planets : list Planet.t)
  (goalX goalY : R) (startPosition : Vec) (count : nat)
  (blackHoles : list BlackHole.t) : Gen (list BlackHole.t) :=
  match count with
  | O => ret blackHoles
  | S count' =>
      c <- sampleBlackHole planets goalX goalY startPosition blackHoles 50 ;;
      match c with
      | Some (x, y) =>
          r <- random ;;
          pos <- takeMath 200 ;;
          addBlackHoles mr planets goalX goalY startPosition count'
            (blackHoles ++ [BlackHole.new mr pos x y (8 + IZR (Js.floor (r * 4)))])
      | None =>
          addBlackHoles mr planets goalX goalY startPosition count' blackHoles
      end
  end.

(** [_finalizeLevelGeneration(levelNumber, config, random, planets)], as in
    the classes file.  (script.js has the same function without the
    re-roll loop and the forced displacement of the goal.) *)
Definition _finalizeLevelGeneration (mr : nat -> R) (levelNumber : Z)
  (config : Config) (planets0 : list Planet.t) : Gen t :=
  let planets :=
    match planets0 with
    | [] => [Planet.mk 30 (CANVAS_WIDTH / 2) (CANVAS_HEIGHT / 2) 1]
    | _ => planets0
    end in
  let startPlanet := nth 0 planets (Planet.mk 0 0 0 0) in
  r <- random ;;
  let startAngle := r * PI * 2 in
  let startPosition :=
    mkVec (Planet.x startPlanet + cos startAngle * (Planet.radius startPlanet + 15))
          (Planet.y startPlanet + sin startAngle * (Planet.radius startPlanet + 15)) in
  let length := Z.of_nat (List.length planets) in
  let goalPlanetIndex := Z.min (goalHops config) (length - 1) in
  let goalPlanetIndex :=
    if (goalPlanetIndex <? 0)%Z then (if (length >? 1)%Z then 1%Z else 0%Z)
    else goalPlanetIndex in
  let goalPlanet := nth (Z.to_nat goalPlanetIndex) planets (Planet.mk 0 0 0 0) in
  r <- random ;;
  let goalAngle := r * PI * 2 in
  r <- random ;;
  let goalDistance := Planet.radius goalPlanet + 40 + r * 30 in
  let goalX := Planet.x goalPlanet + cos goalAngle * goalDistance in
  let goalY := Planet.y goalPlanet + sin goalAngle * goalDistance in
  '(goalX, goalY, exhausted) <-
     rerollGoal goalPlanet goalDistance planets 100 goalX goalY ;;
  let '(goalX, goalY) :=
    if exhausted then forceGoalOutside goalPlanet goalX goalY
    else (goalX, goalY) in
  let '(goalX, goalY) := clampGoal goalX goalY in
  let goalPosition := mkVec goalX goalY in
  let level := new planets startPosition goalPosition in
  blackHoles <- addBlackHoles mr planets goalX goalY startPosition
                  (Z.to_nat (blackHoleCount config)) (blackHoles level) ;;
  ret (setBlackHoles blackHoles level).

(** Simple: random distribution of planets. *)
Definition _generateSimple (mr : nat -> R) (levelNumber : Z) (config : Config)
  : Gen t :=
  let '(pc0, pc1) := planetCount config in
  let '(lo, hi) := sizeRange config in
  r <- random ;;
  let planetCount := (pc0 + Js.floor (r * IZR (pc1 - pc0 + 1)))%Z in
  planets <- placeMany (drawRadiusFloor lo (hi - lo)) 20 (minSpacing config)
               (Z.to_nat planetCount) [] ;;
  _finalizeLevelGeneration mr levelNumber config planets.

(** Binary system: two large planets close together. *)
Definition _generateBinarySystem (mr : nat -> R) (levelNumber : Z)
  (config : Config) : Gen t :=
  let '(pc0, pc1) := planetCount config in
  let '(lo, hi) := sizeRange config in
  r <- random ;;
  let binaryRadius1 := hi * 0.7 + r * hi * 0.3 in
  r <- random ;;
  let binaryRadius2 := hi * 0.6 + r * hi * 0.3 in
  let binarySeparation := binaryRadius1 + binaryRadius2 + minSpacing config * 0.7 in
  let centerX := CANVAS_WIDTH / 2 in
  let centerY := CANVAS_HEIGHT / 2 in
  r <- random ;;
  let angle := r * PI * 2 in
  let x1 := centerX + cos angle * binarySeparation / 2 in
  let y1 := centerY + sin angle * binarySeparation / 2 in
  let x2 := centerX - cos angle * binarySeparation / 2 in
  let y2 := centerY - sin angle * binarySeparation / 2 in
  let planets :=
    [Planet.mk binaryRadius1 x1 y1 (strengthOf binaryRadius1);
     Planet.mk binaryRadius2 x2 y2 (strengthOf binaryRadius2)] in
  r <- random ;;
  let remainingPlanets := (pc0 - 2 + Js.floor (r * IZR (pc1 - pc0)))%Z in
  planets <- placeMany (drawRadiusFloorScaled lo (hi - lo) 0.6) 20
               (minSpacing config) (Z.to_nat remainingPlanets) planets ;;
  _finalizeLevelGeneration mr levelNumber config planets.

(** Gauntlet: a line of planets of alternating sizes. *)
Fixpoint gauntletLoop (config : Config) (planetCount : Z) (horizontal : bool)
  (remaining i : nat) (planets : list Planet.t) : Gen (list Planet.t) :=
  match remaining with
  | O => ret planets
  | S remaining' =>
      let '(lo, hi) := sizeRange config in
      let t := (INR i + 1) / (IZR planetCount + 1) in
      let alternateSize := Nat.even i in
      radius <- (if alternateSize then ret (hi * 0.7)
                 else r <- random ;; ret (lo + r * (lo * 0.5))) ;;
      x <- (if horizontal then ret (t * (CANVAS_WIDTH - 100) + 50)
            else r <- random ;; ret (CANVAS_WIDTH / 2 + (r - 0.5) * 200)) ;;
      y <- (if horizontal
            then r <- random ;; ret (CANVAS_HEIGHT / 2 + (r - 0.5) * 200)
            else ret (t * (CANVAS_HEIGHT - 100) + 50)) ;;
      gauntletLoop config planetCount horizontal remaining' (S i)
        (planets ++ [Planet.mk radius x y (strengthOf radius)])
  end.

Definition _generateGauntlet (mr : nat -> R) (levelNumber : Z)
  (config : Config) : Gen t :=
  let planetCount := Z.max 5 (fst (planetCount config)) in
  r <- random ;;
  let horizontal := r <? 0.5 in
  planets <- gauntletLoop config planetCount horizontal
               (Z.to_nat planetCount) 0 [] ;;
  _finalizeLevelGeneration mr levelNumber config planets.

(** Void: sparse planets, no spacing test. *)
Fixpoint voidLoop (config : Config) (remaining : nat)
  (planets : list Planet.t) : Gen (list Planet.t) :=
  match remaining with
  | O => ret planets
  | S remaining' =>
      let '(lo, hi) := sizeRange config in
      radius <- drawRadiusFloor lo (hi - lo) ;;
      rx <- random ;;
      ry <- random ;;
      let x := radius + 40 + rx * (CANVAS_WIDTH - 2 * radius - 80) in
      let y := radius + 40 + ry * (CANVAS_HEIGHT - 2 * radius - 80) in
      voidLoop config remaining'
        (planets ++ [Planet.mk radius x y (strengthOf radius)])
  end.

Definition _generateVoid (mr : nat -> R) (levelNumber : Z) (config : Config)
  : Gen t :=
  let planetCount := Z.max 3 (fst (planetCount config) - 1) in
  planets <- voidLoop config (Z.to_nat planetCount) [] ;;
  _finalizeLevelGeneration mr levelNumber config planets.

(** Maze: dense cluster, spacing scaled by 0.7. *)
Definition _generateMaze (mr : nat -> R) (levelNumber : Z) (config : Config)
  : Gen t :=
  let planetCount := snd (planetCount config) in
  let '(lo, hi) := sizeRange config in
  planets <- placeMany (drawRadiusFloor lo (hi - lo)) 20
               (minSpacing config * 0.7) (Z.to_nat planetCount) [] ;;
  _finalizeLevelGeneration mr levelNumber config planets.

(** Giant: one huge planet and smaller satellites. *)
Definition _generateGiant (mr : nat -> R) (levelNumber : Z) (config : Config)
  : Gen t :=
  let '(lo, hi) := sizeRange config in
  let giantRadius := hi in
  r <- random ;;
  let giantX := CANVAS_WIDTH / 2 + (r - 0.5) * 100 in
  r <- random ;;
  let giantY := CANVAS_HEIGHT / 2 + (r - 0.5) * 100 in
  let planets :=
    [Planet.mk giantRadius giantX giantY (strengthOf giantRadius * 1.5)] in
  let satelliteCount := (fst (planetCount config) - 1)%Z in
  planets <- placeMany (drawRadiusFloor lo (lo * 2)) 20 (minSpacing config)
               (Z.to_nat satelliteCount) planets ;;
  _finalizeLevelGeneration mr levelNumber config planets.

(** Precision: tiny planets, spacing scaled by 1.2. *)
Definition _generatePrecision (mr : nat -> R) (levelNumber : Z)
  (config : Config) : Gen t :=
  let planetCount := snd (planetCount config) in
  let tinySize := fst (sizeRange config) in
  planets <- placeMany (drawRadiusFloor tinySize (tinySize * 0.5)) 30
               (minSpacing config * 1.2) (Z.to_nat planetCount) [] ;;
  _finalizeLevelGeneration mr levelNumber config planets.

(** Slingshot: four planets on a curved path. *)
Fixpoint slingshotLoop (config : Config) (pathPlanets : nat)
  (remaining i : nat) (planets : list Planet.t) : Gen (list Planet.t) :=
  match remaining with
  | O => ret planets
  | S remaining' =>
      let '(lo, hi) := sizeRange config in
      let t := INR i / (INR pathPlanets - 1) in
      radius <- drawRadiusFloorScaled lo (hi - lo) 0.7 ;;
      let curveAngle := t * PI in
      let curveRadius := Rmin CANVAS_WIDTH CANVAS_HEIGHT * 0.35 in
      let x := CANVAS_WIDTH / 2 + cos curveAngle * curveRadius in
      let y := CANVAS_HEIGHT / 2 + sin curveAngle * curveRadius * 0.5 in
      slingshotLoop config pathPlanets remaining' (S i)
        (planets ++ [Planet.mk radius x y (strengthOf radius)])
  end.

Definition _generateSlingshot (mr : nat -> R) (levelNumber : Z)
  (config : Config) : Gen t :=
  let pathPlanets := 4%nat in
  planets <- slingshotLoop config pathPlanets pathPlanets 0 [] ;;
  _finalizeLevelGeneration mr levelNumber config planets.

(** Chaos: spacing scaled by 0.8, gravity strength varied by 30%. *)
Definition chaosOne (lo hi spacing : R) (planets : list Planet.t)
  : Gen (list Planet.t) :=
  c <- sample (drawRadiusFloor lo (hi - lo)) 15 spacing planets 100 ;;
  match c with
  | Some (radius, x, y) =>
      r <- random ;;
      let gravityVariance := 0.7 + r * 0.6 in
      ret (planets ++ [Planet.mk radius x y (strengthOf radius * gravityVariance)])
  | None => ret planets
  end.

Fixpoint chaosLoop (lo hi spacing : R) (count : nat) (planets : list Planet.t)
  : Gen (list Planet.t) :=
  match count with
  | O => ret planets
  | S count' =>
      planets' <- chaosOne lo hi spacing planets ;;
      chaosLoop lo hi spacing count' planets'
  end.

Definition _generateChaos (mr : nat -> R) (levelNumber : Z) (config : Config)
  : Gen t :=
  let planetCount := snd (planetCount config) in
  let '(lo, hi) := sizeRange config in
  planets <- chaosLoop lo hi (minSpacing config * 0.8)
               (Z.to_nat planetCount) [] ;;
  _finalizeLevelGeneration mr levelNumber config planets.

Definition _generateByArchetype (mr : nat -> R) (levelNumber : Z)
  (config : Config) : Gen t :=
  match cfgArchetype config with
  | Binary => _generateBinarySystem mr levelNumber config
  | Gauntlet => _generateGauntlet mr levelNumber config
  | Void => _generateVoid mr levelNumber config
  | Maze => _generateMaze mr levelNumber config
  | Giant => _generateGiant mr levelNumber config
  | Precision => _generatePrecision mr levelNumber config
  | Slingshot => _generateSlingshot mr levelNumber config
  | Chaos => _generateChaos mr levelNumber config
  | _ => _generateSimple mr levelNumber config
  end.

(** The whole generator, as a computation on the generator state. *)
Definition generate (mr : nat -> R) (levelNumber : Z) : Gen t :=
  config <- tierConfig levelNumber ;;
  level <- _generateByArchetype mr levelNumber config ;;
  ret (mk (planets level) (startPosition level) (goalPosition level)
          (goalRadius level) (blackHoles level) levelNumber
          (cfgArchetype config) (goal level)).

(** [Level.generateLevel(levelNumber)].  [mr] is the part of the
    [Math.random] stream that lies ahead when the call is made. *)
Definition generateLevel (mr : nat -> R) (levelNumber : Z) : t :=
  fst (generate mr levelNumber (mkGen levelNumber 0)).

(** [checkGoal(player)]. *)
Definition checkGoal (self : t) (player : Player.t) : bool :=
  let dx := Player.x player - vx_ (goalPosition self) in
  let dy := Player.y player - vy_ (goalPosition self) in
  let distSquared := dx * dx + dy * dy in
  let goalRadiusSquared := goalRadius self * goalRadius self in
  if distSquared <=? goalRadiusSquared then true
  else lineSegmentIntersectsCircle
         (Player.prevX player) (Player.prevY player)
         (Player.x player) (Player.y player)
         (vx_ (goalPosition self)) (vy_ (goalPosition self))
         (goalRadius self).

End Level.

Close Scope gen_scope.

(* ================================================================== *)
(** * Game state and game loop

    The rendering, the menus, the particle pool, the screen shake and the
    local storage are collaborators outside the core; a call to one of them
    is recorded as an event and has no other effect here: the fields
    [particlePool], [screenShake] and [visualEffects] of [gameState] are not
    carried by [GameState], and every call that reads or writes them leaves
    its event in the trace.  The calls of the core that the step makes are
    recorded in the same trace, in the order in which they happen. *)

Inductive Mode : Set := Endless | Speedrun | Daily | Practice.

(** [gameState.lives]: a number, or [Infinity]. *)
Inductive Lives : Set := Finite (n : Z) | Infinity.

Record Stats : Set := mkStats {
  totalDeaths : Z;
  totalLevelsCompleted : Z;
  totalTimePlayed : R;
  totalJumps : Z;
  totalLandings : Z;
  longestStreak : Z }.

Inductive Event : Set :=
| PlayerPhysics                   (* player.updatePhysics ran *)
| BlackHoleCheck (hit : bool)     (* checkBlackHoleCollision was evaluated *)
| GoalCheck (hit : bool)          (* currentLevel.checkGoal was evaluated *)
| LevelGenerated (levelNumber : Z)  (* Level.generateLevel was called *)
| PlayerCreated                   (* new Player(...) *)
| PlayerDied                      (* handlePlayerDeath was entered *)
| LevelCompleted                  (* handleLevelComplete was entered *)
| ParticleBurst                   (* createParticleBurst(...) *)
| ScreenShake                     (* addScreenShake(...) *)
| ParticlesUpdated (dt : R)       (* particlePool.update(dt) *)
| ScreenShakeUpdated (dt : R)     (* updateScreenShake(dt) *)
| ParticlesCleared
| TimerDisplay
| UiUpdated
| StatsSaved
| HighScoreSaved
| DailyScoreSaved
| SpeedrunRecorded
| CompletionScreen
| MenusHidden
| PauseMenuShown.

(** What the step reads from the browser: the clock, the date (as the seed
    of the daily challenge) and the [Math.random] stream.  [mathRandom] lists
    the values that [Math.random] hands to the black holes (their constructor
    and their animation), in the order of the calls; the values drawn in
    between by the particle effects and by the screen shake belong to the
    collaborators and are not listed. *)
Record Env : Type := mkEnv {
  now : R;
  dailyChallengeSeed : Z;
  mathRandom : nat -> R }.

(** [gameState]; [currentLevel] and [player] are set by [startGame] before
    any step runs.  [randomCalls] is not a field of the JavaScript object: it
    counts the values of [mathRandom] consumed so far. *)
Record GameState : Set := mkGameState {
  currentLevel : Level.t;
  player : Player.t;
  gameStarted : bool;
  keys : Keys;
  mobileInput : MobileInput.t;
  mode : Mode;
  speedrunTarget : Z;
  currentLevelNumber : Z;
  score : Z;
  levelsCompleted : Z;
  deaths : Z;
  lives : Lives;
  startTime : R;
  currentTime : R;
  highScore : Z;
  dailyBestScore : Z;
  gameSpeed : R;
  gravityMultiplier : R;
  paused : bool;
  stats : Stats;
  randomCalls : nat }.

Definition set_currentLevel (v : Level.t) (g : GameState) : GameState :=
  mkGameState v (player g) (gameStarted g) (keys g) (mobileInput g) (mode g)
    (speedrunTarget g) (currentLevelNumber g) (score g) (levelsCompleted g)
    (deaths g) (lives g) (startTime g) (currentTime g) (highScore g)
    (dailyBestScore g) (gameSpeed g) (gravityMultiplier g) (paused g)
    (stats g) (randomCalls g).

Definition set_player (v : Player.t) (g : GameState) : GameState :=
  mkGameState (currentLevel g) v (gameStarted g) (keys g) (mobileInput g)
    (mode g) (speedrunTarget g) (currentLevelNumber g) (score g)
    (levelsCompleted g) (deaths g) (lives g) (startTime g) (currentTime g)
    (highScore g) (dailyBestScore g) (gameSpeed g) (gravityMultiplier g)
    (paused g) (stats g) (randomCalls g).

Definition set_gameStarted (v : bool) (g : GameState) : GameState :=
  mkGameState (currentLevel g) (player g) v (keys g) (mobileInput g) (mode g)
    (speedrunTarget g) (currentLevelNumber g) (score g) (levelsCompleted g)
    (deaths g) (lives g) (startTime g) (currentTime g) (highScore g)
    (dailyBestScore g) (gameSpeed g) (gravityMultiplier g) (paused g)
    (stats g) (randomCalls g).

Definition set_keys (v : Keys) (g : GameState) : GameState :=
  mkGameState (currentLevel g) (player g) (gameStarted g) v (mobileInput g)
    (mode g) (speedrunTarget g) (currentLevelNumber g) (score g)
    (levelsCompleted g) (deaths g) (lives g) (startTime g) (currentTime g)
    (highScore g) (dailyBestScore g) (gameSpeed g) (gravityMultiplier g)
    (paused g) (stats g) (randomCalls g).

Definition set_mobileInput (v : MobileInput.t) (g : GameState) : GameState :=
  mkGameState (currentLevel g) (player g) (gameStarted g) (keys g) v (mode g)
    (speedrunTarget g) (currentLevelNumber g) (score g) (levelsCompleted g)
    (deaths g) (lives g) (startTime g) (currentTime g) (highScore g)
    (dailyBestScore g) (gameSpeed g) (gravityMultiplier g) (paused g)
    (stats g) (randomCalls g).

Definition set_mode (v : Mode) (g : GameState) : GameState :=
  mkGameState (currentLevel g) (player g) (gameStarted g) (keys g)
    (mobileInput g) v (speedrunTarget g) (currentLevelNumber g) (score g)
    (levelsCompleted g) (deaths g) (lives g) (startTime g) (currentTime g)
    (highScore g) (dailyBestScore g) (gameSpeed g) (gravityMultiplier g)
    (paused g) (stats g) (randomCalls g).

Definition set_speedrunTarget (v : Z) (g : GameState) : GameState :=
  mkGameState (currentLevel g) (player g) (gameStarted g) (keys g)
    (mobileInput g) (mode g) v (currentLevelNumber g) (score g)
    (levelsCompleted g) (deaths g) (lives g) (startTime g) (currentTime g)
    (highScore g) (dailyBestScore g) (gameSpeed g) (gravityMultiplier g)
    (paused g) (stats g) (randomCalls g).

Definition set_currentLevelNumber (v : Z) (g : GameState) : GameState :=
  mkGameState (currentLevel g) (player g) (gameStarted g) (keys g)
    (mobileInput g) (mode g) (speedrunTarget g) v (score g)
    (levelsCompleted g) (deaths g) (lives g) (startTime g) (currentTime g)
    (highScore g) (dailyBestScore g) (gameSpeed g) (gravityMultiplier g)
    (paused g) (stats g) (randomCalls g).

Definition set_score (v : Z) (g : GameState) : GameState :=
  mkGameState (currentLevel g) (player g) (gameStarted g) (keys g)
    (mobileInput g) (mode g) (speedrunTarget g) (currentLevelNumber g) v
    (levelsCompleted g) (deaths g) (lives g) (startTime g) (currentTime g)
    (highScore g) (dailyBestScore g) (gameSpeed g) (gravityMultiplier g)
    (paused g) (stats g) (randomCalls g).

Definition set_levelsCompleted (v : Z) (g : GameState) : GameState :=
  mkGameState (currentLevel g) (player g) (gameStarted g) (keys g)
    (mobileInput g) (mode g) (speedrunTarget g) (currentLevelNumber g)
    (score g) v (deaths g) (lives g) (startTime g) (currentTime g)
    (highScore g) (dailyBestScore g) (gameSpeed g) (gravityMultiplier g)
    (paused g) (stats g) (randomCalls g).

Definition set_deaths (v : Z) (g : GameState) : GameState :=
  mkGameState (currentLevel g) (player g) (gameStarted g) (keys g)
    (mobileInput g) (mode g) (speedrunTarget g) (currentLevelNumber g)
    (score g) (levelsCompleted g) v (lives g) (startTime g) (currentTime g)
    (highScore g) (dailyBestScore g) (gameSpeed g) (gravityMultiplier g)
    (paused g) (stats g) (randomCalls g).

Definition set_lives (v : Lives) (g : GameState) : GameState :=
  mkGameState (currentLevel g) (player g) (gameStarted g) (keys g)
    (mobileInput g) (mode g) (speedrunTarget g) (currentLevelNumber g)
    (score g) (levelsCompleted g) (deaths g) v (startTime g) (currentTime g)
    (highScore g) (dailyBestScore g) (gameSpeed g) (gravityMultiplier g)
    (paused g) (stats g) (randomCalls g).

Definition set_startTime (v : R) (g : GameState) : GameState :=
  mkGameState (currentLevel g) (player g) (gameStarted g) (keys g)
    (mobileInput g) (mode g) (speedrunTarget g) (currentLevelNumber g)
    (score g) (levelsCompleted g) (deaths g) (lives g) v (currentTime g)
    (highScore g) (dailyBestScore g) (gameSpeed g) (gravityMultiplier g)
    (paused g) (stats g) (randomCalls g).

Definition set_currentTime (v : R) (g : GameState) : GameState :=
  mkGameState (currentLevel g) (player g) (gameStarted g) (keys g)
    (mobileInput g) (mode g) (speedrunTarget g) (currentLevelNumber g)
    (score g) (levelsCompleted g) (deaths g) (lives g) (startTime g) v
    (highScore g) (dailyBestScore g) (gameSpeed g) (gravityMultiplier g)
    (paused g) (stats g) (randomCalls g).

Definition set_highScore (v : Z) (g : GameState) : GameState :=
  mkGameState (currentLevel g) (player g) (gameStarted g) (keys g)
    (mobileInput g) (mode g) (speedrunTarget g) (currentLevelNumber g)
    (score g) (levelsCompleted g) (deaths g) (lives g) (startTime g)
    (currentTime g) v (dailyBestScore g) (gameSpeed g) (gravityMultiplier g)
    (paused g) (stats g) (randomCalls g).

Definition set_dailyBestScore (v : Z) (g : GameState) : GameState :=
  mkGameState (currentLevel g) (player g) (gameStarted g) (keys g)
    (mobileInput g) (mode g) (speedrunTarget g) (currentLevelNumber g)
    (score g) (levelsCompleted g) (deaths g) (lives g) (startTime g)
    (currentTime g) (highScore g) v (gameSpeed g) (gravityMultiplier g)
    (paused g) (stats g) (randomCalls g).

Definition set_paused (v : bool) (g : GameState) : GameState :=
  mkGameState (currentLevel g) (player g) (gameStarted g) (keys g)
    (mobileInput g) (mode g) (speedrunTarget g) (currentLevelNumber g)
    (score g) (levelsCompleted g) (deaths g) (lives g) (startTime g)
    (currentTime g) (highScore g) (dailyBestScore g) (gameSpeed g)
    (gravityMultiplier g) v (stats g) (randomCalls g).

Definition set_stats (v : Stats) (g : GameState) : GameState :=
  mkGameState (currentLevel g) (player g) (gameStarted g) (keys g)
    (mobileInput g) (mode g) (speedrunTarget g) (currentLevelNumber g)
    (score g) (levelsCompleted g) (deaths g) (lives g) (startTime g)
    (currentTime g) (highScore g) (dailyBestScore g) (gameSpeed g)
    (gravityMultiplier g) (paused g) v (randomCalls g).

Definition set_randomCalls (v : nat) (g : GameState) : GameState :=
  mkGameState (currentLevel g) (player g) (gameStarted g) (keys g)
    (mobileInput g) (mode g) (speedrunTarget g) (currentLevelNumber g)
    (score g) (levelsCompleted g) (deaths g) (lives g) (startTime g)
    (currentTime g) (highScore g) (dailyBestScore g) (gameSpeed g)
    (gravityMultiplier g) (paused g) (stats g) v.

(** State and trace monad of the game functions. *)
Definition Game (A : Type) : Type := GameState -> A * GameState * list Event.

Definition stateOf {A} (r : A * GameState * list Event) : GameState := snd (fst r).
Definition traceOf {A} (r : A * GameState * list Event) : list Event := snd r.
Definition valueOf {A} (r : A * GameState * list Event) : A := fst (fst r).

Module GameMonad.
Definition ret {A} (a : A) : Game A := fun g => (a, g, []).
Definition bind {A B} (m : Game A) (k : A -> Game B) : Game B :=
  fun g => let r1 := m g in
           let r2 := k (valueOf r1) (stateOf r1) in
           (valueOf r2, stateOf r2, traceOf r1 ++ traceOf r2).
Definition get : Game GameState := fun g => (g, g, []).
Definition modify (f : GameState -> GameState) : Game unit :=
  fun g => (tt, f g, []).
Definition emit (e : Event) : Game unit := fun g => (tt, g, [e]).
Definition when (b : bool) (m : Game unit) : Game unit :=
  if b then m else ret tt.
End GameMonad.
Import GameMonad.

Declare Scope game_scope.
Delimit Scope game_scope with game.
Notation "x <- m ;; k" := (bind m (fun x => k))
  (at level 61, m at next level, right associativity) : game_scope.
Notation "m ;; k" := (bind m (fun _ => k))
  (at level 61, right associativity) : game_scope.
Open Scope game_scope.

(** [a || b] on an optional number: the default replaces a missing value
    and zero. *)
Definition orDefault (target : option Z) (d : Z) : Z :=
  match target with
  | Some v => if (v =? 0)%Z then d else v
  | None => d
  end.

(** [calculateEndlessScore()]. *)
Definition calculateEndlessScore (g : GameState) : Z :=
  let levels := levelsCompleted g in
  let time := currentTime g / 1000 in
  if (levels =? 0)%Z || (time =? 0) then 0%Z
  else
    let baseScore := IZR levels * 1000 in
    let speedBonus := (6000 * IZR levels ^ 3) / time in
    Js.floor (baseScore + speedBonus).

(** [updateUI()]: apart from the page, it refreshes the score in the
    endless and daily modes. *)
Definition updateUI : Game unit :=
  g <- get ;;
  match mode g with
  | Endless | Daily => modify (fun g => set_score (calculateEndlessScore g) g)
  | _ => ret tt
  end ;;
  emit UiUpdated.

(** [Level.generateLevel] called from the game: the constructor of each
    black hole reads the [Math.random] stream from where it stands. *)
Definition streamAt (env : Env) (g : GameState) : nat -> R :=
  fun i => mathRandom env (randomCalls g + i)%nat.

Definition generateLevel (env : Env) (levelNumber : Z) : Game Level.t :=
  fun g =>
    let r := Level.generate (streamAt env g) levelNumber (mkGen levelNumber 0) in
    (fst r, set_randomCalls (randomCalls g + mathPos (snd r))%nat g,
     [LevelGenerated levelNumber]).

(** [gameState.player = new Player(start.x, start.y, planets[0])]. *)
Definition createPlayer : Game unit :=
  modify (fun g =>
    let level := currentLevel g in
    set_player (Player.new (vx_ (Level.startPosition level))
                           (vy_ (Level.startPosition level))
                           (nth_error (Level.planets level) 0)) g) ;;
  emit PlayerCreated.

(** [startGame(mode, target)]. *)
Definition startGame (env : Env) (m : Mode) (target : option Z) : Game unit :=
  modify (set_mode m) ;;
  modify (set_gameStarted true) ;;
  modify (set_levelsCompleted 0) ;;
  modify (set_deaths 0) ;;
  modify (set_currentLevelNumber 1) ;;
  modify (set_startTime (now env)) ;;
  modify (set_currentTime 0) ;;
  match m with
  | Endless =>
      modify (set_lives (Finite 3)) ;;
      modify (set_score 0) ;;
      level <- generateLevel env 1 ;;
      modify (set_currentLevel level)
  | Speedrun =>
      modify (set_speedrunTarget (orDefault target 10)) ;;
      modify (set_lives Infinity) ;;
      level <- generateLevel env 1 ;;
      modify (set_currentLevel level)
  | Daily =>
      let dailySeed := dailyChallengeSeed env in
      modify (set_lives (Finite 3)) ;;
      modify (set_score 0) ;;
      level <- generateLevel env dailySeed ;;
      modify (set_currentLevel level) ;;
      modify (set_currentLevelNumber dailySeed)
  | Practice =>
      modify (set_lives Infinity) ;;
      level <- generateLevel env (orDefault target 1) ;;
      modify (set_currentLevel level) ;;
      modify (set_currentLevelNumber (orDefault target 1))
  end ;;
  createPlayer ;;
  updateUI ;;
  modify (set_gameStarted true).

Definition addTimePlayed (g : GameState) : GameState :=
  let s := stats g in
  set_stats (mkStats (totalDeaths s) (totalLevelsCompleted s)
               (totalTimePlayed s + currentTime g) (totalJumps s)
               (totalLandings s) (longestStreak s)) g.

(** [completeSpeedrun()]; the records table belongs to the leaderboard. *)
Definition completeSpeedrun : Game unit :=
  emit SpeedrunRecorded ;;
  modify addTimePlayed ;;
  emit StatsSaved ;;
  modify (set_gameStarted false) ;;
  emit CompletionScreen.

(** [handleLevelComplete()]. *)
Definition handleLevelComplete (env : Env) : Game unit :=
  emit LevelCompleted ;;
  modify (fun g => set_levelsCompleted (levelsCompleted g + 1) g) ;;
  modify (fun g =>
    let s := stats g in
    set_stats (mkStats (totalDeaths s) (totalLevelsCompleted s + 1)
                 (totalTimePlayed s) (totalJumps s) (totalLandings s)
                 (longestStreak s)) g) ;;
  g <- get ;;
  let nextLevel (seedOf : GameState -> Z) : Game unit :=
    modify (fun g => set_currentLevelNumber (currentLevelNumber g + 1) g) ;;
    g <- get ;;
    level <- generateLevel env (seedOf g) ;;
    modify (set_currentLevel level) in
  if match mode g with
     | Speedrun => (levelsCompleted g >=? speedrunTarget g)%Z
     | _ => false
     end
  then completeSpeedrun
  else
    match mode g with
    | Speedrun => nextLevel currentLevelNumber
    | Endless =>
        nextLevel currentLevelNumber ;;
        modify (fun g => set_score (calculateEndlessScore g) g) ;;
        g <- get ;;
        when (score g >? highScore g)%Z
          (modify (set_highScore (score g)) ;; emit HighScoreSaved)
    | Daily =>
        nextLevel (fun g => (dailyChallengeSeed env + levelsCompleted g)%Z) ;;
        modify (fun g => set_score (calculateEndlessScore g) g) ;;
        g <- get ;;
        when (score g >? dailyBestScore g)%Z
          (modify (set_dailyBestScore (score g)) ;; emit DailyScoreSaved)
    | Practice => nextLevel currentLevelNumber
    end ;;
    createPlayer ;;
    updateUI.

(** [gameState.lives--]. *)
Definition decrLives (l : Lives) : Lives :=
  match l with Finite n => Finite (n - 1) | Infinity => Infinity end.

Definition livesExhausted (l : Lives) : bool :=
  match l with Finite n => (n <=? 0)%Z | Infinity => false end.

(** [handlePlayerDeath()]; returns [false] when the game is over. *)
Definition handlePlayerDeath : Game bool :=
  emit PlayerDied ;;
  modify (fun g => set_deaths (deaths g + 1) g) ;;
  modify (fun g =>
    let s := stats g in
    set_stats (mkStats (totalDeaths s + 1) (totalLevelsCompleted s)
                 (totalTimePlayed s) (totalJumps s) (totalLandings s)
                 (longestStreak s)) g) ;;
  emit StatsSaved ;;
  g <- get ;;
  match mode g with
  | Endless | Daily => modify (fun g => set_lives (decrLives (lives g)) g)
  | _ => ret tt
  end ;;
  g <- get ;;
  if match mode g with
     | Endless | Daily => livesExhausted (lives g)
     | _ => false
     end
  then
    modify (set_gameStarted false) ;;
    when (levelsCompleted g >? longestStreak (stats g))%Z
      (modify (fun g =>
         let s := stats g in
         set_stats (mkStats (totalDeaths s) (totalLevelsCompleted s)
                      (totalTimePlayed s) (totalJumps s) (totalLandings s)
                      (levelsCompleted g)) g) ;;
       emit StatsSaved) ;;
    modify addTimePlayed ;;
    emit StatsSaved ;;
    emit CompletionScreen ;;
    ret false
  else
    createPlayer ;;
    updateUI ;;
    ret true.

(** [checkBlackHoleCollision(player, blackHoles)]. *)
Definition checkBlackHoleCollision (player : Player.t)
  (blackHoles : list BlackHole.t) : bool :=
  existsb (fun blackHole =>
             let combinedRadius := BlackHole.radius blackHole + Player.radius player in
             let dx := Player.x player - BlackHole.x blackHole in
             let dy := Player.y player - BlackHole.y blackHole in
             let distSquared := dx * dx + dy * dy in
             let radiusSquared := combinedRadius * combinedRadius in
             if distSquared <? radiusSquared then true
             else lineSegmentIntersectsCircle
                    (Player.prevX player) (Player.prevY player)
                    (Player.x player) (Player.y player)
                    (BlackHole.x blackHole) (BlackHole.y blackHole)
                    combinedRadius)
          blackHoles.

(** [updateMobileInput()]. *)
Definition updateMobileInput (m : MobileInput.t) : MobileInput.t :=
  let put l r ts :=
    MobileInput.mk (MobileInput.active m) (MobileInput.currentX m)
      (MobileInput.centerX m) (MobileInput.deadzone m)
      (MobileInput.maxDistance m) l r ts in
  if negb (MobileInput.active m) then put false false 0
  else
    let deltaX := MobileInput.currentX m - MobileInput.centerX m in
    let distance := Rabs deltaX in
    if distance <? MobileInput.deadzone m then put false false 0
    else
      let clampedDistance := Rmin distance (MobileInput.maxDistance m) in
      let goesRight := deltaX >? 0 in
      put (negb goesRight) goesRight (clampedDistance / MobileInput.maxDistance m).

(** The black holes of the level are animated in place. *)
Fixpoint updateBlackHoles (mr : nat -> R) (pos : nat) (dt : R)
  (bhs : list BlackHole.t) : list BlackHole.t * nat :=
  match bhs with
  | [] => ([], pos)
  | bh :: rest =>
      let '(bh', pos') := BlackHole.update mr pos dt bh in
      let '(rest', pos'') := updateBlackHoles mr pos' dt rest in
      (bh' :: rest', pos'')
  end.

Definition animateBlackHoles (env : Env) (dt : R) : Game unit :=
  modify (fun g =>
    let level := currentLevel g in
    let r :=
      updateBlackHoles (mathRandom env) (randomCalls g) dt (Level.blackHoles level) in
    set_randomCalls (snd r)
      (set_currentLevel (Level.setBlackHoles (fst r) level) g)).

Definition addLanding (g : GameState) : GameState :=
  let s := stats g in
  set_stats (mkStats (totalDeaths s) (totalLevelsCompleted s)
               (totalTimePlayed s) (totalJumps s) (totalLandings s + 1)
               (longestStreak s)) g.

(** The call [gameState.player.updatePhysics(planets, keys, deltaTime)]. *)
Definition playerPhysics (combinedKeys : Keys) (deltaTime : R) : Game unit :=
  g <- get ;;
  let level := currentLevel g in
  let r :=
    Player.updatePhysics (gameSpeed g) (gravityMultiplier g) (mobileInput g)
      (Level.goal level) (Level.blackHoles level) (Level.planets level)
      combinedKeys deltaTime (player g) in
  emit PlayerPhysics ;;
  modify (set_player (fst r)) ;;
  when (snd r) (modify addLanding ;; emit ParticleBurst).

(** The upkeep of the effects, [particlePool.update(particleDt)] then
    [updateScreenShake(particleDt)], which [update] runs in a step of the
    game and also while the game is paused or not started. *)
Definition updateEffects (particleDt : R) : Game unit :=
  emit (ParticlesUpdated particleDt) ;;
  emit (ScreenShakeUpdated particleDt).

(** [update(deltaTime)], the simulation step, in its two halves: the
    kinetics (clock, previous position, inputs, [updatePhysics], animation
    of the black holes, upkeep of the effects), then the evaluation of the
    outcome.  A game that is paused or not started gets the upkeep of the
    effects only. *)
Definition advance (env : Env) (deltaTime : R) : Game unit :=
  g <- get ;;
  modify (set_currentTime (now env - startTime g)) ;;
  emit TimerDisplay ;;
  modify (fun g =>
    set_player (Player.setPrev (Player.x (player g)) (Player.y (player g))
                               (player g)) g) ;;
  modify (fun g => set_mobileInput (updateMobileInput (mobileInput g)) g) ;;
  g <- get ;;
  let combinedKeys :=
    mkKeys (left (keys g) || MobileInput.left (mobileInput g))
           (right (keys g) || MobileInput.right (mobileInput g)) in
  playerPhysics combinedKeys deltaTime ;;
  animateBlackHoles env (deltaTime * 0.001 * gameSpeed g) ;;
  updateEffects (deltaTime * 0.001 * gameSpeed g).

Definition evaluate (env : Env) : Game unit :=
  g <- get ;;
  let destroyed :=
    checkBlackHoleCollision (player g) (Level.blackHoles (currentLevel g)) in
  emit (BlackHoleCheck destroyed) ;;
  if destroyed then
    emit ParticleBurst ;;
    emit ScreenShake ;;
    _ <- handlePlayerDeath ;;
    ret tt
  else
    let reachedGoal := Level.checkGoal (currentLevel g) (player g) in
    emit (GoalCheck reachedGoal) ;;
    when reachedGoal
      (emit ParticleBurst ;; emit ScreenShake ;; handleLevelComplete env) ;;
    g <- get ;;
    match mode g with
    | Endless | Daily => updateUI
    | _ => ret tt
    end.

Definition update (env : Env) (deltaTime : R) : Game unit :=
  g <- get ;;
  if negb (gameStarted g) || paused g then
    updateEffects (deltaTime * 0.001 * gameSpeed g)
  else advance env deltaTime ;; evaluate env.

(** [update(deltaTime)] of script.js: the keys go to [updatePhysics] as
    they are, there is no joystick, and a game that is paused or not started
    returns at once.  The evaluation of the outcome is the same text. *)
Module LegacyGame.
Definition playerPhysics (deltaTime : R) : Game unit :=
  g <- get ;;
  let level := currentLevel g in
  let r :=
    Legacy.updatePhysics (gameSpeed g) (gravityMultiplier g)
      (Level.goal level) (Level.blackHoles level) (Level.planets level)
      (keys g) deltaTime (player g) in
  emit PlayerPhysics ;;
  modify (set_player (fst r)) ;;
  when (snd r) (modify addLanding ;; emit ParticleBurst).

Definition advance (env : Env) (deltaTime : R) : Game unit :=
  g <- get ;;
  modify (set_currentTime (now env - startTime g)) ;;
  emit TimerDisplay ;;
  modify (fun g =>
    set_player (Player.setPrev (Player.x (player g)) (Player.y (player g))
                               (player g)) g) ;;
  playerPhysics deltaTime ;;
  animateBlackHoles env (deltaTime * 0.001 * gameSpeed g) ;;
  updateEffects (deltaTime * 0.001 * gameSpeed g).

Definition update (env : Env) (deltaTime : R) : Game unit :=
  g <- get ;;
  if negb (gameStarted g) || paused g then ret tt
  else advance env deltaTime ;; evaluate env.
End LegacyGame.

(** [restartLevel()] of the pause menu, and the [KeyR] branch of
    [handleInput], which does the same without touching the menus. *)
Definition regenerateCurrentLevel (env : Env) : Game unit :=
  g <- get ;;
  level <- generateLevel env (currentLevelNumber g) ;;
  modify (set_currentLevel level) ;;
  createPlayer ;;
  emit ParticlesCleared.

Definition restartLevel (env : Env) : Game unit :=
  emit MenusHidden ;;
  modify (set_paused false) ;;
  regenerateCurrentLevel env.

Inductive KeyCode : Set := ArrowLeft | ArrowRight | KeyR | Escape | OtherKey.

(** [handleInput(event)]. *)
Definition handleInput (env : Env) (code : KeyCode) (isKeyDown : bool) : Game unit :=
  g <- get ;;
  match code with
  | ArrowLeft => modify (fun g => set_keys (mkKeys isKeyDown (right (keys g))) g)
  | ArrowRight => modify (fun g => set_keys (mkKeys (left (keys g)) isKeyDown) g)
  | KeyR =>
      when (isKeyDown && gameStarted g && negb (paused g))
        (regenerateCurrentLevel env)
  | Escape =>
      when isKeyDown
        (if gameStarted g && negb (paused g) then
           modify (set_paused true) ;; emit MenusHidden ;; emit PauseMenuShown
         else if paused g then
           emit MenusHidden ;; modify (set_paused false)
         else ret tt)
  | OtherKey => ret tt
  end.

(** [handleMobileEnd(event)]: releasing the joystick jumps. *)
Definition handleMobileEnd : Game unit :=
  g <- get ;;
  if negb (MobileInput.active (mobileInput g)) then ret tt
  else
    let hasKeyboardInput := left (keys g) || right (keys g) in
    when (negb hasKeyboardInput && Player.onPlanet (player g)
          && negb (Player.hasJumped (player g)))
      (modify (set_player (Player.jump (player g))) ;;
       modify (fun g =>
         let s := stats g in
         set_stats (mkStats (totalDeaths s) (totalLevelsCompleted s)
                      (totalTimePlayed s) (totalJumps s + 1) (totalLandings s)
                      (longestStreak s)) g)) ;;
    modify (fun g =>
      let m := mobileInput g in
      set_mobileInput
        (MobileInput.mk false (MobileInput.currentX m) (MobileInput.centerX m)
           (MobileInput.deadzone m) (MobileInput.maxDistance m)
           (MobileInput.left m) (MobileInput.right m)
           (MobileInput.targetSpeed m)) g).

Close Scope game_scope.

(** The events of the core among the events of a trace: the kinetics, the
    two evaluations and the two outcomes of a step. *)
Definition isCore (e : Event) : bool :=
  match e with
  | PlayerPhysics | BlackHoleCheck _ | GoalCheck _ | PlayerDied | LevelCompleted =>
      true
  | _ => false
  end.

(** The constructions of a [Level] and of a [Player] among the events. *)
Definition isConstruction (e : Event) : bool :=
  match e with
  | LevelGenerated _ | PlayerCreated => true
  | _ => false
  end.

(** The physical content of a level: everything but the vortex particles and
    the rotation of its black holes. *)
Definition blackHoleBody (bh : BlackHole.t) : R * R * R * R :=
  (BlackHole.x bh, BlackHole.y bh, BlackHole.radius bh, BlackHole.gravityStrength bh).

Definition physical (l : Level.t)
  : list Planet.t * Vec * Vec * R * list (R * R * R * R) * Z * Archetype * Goal.t :=
  (Level.planets l, Level.startPosition l, Level.goalPosition l,
   Level.goalRadius l, map blackHoleBody (Level.blackHoles l), Level.seed l,
   Level.archetype l, Level.goal l).

(** The configuration of the tier of a level number. *)
Definition tierOf (levelNumber : Z) : Config :=
  fst (Level.tierConfig levelNumber (mkGen levelNumber 0)).

(** Spacing between planets: [k] times the minimum spacing of the tier. *)
Definition spaced (spacing : R) (a b : Planet.t) : Prop :=
  Planet.radius a + Planet.radius b + spacing
  <= distance (Planet.x a) (Planet.y a) (Planet.x b) (Planet.y b).

Definition pairwiseSpaced (spacing : R) (planets : list Planet.t) : Prop :=
  forall i j a b, i <> j ->
    nth_error planets i = Some a -> nth_error planets j = Some b ->
    spaced spacing a b.

(** The factor applied to [config.minSpacing] by the archetypes that place
    every planet by rejection sampling. *)
Definition spacingFactor (a : Archetype) : option R :=
  match a with
  | Simple | Standard | Undefined => Some 1
  | Giant => Some 1
  | Precision => Some 1.2
  | Maze => Some 0.7
  | Chaos => Some 0.8
  | Binary | Gauntlet | Void | Slingshot => None
  end.

(** The player that a transition creates: at the start position of the
    level, on its first planet, at rest. *)
Definition freshPlayer (level : Level.t) : Player.t :=
  Player.new (vx_ (Level.startPosition level)) (vy_ (Level.startPosition level))
             (nth_error (Level.planets level) 0).

(** Does a death leave lives? *)
Definition survives (g : GameState) : bool :=
  match mode g with
  | Endless | Daily => negb (livesExhausted (decrLives (lives g)))
  | _ => true
  end.

(** Does the completion of the current level end a speedrun? *)
Definition finishing (g : GameState) : bool :=
  match mode g with
  | Speedrun => (levelsCompleted g + 1 >=? speedrunTarget g)%Z
  | _ => false
  end.

(** The level number generated after the completion of the current level. *)
Definition nextSeed (env : Env) (g : GameState) : Z :=
  match mode g with
  | Daily => (dailyChallengeSeed env + (levelsCompleted g + 1))%Z
  | _ => (currentLevelNumber g + 1)%Z
  end.

(** Two generator computations that end in the same state with related
    results, from every state. *)
Definition genRel {A} (rel : A -> A -> Prop) (m1 m2 : Gen A) : Prop :=
  forall s, rel (fst (m1 s)) (fst (m2 s)) /\ snd (m1 s) = snd (m2 s).

Definition sameBodies (l1 l2 : list BlackHole.t) : Prop :=
  map blackHoleBody l1 = map blackHoleBody l2.

Definition samePhysics (l1 l2 : Level.t) : Prop := physical l1 = physical l2.

(** A state of play used as a concrete instance: an endless game on level
    1, just started, with three lives. *)
Definition exampleEnv : Env := mkEnv 1000 20261102 (fun _ => 0.5).

Definition exampleLevel : Level.t := Level.generateLevel (fun _ => 0.5) 1.

Definition exampleState : GameState :=
  mkGameState exampleLevel (freshPlayer exampleLevel) true (mkKeys false false)
    (MobileInput.mk false 0 0 10 50 false false 0) Endless 10 1 0 0 0
    (Finite 3) 0 0 0 0 1 4.2 false (mkStats 0 0 0 0 0 0) 0.

(* ================================================================== *)
(** * Invariants and further definitions *)

Definition inCanvas (x y : R) : Prop :=
  0 <= x <= CANVAS_WIDTH /\ 0 <= y <= CANVAS_HEIGHT.

(** ** Invariants of the level generator *)

(** The generator states reached from a non-negative level number. *)
Definition seedOk (s : GenState) : Prop := (0 <= randSeed s)%Z.

(** [P] holds of the result of the generator computation [m] started in
    such a state, and [m] ends in such a state. *)
Definition genPost {A} (m : Gen A) (P : A -> Prop) : Prop :=
  forall s, seedOk s -> P (fst (m s)) /\ seedOk (snd (m s)).

(** A planet of admissible size, attracting, with its centre on the
    canvas. *)
Definition planetOk (p : Planet.t) : Prop :=
  8 <= Planet.radius p <= 90 /\ 0 < Planet.gravityStrength p
  /\ inCanvas (Planet.x p) (Planet.y p).

(** The ranges within which the tiers choose their configuration. *)
Definition configOk (c : Config) : Prop :=
  (3 <= fst (planetCount c) <= snd (planetCount c))%Z
  /\ (snd (planetCount c) <= 9)%Z
  /\ 8 <= fst (sizeRange c) <= 25
  /\ 45 <= snd (sizeRange c) <= 90
  /\ 0 <= minSpacing c <= 220
  /\ (0 <= blackHoleCount c <= 3)%Z
  /\ (1 <= goalHops c <= 5)%Z.

(** The archetypes among which each tier draws. *)
Definition tierArchetypes (levelNumber : Z) : list Archetype :=
  if (levelNumber <=? 5)%Z then [Simple]
  else if (levelNumber <=? 15)%Z then [Simple; Binary]
  else if (levelNumber <=? 30)%Z then [Simple; Binary; Gauntlet; Slingshot]
  else if (levelNumber <=? 50)%Z then [Binary; Gauntlet; Slingshot; Void; Maze]
  else if (levelNumber <=? 75)%Z then [Gauntlet; Void; Maze; Giant; Precision]
  else [Void; Maze; Giant; Precision; Chaos].

(** Every two elements of a list, at different places, are related. *)
Definition pairwise {A} (rel : A -> A -> Prop) (l : list A) : Prop :=
  forall i j a b, i <> j ->
    nth_error l i = Some a -> nth_error l j = Some b -> rel a b.

(** A black hole of admissible size and position, clear of the planets, of
    the goal at [(goalX, goalY)] and of the start position. *)
Definition holeOk (planets : list Planet.t) (goalX goalY : R) (start : Vec)
  (bh : BlackHole.t) : Prop :=
  8 <= BlackHole.radius bh <= 11 /\ BlackHole.gravityStrength bh = 15
  /\ 50 <= BlackHole.x bh <= CANVAS_WIDTH - 50
  /\ 50 <= BlackHole.y bh <= CANVAS_HEIGHT - 50
  /\ (forall planet, In planet planets ->
        Planet.radius planet + 80
        <= distance (BlackHole.x bh) (BlackHole.y bh)
                    (Planet.x planet) (Planet.y planet))
  /\ 100 <= distance (BlackHole.x bh) (BlackHole.y bh) goalX goalY
  /\ 120 <= distance (BlackHole.x bh) (BlackHole.y bh) (vx_ start) (vy_ start).

Definition holesApart (a b : BlackHole.t) : Prop :=
  150 <= distance (BlackHole.x a) (BlackHole.y a) (BlackHole.x b) (BlackHole.y b).

(** A well-formed level with at most [maxHoles] black holes. *)
Definition levelOk (maxHoles : Z) (l : Level.t) : Prop :=
  Forall planetOk (Level.planets l)
  /\ (1 <= length (Level.planets l) <= 9)%nat
  /\ (exists first, nth_error (Level.planets l) 0 = Some first
        /\ distance (vx_ (Level.startPosition l)) (vy_ (Level.startPosition l))
                    (Planet.x first) (Planet.y first)
           = Planet.radius first + 15)
  /\ Level.goalRadius l = 20
  /\ Level.goal l
     = Goal.mk (vx_ (Level.goalPosition l)) (vy_ (Level.goalPosition l)) 20 0.56
  /\ 50 <= vx_ (Level.goalPosition l) <= CANVAS_WIDTH - 50
  /\ 50 <= vy_ (Level.goalPosition l) <= CANVAS_HEIGHT - 50
  /\ (Z.of_nat (length (Level.blackHoles l)) <= maxHoles)%Z
  /\ Forall (holeOk (Level.planets l) (vx_ (Level.goalPosition l))
                    (vy_ (Level.goalPosition l)) (Level.startPosition l))
            (Level.blackHoles l)
  /\ pairwise holesApart (Level.blackHoles l).

(** A planet of the tutorial tier: radius in the tier's size range, the
    whole disc on the canvas with the inset of the simple archetype. *)
Definition tutorialPlanet (p : Planet.t) : Prop :=
  25 <= Planet.radius p <= 45
  /\ Planet.radius p + 20 <= Planet.x p <= CANVAS_WIDTH - Planet.radius p - 20
  /\ Planet.radius p + 20 <= Planet.y p <= CANVAS_HEIGHT - Planet.radius p - 20.

(** ** A step of the game *)

(** The player that the kinetics of a step hand to the two tests, and
    whether it landed: the result of [updatePhysics] on the player whose
    previous position has been set to its position, with the joystick
    refreshed and the keys combined (modular files), or with the keys as
    they are (script.js). *)
Definition movedPlayer (deltaTime : R) (g : GameState) : Player.t * bool :=
  let level := currentLevel g in
  let mobile := updateMobileInput (mobileInput g) in
  let combinedKeys :=
    mkKeys (left (keys g) || MobileInput.left mobile)
           (right (keys g) || MobileInput.right mobile) in
  Player.updatePhysics (gameSpeed g) (gravityMultiplier g) mobile
    (Level.goal level) (Level.blackHoles level) (Level.planets level)
    combinedKeys deltaTime
    (Player.setPrev (Player.x (player g)) (Player.y (player g)) (player g)).

Definition legacyMovedPlayer (deltaTime : R) (g : GameState) : Player.t * bool :=
  let level := currentLevel g in
  Legacy.updatePhysics (gameSpeed g) (gravityMultiplier g)
    (Level.goal level) (Level.blackHoles level) (Level.planets level)
    (keys g) deltaTime
    (Player.setPrev (Player.x (player g)) (Player.y (player g)) (player g)).

(** The order of a step that starts in [g], whose kinetics are to give the
    player [moved], and that returns [r]; [g1] is the state between the
    kinetics and the two tests.  The player of [g1] is [moved] and the level
    is physically the level of [g]; the black-hole test is evaluated on
    them, the goal test only when the first fails, and a step that finds
    the player in a black hole ends in the state that [handlePlayerDeath]
    makes of [g1]. *)
Definition evaluatedInOrder (moved : Player.t) (g g1 : GameState)
  (r : unit * GameState * list Event) : Prop :=
  let level := currentLevel g in
  let destroyed := checkBlackHoleCollision moved (Level.blackHoles level) in
  let reachedGoal := Level.checkGoal level moved in
  (player g1 = moved
   /\ physical (currentLevel g1) = physical level
   /\ checkBlackHoleCollision (player g1) (Level.blackHoles (currentLevel g1))
      = destroyed
   /\ Level.checkGoal (currentLevel g1) (player g1) = reachedGoal)
  /\ filter isCore (traceOf r)
     = PlayerPhysics :: BlackHoleCheck destroyed
       :: (if destroyed then [PlayerDied]
           else GoalCheck reachedGoal
                :: (if reachedGoal then [LevelCompleted] else []))
  /\ (destroyed = true ->
      stateOf r = stateOf (handlePlayerDeath g1)
      /\ deaths (stateOf r) = (deaths g + 1)%Z
      /\ levelsCompleted (stateOf r) = levelsCompleted g)
  /\ (destroyed = false ->
      deaths (stateOf r) = deaths g
      /\ levelsCompleted (stateOf r)
         = (levelsCompleted g + (if reachedGoal then 1 else 0))%Z)
  /\ ~ (In PlayerDied (traceOf r) /\ In LevelCompleted (traceOf r)).

(** A player in flight at the centre of a black hole that sits on the goal:
    the step finds it in the hole and in the goal. *)
Definition holeOnGoalLevel : Level.t :=
  Level.setBlackHoles [BlackHole.new (fun _ => 0.5) 0 400 300 10]
    (Level.new [] (mkVec 400 300) (mkVec 400 300)).

Definition holeOnGoalState : GameState :=
  mkGameState holeOnGoalLevel (Player.new 400 300 None) true
    (mkKeys false false) (MobileInput.mk false 0 0 10 50 false false 0)
    Endless 10 1 0 0 0 (Finite 3) 0 0 0 0 1 4.2 false (mkStats 0 0 0 0 0 0) 0.

(** The position test of the landing loop: the player touches the planet
    where it stands. *)
Definition touches (p : Player.t) (planet : Planet.t) : bool :=
  let landingDistance := Planet.radius planet + Player.radius p in
  let dx := Player.x p - Planet.x planet in
  let dy := Player.y p - Planet.y planet in
  dx * dx + dy * dy <=? landingDistance * landingDistance.

(** A player in flight that touches the only planet of its level. *)
Definition touchingState : GameState :=
  mkGameState
    (Level.new [Planet.mk 35 400 300 1] (mkVec 400 257) (mkVec 600 300))
    (Player.new 440 300 None) true
    (mkKeys false false) (MobileInput.mk false 0 0 10 50 false false 0)
    Endless 10 1 0 0 0 (Finite 3) 0 0 0 0 1 4.2 false (mkStats 0 0 0 0 0 0) 0.

(** ** Settings, daily seed *)




(** [getDailyChallengeSeed()], on the date that [new Date()] returns:
    [getFullYear()], [getMonth()] (from 0) and [getDate()]. *)
Definition getDailyChallengeSeed (fullYear monthIndex date : Z) : Z :=
  let year := fullYear in
  let month := (monthIndex + 1)%Z in
  let day := date in
  (year * 10000 + month * 100 + day)%Z.

(** The level on screen is the level of the current level number, and in
    the daily mode the level number follows the number of levels
    completed. *)
Definition inSync (env : Env) (g : GameState) : Prop :=
  physical (currentLevel g)
  = physical (Level.generateLevel (mathRandom env) (currentLevelNumber g))
  /\ (mode g = Daily ->
      currentLevelNumber g = (dailyChallengeSeed env + levelsCompleted g)%Z).

(* ================================================================== *)
(** * Properties *)

(* ================================================================== *)
(** * Reflection of the comparisons *)

Lemma ltb_spec a b : reflect (a < b) (a <? b).
Proof. unfold Js.ltb; destruct (Rlt_dec a b); constructor; assumption. Qed.

Lemma leb_spec a b : reflect (a <= b) (a <=? b).
Proof. unfold Js.leb; destruct (Rle_dec a b); constructor; assumption. Qed.

Lemma gtb_spec a b : reflect (b < a) (a >? b).
Proof. unfold Js.gtb; apply ltb_spec. Qed.

Lemma geb_spec a b : reflect (b <= a) (a >=? b).
Proof. unfold Js.geb; apply leb_spec. Qed.

Lemma eqb_spec a b : reflect (a = b) (a =? b).
Proof. unfold Js.eqb; destruct (Req_dec_T a b); constructor; assumption. Qed.

(* ================================================================== *)
(** * The swept test *)

Section Swept.

Variables x1 y1 x2 y2 cx cy radius : R.

Let dx := x2 - x1.
Let dy := y2 - y1.
Let a := dx * dx + dy * dy.
Let b := 2 * ((x1 - cx) * dx + (y1 - cy) * dy).
Let c := ((x1 - cx) * (x1 - cx) + (y1 - cy) * (y1 - cy)) - radius * radius.

Lemma gapAt_quadratic t : gapAt x1 y1 x2 y2 cx cy radius t = a * t * t + b * t + c.
Proof. unfold gapAt, a, b, c, dx, dy; ring. Qed.

Lemma length_zero_iff : a = 0 <-> (x2 = x1 /\ y2 = y1).
Proof.
  unfold a, dx, dy; split.
  - intro H.
    assert (Hx : 0 <= (x2 - x1) * (x2 - x1)) by apply Rle_0_sqr.
    assert (Hy : 0 <= (y2 - y1) * (y2 - y1)) by apply Rle_0_sqr.
    assert (Hx0 : (x2 - x1) * (x2 - x1) = 0) by lra.
    assert (Hy0 : (y2 - y1) * (y2 - y1) = 0) by lra.
    apply Rmult_integral in Hx0, Hy0. lra.
  - intros [-> ->]; ring.
Qed.

Lemma gapAt_factor t :
  0 < a -> 0 <= b * b - 4 * a * c ->
  gapAt x1 y1 x2 y2 cx cy radius t =
  a * (t - (- b - sqrt (b * b - 4 * a * c)) / (2 * a))
    * (t - (- b + sqrt (b * b - 4 * a * c)) / (2 * a)).
Proof.
  intros Ha Hd. rewrite gapAt_quadratic.
  pose proof (sqrt_sqrt _ Hd) as Hs.
  set (s := sqrt (b * b - 4 * a * c)) in *.
  assert (Hc : c = (b * b - s * s) / (4 * a)) by (rewrite Hs; field; lra).
  rewrite Hc at 1. field; lra.
Qed.

Lemma swept_unfold :
  a <> 0 ->
  lineSegmentIntersectsCircle x1 y1 x2 y2 cx cy radius =
  if b * b - 4 * a * c <? 0 then false
  else
    let t1 := (- b - sqrt (b * b - 4 * a * c)) / (2 * a) in
    let t2 := (- b + sqrt (b * b - 4 * a * c)) / (2 * a) in
    ((t1 >=? 0) && (t1 <=? 1)) || ((t2 >=? 0) && (t2 <=? 1))
    || ((t1 <? 0) && (t2 >? 1)).
Proof.
  intro Ha. unfold lineSegmentIntersectsCircle.
  fold dx dy. fold a. destruct (eqb_spec a 0); [contradiction|].
  fold b. fold c. reflexivity.
Qed.

Lemma swept_degenerate :
  x2 = x1 -> y2 = y1 ->
  lineSegmentIntersectsCircle x1 y1 x2 y2 cx cy radius =
  ((x1 - cx) * (x1 - cx) + (y1 - cy) * (y1 - cy) <=? radius * radius).
Proof.
  intros Hx Hy. unfold lineSegmentIntersectsCircle.
  fold dx dy. fold a.
  destruct (eqb_spec a 0) as [_|Hn]; [reflexivity|].
  exfalso; apply Hn, length_zero_iff; auto.
Qed.

(** The swept test answers [true] exactly when the gap is non-positive
    somewhere on the segment. *)
Lemma swept_iff_gap :
  lineSegmentIntersectsCircle x1 y1 x2 y2 cx cy radius = true <->
  exists t, 0 <= t <= 1 /\ gapAt x1 y1 x2 y2 cx cy radius t <= 0.
Proof.
  destruct (Req_dec_T a 0) as [Hz|Hnz].
  - (* no movement *)
    apply length_zero_iff in Hz as [Hx Hy].
    rewrite (swept_degenerate Hx Hy).
    assert (Hg : forall t, gapAt x1 y1 x2 y2 cx cy radius t =
      (x1 - cx) * (x1 - cx) + (y1 - cy) * (y1 - cy) - radius * radius)
      by (intro t; unfold gapAt; rewrite Hx, Hy; ring).
    split.
    + intro H. exists 0. rewrite Hg. split; [lra|].
      destruct (leb_spec ((x1 - cx) * (x1 - cx) + (y1 - cy) * (y1 - cy))
                         (radius * radius)); [lra|discriminate].
    + intros [t [_ Ht]]. rewrite Hg in Ht.
      destruct (leb_spec ((x1 - cx) * (x1 - cx) + (y1 - cy) * (y1 - cy))
                         (radius * radius)); [reflexivity|lra].
  - assert (Ha : 0 < a).
    { assert (0 <= a).
      { unfold a. pose proof (Rle_0_sqr dx). pose proof (Rle_0_sqr dy).
        unfold Rsqr in *. lra. }
      lra. }
    rewrite (swept_unfold Hnz).
    set (disc := b * b - 4 * a * c).
    destruct (ltb_spec disc 0) as [Hneg|Hpos].
    + (* no real root: the gap is positive everywhere *)
      split; [discriminate|].
      intros [t [_ Ht]]. rewrite gapAt_quadratic in Ht.
      exfalso. unfold disc in Hneg.
      assert (0 <= (2 * a * t + b) * (2 * a * t + b)) by apply Rle_0_sqr.
      nra.
    + apply Rnot_lt_le in Hpos.
      pose proof (fun t => gapAt_factor t Ha Hpos) as Hf.
      fold disc in Hf.
      pose proof (sqrt_pos disc) as Hs.
      set (t1 := (- b - sqrt disc) / (2 * a)) in *.
      set (t2 := (- b + sqrt disc) / (2 * a)) in *.
      assert (H12 : t1 <= t2).
      { unfold t1, t2. apply Rmult_le_compat_r.
        - left. apply Rinv_0_lt_compat. lra.
        - lra. }
      cbv zeta. split.
      * intro H.
        destruct (geb_spec t1 0), (leb_spec t1 1), (geb_spec t2 0),
          (leb_spec t2 1), (ltb_spec t1 0), (gtb_spec t2 1);
          simpl in H; try discriminate;
          try (exists t1; split; [lra|]; rewrite Hf; nra);
          try (exists t2; split; [lra|]; rewrite Hf; nra);
          try (exists 0; split; [lra|]; rewrite Hf;
               assert (0 <= a * (0 - t1)) by nra; nra).
      * intros [t [Ht Hg]]. rewrite Hf in Hg.
        assert (Hin : t1 <= t <= t2).
        { split.
          - destruct (Rle_lt_dec t1 t) as [|Hlt]; [assumption|].
            exfalso. assert (0 < (t - t1) * (t - t2)) by nra. nra.
          - destruct (Rle_lt_dec t t2) as [|Hlt]; [assumption|].
            exfalso. assert (0 < (t - t1) * (t - t2)) by nra. nra. }
        destruct (geb_spec t1 0), (leb_spec t1 1), (geb_spec t2 0),
          (leb_spec t2 1), (ltb_spec t1 0), (gtb_spec t2 1);
          simpl; try reflexivity; exfalso; lra.
Qed.

End Swept.

Lemma sqrt_le_radius d2 radius :
  0 <= d2 -> 0 <= radius -> (sqrt d2 <= radius <-> d2 - radius * radius <= 0).
Proof.
  intros Hd Hr. split.
  - intro H.
    assert (sqrt d2 * sqrt d2 <= radius * radius)
      by (apply Rmult_le_compat; auto using sqrt_pos).
    rewrite sqrt_sqrt in *; lra.
  - intro H. rewrite <- (sqrt_square radius Hr).
    apply sqrt_le_1_alt. lra.
Qed.

Lemma distance_gap x1 y1 x2 y2 cx cy radius t :
  0 <= radius ->
  (distance (fst (segmentPoint x1 y1 x2 y2 t)) (snd (segmentPoint x1 y1 x2 y2 t))
            cx cy <= radius
   <-> gapAt x1 y1 x2 y2 cx cy radius t <= 0).
Proof.
  intro Hr. unfold distance, segmentPoint, gapAt; simpl.
  apply sqrt_le_radius; [|assumption].
  pose proof (Rle_0_sqr (x1 + t * (x2 - x1) - cx)).
  pose proof (Rle_0_sqr (y1 + t * (y2 - y1) - cy)).
  unfold Rsqr in *; lra.
Qed.

Lemma leb_true a b : a <= b -> (a <=? b) = true.
Proof. intro H. destruct (leb_spec a b); [reflexivity|contradiction]. Qed.

Lemma ltb_true a b : a < b -> (a <? b) = true.
Proof. intro H. destruct (ltb_spec a b); [reflexivity|contradiction]. Qed.

Lemma ltb_false a b : b <= a -> (a <? b) = false.
Proof. intro H. destruct (ltb_spec a b); [lra|reflexivity]. Qed.

(* ------------------------------------------------------------------ *)
(** ** The swept test on doubles *)

Module Binary64Facts.
Import PrimFloat SpecFloat FloatOps FloatAxioms.

(** In doubles, [x - x] is [+0] for every number [x]. *)
Lemma double_sub_diag (x : float) : Binary64.finite x = true -> (x - x)%float = 0%float.
Proof.
  intro H. apply Prim2SF_inj. rewrite sub_spec.
  unfold Binary64.finite in H.
  destruct (Prim2SF x) as [s|s| |s m e] eqn:E; try discriminate.
  - destruct s; reflexivity.
  - unfold SF64sub, SFsub. rewrite Z.min_id.
    unfold shl_align. rewrite Z.sub_diag. cbn [fst].
    reflexivity.
Qed.

(** Zero movement in doubles: the swept test is the point test. *)
Lemma double_swept_degenerate (x1 y1 cx cy radius : float) :
  Binary64.finite x1 = true -> Binary64.finite y1 = true ->
  Binary64.lineSegmentIntersectsCircle x1 y1 x1 y1 cx cy radius
  = Binary64.pointInCircle x1 y1 cx cy radius.
Proof.
  intros Hx Hy. unfold Binary64.lineSegmentIntersectsCircle.
  rewrite (double_sub_diag x1 Hx), (double_sub_diag y1 Hy). reflexivity.
Qed.

Lemma double_shouldLand_at_rest (planetX planetY planetRadius radius x y : float) :
  Binary64.finite x = true -> Binary64.finite y = true ->
  Binary64.shouldLand planetX planetY planetRadius radius x y x y
  = Binary64.pointInCircle x y planetX planetY (planetRadius + radius)%float.
Proof.
  intros Hx Hy. unfold Binary64.shouldLand.
  rewrite (double_swept_degenerate x y _ _ _ Hx Hy). unfold Binary64.pointInCircle.
  destruct (_ <=? _)%float; reflexivity.
Qed.

Lemma toR_finite (f : float) (s : bool) (m : positive) (e : Z) :
  Prim2SF f = S754_finite s m e ->
  Binary64.toR f
  = Some (IZR (cond_Zopp s (Zpos m)) * IZR (2 ^ Z.max 0 e)
          / IZR (2 ^ Z.max 0 (- e))).
Proof. intro H. unfold Binary64.toR. rewrite H. reflexivity. Qed.

Ltac toR_value m e :=
  rewrite (toR_finite _ false m e) by (vm_compute; reflexivity);
  cbn [cond_Zopp]; f_equal;
  match goal with
  | |- context [IZR (2 ^ Z.max 0 ?a)] =>
      let v := eval vm_compute in (2 ^ Z.max 0 a)%Z in
      change (2 ^ Z.max 0 a)%Z with v
  end;
  match goal with
  | |- context [IZR (2 ^ Z.max 0 ?a)] =>
      let v := eval vm_compute in (2 ^ Z.max 0 a)%Z in
      change (2 ^ Z.max 0 a)%Z with v
  end;
  lra.

Lemma grazing_values :
  Binary64.toR Binary64.grazingX1 = Some (2154628291596789 / 4398046511104)
  /\ Binary64.toR Binary64.grazingY1 = Some (877330392409137 / 8796093022208)
  /\ Binary64.toR Binary64.grazingX2 = Some (7110722762439691 / 17592186044416)
  /\ Binary64.toR Binary64.grazingY2 = Some (4933649380365251 / 17592186044416)
  /\ Binary64.toR Binary64.goalX = Some 400
  /\ Binary64.toR Binary64.goalY = Some 300
  /\ Binary64.toR Binary64.goalRadius = Some 20.
Proof.
  repeat split.
  - toR_value 8618513166387156%positive (-44)%Z.
  - toR_value 7018643139273096%positive (-46)%Z.
  - toR_value 7110722762439691%positive (-44)%Z.
  - toR_value 4933649380365251%positive (-44)%Z.
  - toR_value 7036874417766400%positive (-44)%Z.
  - toR_value 5277655813324800%positive (-44)%Z.
  - toR_value 5629499534213120%positive (-48)%Z.
Qed.

Lemma grazing_answers :
  Binary64.lineSegmentIntersectsCircle Binary64.grazingX1 Binary64.grazingY1
    Binary64.grazingX2 Binary64.grazingY2
    Binary64.goalX Binary64.goalY Binary64.goalRadius = false
  /\ Binary64.pointInCircle Binary64.grazingX2 Binary64.grazingY2
    Binary64.goalX Binary64.goalY Binary64.goalRadius
     = true
  /\ Binary64.checkGoal Binary64.goalX Binary64.goalY Binary64.goalRadius
       Binary64.grazingX1 Binary64.grazingY1
       Binary64.grazingX2 Binary64.grazingY2 = true.
Proof. repeat split; vm_compute; reflexivity. Qed.

End Binary64Facts.

(** The end point of the grazing segment, taken exactly, is inside the
    circle. *)
Lemma grazing_end_point_inside :
  let X1 := 2154628291596789 / 4398046511104 in
  let Y1 := 877330392409137 / 8796093022208 in
  let X2 := 7110722762439691 / 17592186044416 in
  let Y2 := 4933649380365251 / 17592186044416 in
  exists t, 0 <= t <= 1 /\
    distance (fst (segmentPoint X1 Y1 X2 Y2 t))
             (snd (segmentPoint X1 Y1 X2 Y2 t)) 400 300 <= 20.
Proof.
  intros X1 Y1 X2 Y2. exists 1. split; [lra|].
  apply distance_gap; [lra|]. unfold gapAt, X1, Y1, X2, Y2. lra.
Qed.

(** C2, as stated, fails, in two ways.  On doubles the function answers
    [false] for the grazing segment, whose end point lies within 20 of the
    centre: the rounded root [t1] is 1.0000000000000013.  And with a
    negative radius the function compares with [radius * radius]: a point
    on the centre is found within radius -1, where no point is. *)
Lemma swept_test_differs_from_geometry :
  (Binary64.lineSegmentIntersectsCircle Binary64.grazingX1 Binary64.grazingY1
     Binary64.grazingX2 Binary64.grazingY2
    Binary64.goalX Binary64.goalY Binary64.goalRadius = false
   /\ (Binary64.toR Binary64.grazingX1 = Some (2154628291596789 / 4398046511104)
       /\ Binary64.toR Binary64.grazingY1 = Some (877330392409137 / 8796093022208)
       /\ Binary64.toR Binary64.grazingX2 = Some (7110722762439691 / 17592186044416)
       /\ Binary64.toR Binary64.grazingY2 = Some (4933649380365251 / 17592186044416)
       /\ Binary64.toR Binary64.goalX = Some 400
       /\ Binary64.toR Binary64.goalY = Some 300
       /\ Binary64.toR Binary64.goalRadius = Some 20)
   /\ exists t, 0 <= t <= 1 /\
         distance
           (fst (segmentPoint (2154628291596789 / 4398046511104)
                              (877330392409137 / 8796093022208)
                              (7110722762439691 / 17592186044416)
                              (4933649380365251 / 17592186044416) t))
           (snd (segmentPoint (2154628291596789 / 4398046511104)
                              (877330392409137 / 8796093022208)
                              (7110722762439691 / 17592186044416)
                              (4933649380365251 / 17592186044416) t))
           400 300 <= 20)
  /\ (lineSegmentIntersectsCircle 0 0 0 0 0 0 (-1) = true
      /\ ~ (exists t, 0 <= t <= 1 /\
              distance (fst (segmentPoint 0 0 0 0 t))
                       (snd (segmentPoint 0 0 0 0 t)) 0 0 <= -1)).
Proof.
  split.
  - split; [exact (proj1 Binary64Facts.grazing_answers)|].
    split; [exact Binary64Facts.grazing_values|].
    exact grazing_end_point_inside.
  - split.
    + rewrite swept_degenerate by reflexivity. apply leb_true. lra.
    + intros [t [_ H]]. unfold distance in H.
      pose proof (sqrt_pos ((fst (segmentPoint 0 0 0 0 t) - 0)
                            * (fst (segmentPoint 0 0 0 0 t) - 0)
                            + (snd (segmentPoint 0 0 0 0 t) - 0)
                              * (snd (segmentPoint 0 0 0 0 t) - 0))).
      lra.
Qed.

(** C2 (amended).  In the exact reading and for a radius that is not
    negative, [lineSegmentIntersectsCircle] answers [true] exactly when some
    point of the segment from (x1,y1) to (x2,y2) lies within distance
    [radius] of the centre.  When the two end points coincide it is the
    point-in-circle test of that point, in the exact reading and, for end
    points that are numbers, on doubles. *)
Theorem lineSegmentIntersectsCircle_correct :
  (forall x1 y1 x2 y2 cx cy radius : R,
     0 <= radius ->
     (lineSegmentIntersectsCircle x1 y1 x2 y2 cx cy radius = true <->
      exists t, 0 <= t <= 1 /\
        distance (fst (segmentPoint x1 y1 x2 y2 t))
                 (snd (segmentPoint x1 y1 x2 y2 t)) cx cy <= radius))
  /\ (forall x1 y1 x2 y2 cx cy radius : R,
        x2 = x1 -> y2 = y1 ->
        lineSegmentIntersectsCircle x1 y1 x2 y2 cx cy radius =
        ((x1 - cx) * (x1 - cx) + (y1 - cy) * (y1 - cy) <=? radius * radius))
  /\ (forall x1 y1 cx cy radius : PrimFloat.float,
        Binary64.finite x1 = true -> Binary64.finite y1 = true ->
        Binary64.lineSegmentIntersectsCircle x1 y1 x1 y1 cx cy radius
        = Binary64.pointInCircle x1 y1 cx cy radius).
Proof.
  split; [|split].
  - intros x1 y1 x2 y2 cx cy radius Hr.
    rewrite swept_iff_gap. split; intros [t [Ht H]]; exists t; split; auto;
      apply (distance_gap x1 y1 x2 y2 cx cy radius t Hr); assumption.
  - intros x1 y1 x2 y2 cx cy radius. apply swept_degenerate.
  - exact Binary64Facts.double_swept_degenerate.
Qed.

Lemma lineSegmentIntersectsCircle_correct_witness :
  (0 <= 20 /\
   (lineSegmentIntersectsCircle 0 0 100 0 50 10 20 = true <->
    exists t, 0 <= t <= 1 /\
      distance (fst (segmentPoint 0 0 100 0 t))
               (snd (segmentPoint 0 0 100 0 t)) 50 10 <= 20))
  /\ ((Binary64.finite Binary64.grazingX2 = true
       /\ Binary64.finite Binary64.grazingY2 = true)
      /\ Binary64.lineSegmentIntersectsCircle
           Binary64.grazingX2 Binary64.grazingY2
           Binary64.grazingX2 Binary64.grazingY2
           Binary64.goalX Binary64.goalY Binary64.goalRadius
         = Binary64.pointInCircle Binary64.grazingX2 Binary64.grazingY2
             Binary64.goalX Binary64.goalY Binary64.goalRadius).
Proof.
  assert (H0 : 0 <= 20) by lra.
  assert (H1 : Binary64.finite Binary64.grazingX2 = true) by reflexivity.
  assert (H2 : Binary64.finite Binary64.grazingY2 = true) by reflexivity.
  split.
  - split; [exact H0|].
    exact (proj1 lineSegmentIntersectsCircle_correct 0 0 100 0 50 10 20 H0).
  - split; [split; assumption|].
    exact (proj2 (proj2 lineSegmentIntersectsCircle_correct)
             Binary64.grazingX2 Binary64.grazingY2
             Binary64.goalX Binary64.goalY Binary64.goalRadius H1 H2).
Defined.

(** C9, as stated, fails on doubles: the end position of the grazing
    segment passes the point-in-circle test and the swept test of the
    segment answers [false]. *)
Lemma swept_misses_end_point_on_doubles :
  Binary64.pointInCircle Binary64.grazingX2 Binary64.grazingY2
    Binary64.goalX Binary64.goalY Binary64.goalRadius = true
  /\ Binary64.lineSegmentIntersectsCircle Binary64.grazingX1 Binary64.grazingY1
       Binary64.grazingX2 Binary64.grazingY2
    Binary64.goalX Binary64.goalY Binary64.goalRadius = false.
Proof.
  split; [exact (proj1 (proj2 Binary64Facts.grazing_answers))
         |exact (proj1 Binary64Facts.grazing_answers)].
Qed.

(** C9 (amended).  In the exact reading, whenever the point-in-circle test
    succeeds at the end position of a movement segment, the swept test of
    that segment succeeds too.  On doubles it is the tests that call the
    swept test that contain the test at the end position, because they
    evaluate it first: [Level.checkGoal] and the landing test of
    [updatePhysics] answer [true] whenever the end position is within the
    radius, and the test of a black hole whenever it is strictly within. *)
Theorem end_point_test_is_contained :
  (forall x1 y1 x2 y2 cx cy radius : R,
     ((x2 - cx) * (x2 - cx) + (y2 - cy) * (y2 - cy) <=? radius * radius) = true ->
     lineSegmentIntersectsCircle x1 y1 x2 y2 cx cy radius = true)
  /\ (forall goalX goalY goalRadius prevX prevY x y : PrimFloat.float,
        Binary64.pointInCircle x y goalX goalY goalRadius = true ->
        Binary64.checkGoal goalX goalY goalRadius prevX prevY x y = true)
  /\ (forall planetX planetY planetRadius radius prevX prevY x y : PrimFloat.float,
        Binary64.pointInCircle x y planetX planetY
          (PrimFloat.add planetRadius radius) = true ->
        Binary64.shouldLand planetX planetY planetRadius radius prevX prevY x y
        = true)
  /\ (forall holeX holeY holeRadius pr prevX prevY px py : PrimFloat.float,
        Binary64.pointStrictlyInCircle px py holeX holeY
          (PrimFloat.add holeRadius pr) = true ->
        Binary64.hitsBlackHole holeX holeY holeRadius pr prevX prevY px py
        = true).
Proof.
  split; [|split; [|split]].
  - intros x1 y1 x2 y2 cx cy radius H.
    apply swept_iff_gap. exists 1. split; [lra|].
    destruct (leb_spec ((x2 - cx) * (x2 - cx) + (y2 - cy) * (y2 - cy))
                       (radius * radius)) as [Hle|]; [|discriminate].
    unfold gapAt.
    replace (x1 + 1 * (x2 - x1) - cx) with (x2 - cx) by ring.
    replace (y1 + 1 * (y2 - y1) - cy) with (y2 - cy) by ring.
    lra.
  - intros goalX goalY goalRadius prevX prevY x y H.
    unfold Binary64.checkGoal. unfold Binary64.pointInCircle in H.
    cbv zeta in *. rewrite H. reflexivity.
  - intros planetX planetY planetRadius radius prevX prevY x y H.
    unfold Binary64.shouldLand. unfold Binary64.pointInCircle in H.
    cbv zeta in *. rewrite H. reflexivity.
  - intros holeX holeY holeRadius pr prevX prevY px py H.
    unfold Binary64.hitsBlackHole. unfold Binary64.pointStrictlyInCircle in H.
    cbv zeta in *. rewrite H. reflexivity.
Qed.

Lemma end_point_test_is_contained_witness :
  (((407 - 400) * (407 - 400) + (300 - 300) * (300 - 300) <=? 20 * 20) = true
   /\ lineSegmentIntersectsCircle 100 250 407 300 400 300 20 = true)
  /\ (Binary64.pointInCircle Binary64.grazingX2 Binary64.grazingY2
    Binary64.goalX Binary64.goalY Binary64.goalRadius
      = true
      /\ Binary64.checkGoal Binary64.goalX Binary64.goalY Binary64.goalRadius
       Binary64.grazingX1 Binary64.grazingY1
           Binary64.grazingX2 Binary64.grazingY2 = true).
Proof.
  assert (H : ((407 - 400) * (407 - 400) + (300 - 300) * (300 - 300)
               <=? 20 * 20) = true) by (apply leb_true; lra).
  assert (G : Binary64.pointInCircle Binary64.grazingX2 Binary64.grazingY2
                Binary64.goalX Binary64.goalY Binary64.goalRadius = true)
    by exact (proj1 (proj2 Binary64Facts.grazing_answers)).
  split.
  - split; [exact H|].
    exact (proj1 end_point_test_is_contained 100 250 407 300 400 300 20 H).
  - split; [exact G|].
    exact (proj1 (proj2 end_point_test_is_contained)
             Binary64.goalX Binary64.goalY Binary64.goalRadius
             Binary64.grazingX1 Binary64.grazingY1
             Binary64.grazingX2 Binary64.grazingY2 G).
Defined.

(* ------------------------------------------------------------------ *)
(** ** The force law *)

Lemma distance_sym_sq px py sx sy :
  distance px py sx sy = sqrt ((sx - px) * (sx - px) + (sy - py) * (sy - py)).
Proof. unfold distance. f_equal. ring. Qed.

Lemma distance_sqr ax ay bx by_ :
  distance ax ay bx by_ ^ 2 = (ax - bx) * (ax - bx) + (ay - by_) * (ay - by_).
Proof.
  unfold distance. simpl. rewrite Rmult_1_r. apply sqrt_sqrt.
  pose proof (Rle_0_sqr (ax - bx)). pose proof (Rle_0_sqr (ay - by_)).
  unfold Rsqr in *. lra.
Qed.

Lemma unit_vector dx dy :
  0 < sqrt (dx * dx + dy * dy) ->
  (dx / sqrt (dx * dx + dy * dy)) ^ 2 + (dy / sqrt (dx * dx + dy * dy)) ^ 2 = 1.
Proof.
  intro Hd.
  assert (Hs : sqrt (dx * dx + dy * dy) * sqrt (dx * dx + dy * dy)
               = dx * dx + dy * dy).
  { apply sqrt_sqrt. pose proof (Rle_0_sqr dx). pose proof (Rle_0_sqr dy).
    unfold Rsqr in *. lra. }
  set (d := sqrt (dx * dx + dy * dy)) in *.
  assert (Hd0 : d <> 0) by lra.
  replace ((dx / d) ^ 2 + (dy / d) ^ 2) with ((dx * dx + dy * dy) / (d * d))
    by (field; assumption).
  rewrite <- Hs. field. assumption.
Qed.

Lemma forceLaw_spec sx sy sradius sstrength gm px py :
  0 <= sradius -> 0 <= sstrength -> 0 <= gm ->
  let d := distance px py sx sy in
  let F := sstrength * GRAVITY_CONSTANT * gm / (d ^ 2 + 100) in
  let f := forceLaw sx sy sradius sstrength gm px py in
  (d < sradius + 5 -> f = mkVec 0 0) /\
  (sradius + 5 <= d ->
   f = mkVec (F * ((sx - px) / d)) (F * ((sy - py) / d))
   /\ ((sx - px) / d) ^ 2 + ((sy - py) / d) ^ 2 = 1
   /\ sqrt (vx_ f ^ 2 + vy_ f ^ 2) = F).
Proof.
  intros Hr Hs Hg d F f.
  assert (Hd2 : d ^ 2 = (sx - px) * (sx - px) + (sy - py) * (sy - py)).
  { unfold d. rewrite distance_sqr. ring. }
  assert (Hd : d = sqrt ((sx - px) * (sx - px) + (sy - py) * (sy - py)))
    by apply distance_sym_sq.
  unfold f, forceLaw. rewrite <- Hd. split.
  - intro Hlt. rewrite ltb_true by assumption. reflexivity.
  - intro Hge. rewrite ltb_false by assumption.
    assert (Hpos : 0 < d) by lra.
    assert (Hu : ((sx - px) / d) ^ 2 + ((sy - py) / d) ^ 2 = 1).
    { rewrite Hd. apply unit_vector. rewrite <- Hd. assumption. }
    assert (HF : 0 <= F).
    { unfold F. apply Rmult_le_pos.
      - unfold GRAVITY_CONSTANT. apply Rmult_le_pos; [|assumption].
        apply Rmult_le_pos; [assumption|lra].
      - left. apply Rinv_0_lt_compat. rewrite Hd2.
        pose proof (Rle_0_sqr (sx - px)). pose proof (Rle_0_sqr (sy - py)).
        unfold Rsqr in *. lra. }
    assert (Heq : sstrength * GRAVITY_CONSTANT * gm
                  / ((sx - px) * (sx - px) + (sy - py) * (sy - py) + 100) = F).
    { unfold F. rewrite Hd2. reflexivity. }
    rewrite Heq. split; [reflexivity|]. split; [assumption|].
    cbn [vx_ vy_].
    replace ((F * ((sx - px) / d)) ^ 2 + (F * ((sy - py) / d)) ^ 2)
      with (F * F * (((sx - px) / d) ^ 2 + ((sy - py) / d) ^ 2)) by ring.
    rewrite Hu, Rmult_1_r. apply sqrt_square. assumption.
Qed.



(* ------------------------------------------------------------------ *)
(** ** [Math.atan2] gives the direction of a vector *)

Lemma sqrt_one_plus_ratio x y :
  x <> 0 -> sqrt (1 + (y / x)²) = sqrt (x * x + y * y) / Rabs x.
Proof.
  intro Hx.
  assert (Hx2 : 0 < x²) by (apply Rsqr_pos_lt; assumption).
  replace (1 + (y / x)²) with ((x * x + y * y) / x²)
    by (unfold Rsqr; field; assumption).
  rewrite sqrt_div_alt by assumption.
  rewrite sqrt_Rsqr_abs. reflexivity.
Qed.

Lemma norm_pos x y : x <> 0 \/ y <> 0 -> 0 < sqrt (x * x + y * y).
Proof.
  intro H. apply sqrt_lt_R0.
  pose proof (Rle_0_sqr x) as Hx. pose proof (Rle_0_sqr y) as Hy.
  unfold Rsqr in *.
  destruct H as [H|H].
  - pose proof (Rsqr_pos_lt x H) as H1. unfold Rsqr in H1. lra.
  - pose proof (Rsqr_pos_lt y H) as H1. unfold Rsqr in H1. lra.
Qed.

Lemma atan2_direction y x :
  x <> 0 \/ y <> 0 ->
  cos (Js.atan2 y x) = x / sqrt (x * x + y * y)
  /\ sin (Js.atan2 y x) = y / sqrt (x * x + y * y).
Proof.
  intro Hnz. pose proof (norm_pos x y Hnz) as Hd.
  set (d := sqrt (x * x + y * y)) in *.
  assert (Hd0 : d <> 0) by lra.
  unfold Js.atan2.
  destruct (ltb_spec 0 x) as [Hx|Hx].
  - (* right half plane *)
    assert (Hx0 : x <> 0) by lra.
    rewrite cos_atan, sin_atan, (sqrt_one_plus_ratio x y Hx0).
    fold d. rewrite (Rabs_pos_eq x) by lra.
    split; field; split; assumption.
  - destruct (ltb_spec x 0) as [Hx'|Hx'].
    + (* left half plane *)
      assert (Hx0 : x <> 0) by lra.
      assert (Hc : cos (atan (y / x)) = - x / d).
      { rewrite cos_atan, (sqrt_one_plus_ratio x y Hx0). fold d.
        rewrite (Rabs_left x) by assumption. field. split; lra. }
      assert (Hs : sin (atan (y / x)) = - y / d).
      { rewrite sin_atan, (sqrt_one_plus_ratio x y Hx0). fold d.
        rewrite (Rabs_left x) by assumption. field. split; lra. }
      destruct (leb_spec 0 y).
      * rewrite neg_cos, neg_sin, Hc, Hs. split; field; assumption.
      * rewrite cos_minus, sin_minus, cos_PI, sin_PI, Hc, Hs.
        split; field; assumption.
    + (* on the vertical axis *)
      assert (Hx0 : x = 0) by lra.
      assert (Hy0 : y <> 0) by (destruct Hnz; [contradiction|assumption]).
      assert (Hdy : d = Rabs y).
      { unfold d. rewrite Hx0.
        replace (0 * 0 + y * y) with (y²) by (unfold Rsqr; ring).
        apply sqrt_Rsqr_abs. }
      rewrite Hdy in *. rewrite Hx0.
      destruct (ltb_spec 0 y) as [Hy|Hy].
      * rewrite cos_PI2, sin_PI2, (Rabs_pos_eq y) by lra.
        split; field; lra.
      * destruct (ltb_spec y 0) as [Hy'|Hy']; [|exfalso; lra].
        rewrite cos_neg, sin_neg, cos_PI2, sin_PI2, (Rabs_left y) by assumption.
        split; field; lra.
Qed.

(** The tangent direction: a quarter turn from the radial direction, to the
    left or to the right. *)
Lemma quarter_turn a :
  cos (a + PI / 2 * 1) = - sin a /\ sin (a + PI / 2 * 1) = cos a /\
  cos (a + PI / 2 * -1) = sin a /\ sin (a + PI / 2 * -1) = - cos a.
Proof.
  replace (a + PI / 2 * 1) with (a + PI / 2) by ring.
  replace (a + PI / 2 * -1) with (a - PI / 2) by ring.
  rewrite cos_plus, sin_plus, cos_minus, sin_minus, cos_PI2, sin_PI2.
  repeat split; ring.
Qed.

(* ------------------------------------------------------------------ *)
(** ** The jump *)

(** C4.  For a body on a surface (off the centre of its planet), [jump()]
    sets the velocity to [angularSpeed * orbitalRadius] along the tangent,
    signed by the direction of rotation, of magnitude
    [|angularSpeed| * orbitalRadius], plus 50 along the unit vector that
    points from the planet's centre to the body; at angular speed ratio
    [escapeThreshold] the tangential speed is
    [baseAngularSpeed * escapeThreshold * orbitalRadius]. *)
Theorem jump_launch_velocity (p : Player.t) (planet : Planet.t) :
  Player.onPlanet p = true ->
  Player.currentPlanet p = Some planet ->
  (Player.x p <> Planet.x planet \/ Player.y p <> Planet.y planet) ->
  0 <= Planet.radius planet + Player.radius p + 2 ->
  let orbitalRadius := Planet.radius planet + Player.radius p + 2 in
  let d := distance (Player.x p) (Player.y p) (Planet.x planet) (Planet.y planet) in
  let ux := (Player.x p - Planet.x planet) / d in
  let uy := (Player.y p - Planet.y planet) / d in
  let p' := Player.jump p in
  let tangential := Player.vx p' * - uy + Player.vy p' * ux in
  let radial := Player.vx p' * ux + Player.vy p' * uy in
  ux ^ 2 + uy ^ 2 = 1 /\
  Player.vx p' = Player.angularSpeed p * orbitalRadius * - uy + 50 * ux /\
  Player.vy p' = Player.angularSpeed p * orbitalRadius * ux + 50 * uy /\
  tangential = Player.angularSpeed p * orbitalRadius /\
  Rabs tangential = Rabs (Player.angularSpeed p) * orbitalRadius /\
  radial = 50 /\
  Player.onPlanet p' = false /\ Player.hasJumped p' = true /\
  (Player.baseAngularSpeed p <> 0 ->
   Rabs (Player.angularSpeed p) / Player.baseAngularSpeed p
   = Player.escapeThreshold p ->
   Rabs tangential
   = Player.baseAngularSpeed p * Player.escapeThreshold p * orbitalRadius).
Proof.
  intros Hon Hcur Hoff HR orbitalRadius d ux uy p' tangential radial.
  assert (Hnz : Player.x p - Planet.x planet <> 0
                \/ Player.y p - Planet.y planet <> 0)
    by (destruct Hoff; [left|right]; lra).
  destruct (atan2_direction (Player.y p - Planet.y planet)
                            (Player.x p - Planet.x planet) Hnz) as [Hc Hs].
  pose proof (norm_pos _ _ Hnz) as Hd.
  assert (Hu : ux ^ 2 + uy ^ 2 = 1) by (apply unit_vector; exact Hd).
  fold (distance (Player.x p) (Player.y p) (Planet.x planet) (Planet.y planet))
    in Hc, Hs.
  fold d in Hc, Hs. fold ux in Hc. fold uy in Hs.
  destruct (quarter_turn (Js.atan2 (Player.y p - Planet.y planet)
                                   (Player.x p - Planet.x planet)))
    as [Hq1 [Hq2 [Hq3 Hq4]]].
  assert (Hvx : Player.vx p'
                = Player.angularSpeed p * orbitalRadius * - uy + 50 * ux).
  { unfold p', Player.jump. rewrite Hon, Hcur. cbn [Player.vx].
    fold orbitalRadius.
    destruct (geb_spec (Player.angularSpeed p) 0) as [Hw|Hw].
    - rewrite Hq1, Hc, Hs, (Rabs_pos_eq _ Hw). ring.
    - rewrite Hq3, Hc, Hs, Rabs_left by lra. ring. }
  assert (Hvy : Player.vy p'
                = Player.angularSpeed p * orbitalRadius * ux + 50 * uy).
  { unfold p', Player.jump. rewrite Hon, Hcur. cbn [Player.vy].
    fold orbitalRadius.
    destruct (geb_spec (Player.angularSpeed p) 0) as [Hw|Hw].
    - rewrite Hq2, Hc, Hs, (Rabs_pos_eq _ Hw). ring.
    - rewrite Hq4, Hc, Hs, Rabs_left by lra. ring. }
  assert (Ht : tangential = Player.angularSpeed p * orbitalRadius).
  { unfold tangential. rewrite Hvx, Hvy.
    replace ((Player.angularSpeed p * orbitalRadius * - uy + 50 * ux) * - uy
             + (Player.angularSpeed p * orbitalRadius * ux + 50 * uy) * ux)
      with (Player.angularSpeed p * orbitalRadius * (ux ^ 2 + uy ^ 2)) by ring.
    rewrite Hu. ring. }
  assert (Hta : Rabs tangential = Rabs (Player.angularSpeed p) * orbitalRadius).
  { rewrite Ht, Rabs_mult, (Rabs_pos_eq orbitalRadius) by exact HR.
    reflexivity. }
  repeat split; try assumption.
  - unfold radial. rewrite Hvx, Hvy.
    replace ((Player.angularSpeed p * orbitalRadius * - uy + 50 * ux) * ux
             + (Player.angularSpeed p * orbitalRadius * ux + 50 * uy) * uy)
      with (50 * (ux ^ 2 + uy ^ 2)) by ring.
    rewrite Hu. ring.
  - unfold p', Player.jump. rewrite Hon, Hcur. reflexivity.
  - unfold p', Player.jump. rewrite Hon, Hcur. reflexivity.
  - intros Hb Hratio. rewrite Hta, <- Hratio. field. assumption.
Qed.

Lemma jump_launch_velocity_witness :
  let planet := Planet.mk 35 400 300 1 in
  let p := Player.mk 445 300 445 300 false 0 0 true (Some planet) false 0 8
             (6 * 2 * PI * (1 / sqrt 2)) (6 * 2 * PI)
             ((6 * 2 * PI) ^ 2 / (32 * PI))
             ((6 * 2 * PI) ^ 2 / (32 * PI) * 0.8) (1 / sqrt 2) in
  let d := distance (Player.x p) (Player.y p) (Planet.x planet) (Planet.y planet) in
  let ux := (Player.x p - Planet.x planet) / d in
  let uy := (Player.y p - Planet.y planet) / d in
  (Player.onPlanet p = true /\ Player.currentPlanet p = Some planet /\
   (Player.x p <> Planet.x planet \/ Player.y p <> Planet.y planet) /\
   0 <= Planet.radius planet + Player.radius p + 2) /\
  (Player.baseAngularSpeed p <> 0 /\
   Rabs (Player.angularSpeed p) / Player.baseAngularSpeed p
   = Player.escapeThreshold p) /\
  Player.vx (Player.jump p) * ux + Player.vy (Player.jump p) * uy = 50 /\
  Rabs (Player.vx (Player.jump p) * - uy + Player.vy (Player.jump p) * ux)
  = Player.baseAngularSpeed p * Player.escapeThreshold p
    * (Planet.radius planet + Player.radius p + 2).
Proof.
  intros planet p d ux uy.
  assert (H1 : Player.onPlanet p = true) by reflexivity.
  assert (H2 : Player.currentPlanet p = Some planet) by reflexivity.
  assert (H3 : Player.x p <> Planet.x planet \/ Player.y p <> Planet.y planet)
    by (left; cbn; lra).
  assert (H4 : 0 <= Planet.radius planet + Player.radius p + 2) by (cbn; lra).
  pose proof PI_RGT_0 as Hpi.
  assert (Hs2 : 0 < sqrt 2) by (apply sqrt_lt_R0; lra).
  assert (H5 : Player.baseAngularSpeed p <> 0) by (cbn; lra).
  assert (H6 : Rabs (Player.angularSpeed p) / Player.baseAngularSpeed p
               = Player.escapeThreshold p).
  { cbn [Player.angularSpeed Player.baseAngularSpeed Player.escapeThreshold p].
    rewrite Rabs_pos_eq.
    - field. split; lra.
    - apply Rmult_le_pos; [lra|].
      apply Rmult_le_pos; [lra|]. left. apply Rinv_0_lt_compat. assumption. }
  pose proof (jump_launch_velocity p planet H1 H2 H3 H4) as J.
  cbv zeta in J.
  destruct J as [_ [_ [_ [_ [_ [Hrad [_ [_ Hesc]]]]]]]].
  split; [auto|]. split; [auto|]. split.
  - exact Hrad.
  - exact (Hesc H5 H6).
Defined.

(* ------------------------------------------------------------------ *)
(** ** Screen wrap and the swept segment *)

Lemma wrapStep_changed (q : Player.t) :
  wrapScreenPosition (Player.x q) (Player.y q) <> (Player.x q, Player.y q) ->
  (Player.x (Player.wrapStep q), Player.y (Player.wrapStep q))
  = wrapScreenPosition (Player.x q) (Player.y q)
  /\ Player.screenWrapped (Player.wrapStep q) = true
  /\ Player.prevX (Player.wrapStep q) = Player.x (Player.wrapStep q)
  /\ Player.prevY (Player.wrapStep q) = Player.y (Player.wrapStep q).
Proof.
  intro Hch. unfold Player.wrapStep.
  destruct (wrapScreenPosition (Player.x q) (Player.y q)) as [newX newY] eqn:Hw.
  assert (Hflag : Js.neqb newX (Player.x q) || Js.neqb newY (Player.y q) = true).
  { unfold Js.neqb.
    destruct (eqb_spec newX (Player.x q)) as [Hx|]; [|reflexivity].
    destruct (eqb_spec newY (Player.y q)) as [Hy|]; [|reflexivity].
    exfalso. apply Hch. rewrite Hx, Hy. reflexivity. }
  rewrite Hflag. cbn. auto.
Qed.

Lemma updatePhysics_in_flight gameSpeed gravityMultiplier mobile goal blackHoles
  planets keys deltaTime (p : Player.t) :
  Player.onPlanet p = false ->
  find (Player.shouldLand p) planets = None ->
  Player.updatePhysics gameSpeed gravityMultiplier mobile goal blackHoles
    planets keys deltaTime p
  = (Player.freeFallStep gravityMultiplier
       (Player.sourcesOf planets goal blackHoles)
       (deltaTime * 0.001 * gameSpeed) p, false).
Proof.
  intros Hoff Hnone. unfold Player.updatePhysics, Player.landing.
  rewrite Hoff, Hnone, Hoff. reflexivity.
Qed.

Lemma checkBlackHoleCollision_degenerate (p : Player.t) blackHoles :
  Player.prevX p = Player.x p -> Player.prevY p = Player.y p ->
  checkBlackHoleCollision p blackHoles = true ->
  exists bh, In bh blackHoles /\
    (Player.x p - BlackHole.x bh) * (Player.x p - BlackHole.x bh)
    + (Player.y p - BlackHole.y bh) * (Player.y p - BlackHole.y bh)
    <= (BlackHole.radius bh + Player.radius p)
       * (BlackHole.radius bh + Player.radius p).
Proof.
  intros Hx Hy H. unfold checkBlackHoleCollision in H.
  apply existsb_exists in H as [bh [Hin Hhit]].
  exists bh. split; [assumption|].
  cbv zeta in Hhit.
  match type of Hhit with context [?a <? ?b] => destruct (ltb_spec a b) end;
    [lra|].
  rewrite Hx, Hy, swept_degenerate in Hhit by reflexivity.
  match type of Hhit with context [?a <=? ?b] =>
    destruct (leb_spec a b) as [Hle|] end; [exact Hle|discriminate].
Qed.

Lemma checkGoal_degenerate (level : Level.t) (p : Player.t) :
  Player.prevX p = Player.x p -> Player.prevY p = Player.y p ->
  Level.checkGoal level p = true ->
  (Player.x p - vx_ (Level.goalPosition level))
  * (Player.x p - vx_ (Level.goalPosition level))
  + (Player.y p - vy_ (Level.goalPosition level))
    * (Player.y p - vy_ (Level.goalPosition level))
  <= Level.goalRadius level * Level.goalRadius level.
Proof.
  intros Hx Hy H. unfold Level.checkGoal in H. cbv zeta in H.
  match type of H with context [?a <=? ?b] =>
    destruct (leb_spec a b) as [Hle|_] end; [exact Hle|].
  rewrite Hx, Hy, swept_degenerate in H by reflexivity.
  match type of H with context [?a <=? ?b] =>
    destruct (leb_spec a b) as [Hle|] end; [exact Hle|discriminate].
Qed.

(** C6.  In a flight step of [updatePhysics] in which the screen wrap moves
    the player, the previous position is reset to the wrapped position in
    that same step: the swept segment of the step is a single point, every
    swept test on it is the point-in-circle test at the wrapped position,
    and a black-hole or goal hit of that step comes from a circle that
    contains the wrapped position itself. *)
Theorem screen_wrap_resets_previous_position
  gameSpeed gravityMultiplier mobile goal blackHoles planets keys deltaTime
  (p : Player.t) :
  Player.onPlanet p = false ->
  find (Player.shouldLand p) planets = None ->
  let q := Player.integrate gravityMultiplier
             (Player.sourcesOf planets goal blackHoles)
             (deltaTime * 0.001 * gameSpeed) p in
  wrapScreenPosition (Player.x q) (Player.y q) <> (Player.x q, Player.y q) ->
  let p' := fst (Player.updatePhysics gameSpeed gravityMultiplier mobile goal
                   blackHoles planets keys deltaTime p) in
  (Player.x p', Player.y p') = wrapScreenPosition (Player.x q) (Player.y q)
  /\ Player.prevX p' = Player.x p' /\ Player.prevY p' = Player.y p'
  /\ (forall cx cy radius,
        lineSegmentIntersectsCircle (Player.prevX p') (Player.prevY p')
          (Player.x p') (Player.y p') cx cy radius
        = ((Player.x p' - cx) * (Player.x p' - cx)
           + (Player.y p' - cy) * (Player.y p' - cy) <=? radius * radius))
  /\ (forall holes, checkBlackHoleCollision p' holes = true ->
        exists bh, In bh holes /\
          (Player.x p' - BlackHole.x bh) * (Player.x p' - BlackHole.x bh)
          + (Player.y p' - BlackHole.y bh) * (Player.y p' - BlackHole.y bh)
          <= (BlackHole.radius bh + Player.radius p')
             * (BlackHole.radius bh + Player.radius p'))
  /\ (forall level, Level.checkGoal level p' = true ->
        (Player.x p' - vx_ (Level.goalPosition level))
        * (Player.x p' - vx_ (Level.goalPosition level))
        + (Player.y p' - vy_ (Level.goalPosition level))
          * (Player.y p' - vy_ (Level.goalPosition level))
        <= Level.goalRadius level * Level.goalRadius level).
Proof.
  intros Hoff Hnone q Hch p'.
  assert (Hp' : p' = Player.wrapStep q).
  { unfold p'. rewrite updatePhysics_in_flight by assumption. reflexivity. }
  destruct (wrapStep_changed q Hch) as [Hpos [_ [Hx Hy]]].
  rewrite <- Hp' in Hpos, Hx, Hy.
  split; [exact Hpos|]. split; [exact Hx|]. split; [exact Hy|].
  split; [|split].
  - intros cx cy radius. rewrite Hx, Hy. apply swept_degenerate; reflexivity.
  - intros holes. apply checkBlackHoleCollision_degenerate; assumption.
  - intros level. apply checkGoal_degenerate; assumption.
Qed.

Lemma screen_wrap_resets_previous_position_witness :
  let goal := Goal.mk 400 300 20 0.56 in
  let p := Player.mk 790 300 790 300 false 1000 0 false None true 0 8 0
             (6 * 2 * PI) ((6 * 2 * PI) ^ 2 / (32 * PI))
             ((6 * 2 * PI) ^ 2 / (32 * PI) * 0.8) (1 / sqrt 2) in
  let mobile := MobileInput.mk false 0 0 10 50 false false 0 in
  let q := Player.integrate 2 (Player.sourcesOf [] goal []) (20 * 0.001 * 1) p in
  let p' := fst (Player.updatePhysics 1 2 mobile goal [] [] (mkKeys false false)
                   20 p) in
  (Player.onPlanet p = false /\ find (Player.shouldLand p) [] = None /\
   wrapScreenPosition (Player.x q) (Player.y q) <> (Player.x q, Player.y q))
  /\ Player.x p' = 0 /\ Player.prevX p' = 0.
Proof.
  intros goal p mobile q p'.
  assert (H1 : Player.onPlanet p = false) by reflexivity.
  assert (H2 : find (Player.shouldLand p) [] = None) by reflexivity.
  assert (Hsq : sqrt ((400 - 790) * (400 - 790) + (300 - 300) * (300 - 300))
                = 390).
  { replace ((400 - 790) * (400 - 790) + (300 - 300) * (300 - 300))
      with (390 * 390) by ring.
    apply sqrt_square. lra. }
  assert (Hxq : 800 < Player.x q).
  { unfold q, Player.integrate, Player.sumForces, Player.sourcesOf.
    cbn [map app fold_left Player.x Player.y Player.vx Player.vy p].
    unfold calculateGravity, Goal.calculateGravity, forceLaw.
    cbn [Goal.x Goal.y Goal.radius Goal.gravityStrength goal].
    rewrite Hsq. rewrite ltb_false by lra. cbn [vx_ vy_].
    unfold GRAVITY_CONSTANT.
    replace ((400 - 790) * (400 - 790) + (300 - 300) * (300 - 300) + 100)
      with 152200 by ring.
    lra. }
  assert (Hw : wrapScreenPosition (Player.x q) (Player.y q)
               = (0, wrapCoord CANVAS_HEIGHT (Player.y q))).
  { unfold wrapScreenPosition, wrapCoord at 1, CANVAS_WIDTH.
    rewrite ltb_false by lra. unfold Js.gtb. rewrite ltb_true by lra.
    reflexivity. }
  assert (H3 : wrapScreenPosition (Player.x q) (Player.y q)
               <> (Player.x q, Player.y q)).
  { rewrite Hw. intro E. apply (f_equal fst) in E. cbn [fst] in E. lra. }
  pose proof (screen_wrap_resets_previous_position 1 2 mobile goal [] []
                (mkKeys false false) 20 p H1 H2 H3) as W.
  cbv zeta in W. fold q p' in W.
  destruct W as [Hpos [Hx _]].
  rewrite Hw in Hpos. apply (f_equal fst) in Hpos. cbn [fst] in Hpos.
  split; [auto|]. split; [exact Hpos|]. rewrite Hx. exact Hpos.
Defined.

(* ------------------------------------------------------------------ *)
(** ** Running on a surface: both directions held *)

(** In the modular files the joystick overrides the keys: with both
    directions held and the joystick dragged to the right, the target speed
    is not zero and a player at rest starts to run.  (Keyboard left and
    joystick right give these combined keys in [update].) *)
Lemma both_held_target_nonzero_with_joystick :
  let mobile := MobileInput.mk true 40 0 10 50 false true 0.8 in
  let keys := mkKeys true true in
  let p := Player.new 445 300 (Some (Planet.mk 35 400 300 1)) in
  updateMobileInput mobile = mobile
  /\ left keys && right keys = true
  /\ Player.angularSpeed p = 0
  /\ Player.targetSpeedOf mobile keys p = 0.8 * (6 * 2 * PI)
  /\ Player.targetSpeedOf mobile keys p <> 0
  /\ 0 < fst (Player.updateAngularMovement mobile keys 0.02 p).
Proof.
  intros mobile keys p.
  pose proof PI_RGT_0 as Hpi.
  assert (Ht : Player.targetSpeedOf mobile keys p = 0.8 * (6 * 2 * PI)).
  { unfold Player.targetSpeedOf.
    cbn [MobileInput.targetSpeed MobileInput.left mobile left right keys andb].
    unfold Js.gtb. rewrite ltb_true by lra.
    cbn [Player.baseAngularSpeed p Player.new]. lra. }
  split.
  { unfold updateMobileInput.
    cbn [MobileInput.active MobileInput.currentX MobileInput.centerX
         MobileInput.deadzone MobileInput.maxDistance mobile negb].
    replace (40 - 0) with 40 by ring.
    rewrite (Rabs_pos_eq 40) by lra.
    rewrite ltb_false by lra.
    unfold Js.gtb. rewrite ltb_true by lra.
    unfold Rmin. destruct (Rle_dec 40 50); [|exfalso; lra].
    unfold mobile. cbn [negb]. f_equal. lra. }
  split; [reflexivity|]. split; [reflexivity|]. split; [exact Ht|].
  split; [rewrite Ht; lra|].
  unfold Player.updateAngularMovement. rewrite Ht. cbn [fst].
  cbn [Player.angularSpeed Player.angularAcceleration Player.baseAngularSpeed
       p Player.new].
  assert (Hacc : (6 * 2 * PI) ^ 2 / (32 * PI) = 4.5 * PI).
  { replace 4.5 with (9 / 2) by lra. field. lra. }
  rewrite Hacc.
  replace (0.8 * (6 * 2 * PI) - 0) with (9.6 * PI) by lra.
  rewrite (Rabs_pos_eq (9.6 * PI)) by lra.
  rewrite ltb_false by lra.
  unfold Js.sign. rewrite ltb_true by lra.
  unfold Rmax, Rmin.
  destruct (Rle_dec (6 * 2 * PI) (0 + 1 * (4.5 * PI * 0.02))); [exfalso; lra|].
  destruct (Rle_dec (- (6 * 2 * PI)) (0 + 1 * (4.5 * PI * 0.02)));
    [lra|exfalso; lra].
Qed.

(** In script.js both keys held run to the left: from rest the angular speed
    becomes negative. *)
Lemma legacy_both_held_runs_left dt (p : Player.t) :
  0 < dt -> 0 < Player.angularAcceleration p -> 0 < Player.baseAngularSpeed p ->
  Player.angularSpeed p = 0 ->
  fst (Legacy.updateAngularMovement (mkKeys true true) dt p) < 0.
Proof.
  intros Hdt Ha Hb Hw. unfold Legacy.updateAngularMovement.
  cbn [left fst]. rewrite Hw.
  assert (0 < Player.angularAcceleration p * dt) by (apply Rmult_lt_0_compat; assumption).
  unfold Rmax. destruct (Rle_dec _ _); lra.
Qed.

Lemma clamp_id base w :
  - base <= w <= base -> Rmax (- base) (Rmin base w) = w.
Proof.
  intros [Hlo Hhi]. unfold Rmax, Rmin.
  destruct (Rle_dec base w); destruct (Rle_dec _ _); lra.
Qed.

(** In script.js both keys held are the left key held: the angular speed
    goes down by [angularAcceleration * dt], as far as [- baseAngularSpeed],
    and it stays where it is only there or when the step is empty. *)
Lemma legacy_both_held dt (p : Player.t) :
  0 <= dt -> 0 <= Player.angularAcceleration p ->
  Rabs (Player.angularSpeed p) <= Player.baseAngularSpeed p ->
  let w := Player.angularSpeed p in
  let legacy := fst (Legacy.updateAngularMovement (mkKeys true true) dt p) in
  legacy = Rmax (w - Player.angularAcceleration p * dt) (- Player.baseAngularSpeed p)
  /\ - Player.baseAngularSpeed p <= legacy <= w
  /\ (legacy = w ->
      w = - Player.baseAngularSpeed p \/ Player.angularAcceleration p * dt = 0).
Proof.
  intros Hdt Hacc Hbound w legacy.
  assert (Hm : 0 <= Player.angularAcceleration p * dt)
    by (apply Rmult_le_pos; assumption).
  assert (Hl : legacy = Rmax (w - Player.angularAcceleration p * dt)
                          (- Player.baseAngularSpeed p)) by reflexivity.
  split; [exact Hl|]. rewrite Hl. fold w in Hbound.
  unfold Rabs in Hbound. unfold Rmax.
  destruct (Rcase_abs w); destruct (Rle_dec _ _); repeat split; try lra;
    intro; lra.
Qed.

(** C8, as stated, fails in both versions of [updateAngularMovement].  In
    the modular files the joystick overrides the keys (keyboard left and
    joystick right give both directions held, and a target speed of 0.8 of
    the full speed).  In script.js there is no target speed: the left key is
    tested first, and a player at rest with both keys held starts to run to
    the left. *)
Lemma both_held_need_not_brake :
  (let mobile := MobileInput.mk true 40 0 10 50 false true 0.8 in
   let keys := mkKeys true true in
   let p := Player.new 445 300 (Some (Planet.mk 35 400 300 1)) in
   updateMobileInput mobile = mobile
   /\ left keys && right keys = true
   /\ Player.angularSpeed p = 0
   /\ Player.targetSpeedOf mobile keys p = 0.8 * (6 * 2 * PI)
   /\ Player.targetSpeedOf mobile keys p <> 0
   /\ 0 < fst (Player.updateAngularMovement mobile keys 0.02 p))
  /\ (let keys := mkKeys true true in
      let p := Legacy.new 445 300 (Some (Planet.mk 35 400 300 1)) in
      left keys && right keys = true
      /\ Player.angularSpeed p = 0
      /\ fst (Legacy.updateAngularMovement keys 0.02 p) = - (9 * PI * 0.02)
      /\ fst (Legacy.updateAngularMovement keys 0.02 p) < 0).
Proof.
  split; [exact both_held_target_nonzero_with_joystick|].
  intros keys p. pose proof PI_RGT_0 as Hpi.
  assert (E : fst (Legacy.updateAngularMovement keys 0.02 p) = - (9 * PI * 0.02)).
  { unfold Legacy.updateAngularMovement, keys, p, Legacy.new.
    cbn [left fst Player.angularSpeed Player.angularAcceleration
         Player.baseAngularSpeed].
    replace ((6 * 2 * PI) ^ 2 / (16 * PI)) with (9 * PI) by (field; lra).
    unfold Rmax. destruct (Rle_dec _ _); lra. }
  split; [reflexivity|]. split; [reflexivity|]. split; [exact E|].
  rewrite E. lra.
Qed.

(** C8 (amended).  In the modular files, on a surface, with both directions
    held and no joystick target, the target angular speed is zero: the
    angular speed moves toward zero, by [angularAcceleration * dt] at most,
    and stops at zero.  In script.js both directions held are the left
    direction held: the angular speed goes down by [angularAcceleration * dt]
    and stops at [- baseAngularSpeed]. *)
Theorem both_inputs_held_brakes mobile keys dt (p : Player.t) :
  left keys = true -> right keys = true ->
  MobileInput.targetSpeed mobile <= 0 ->
  0 <= dt -> 0 <= Player.angularAcceleration p ->
  Rabs (Player.angularSpeed p) <= Player.baseAngularSpeed p ->
  let w := Player.angularSpeed p in
  let w' := fst (Player.updateAngularMovement mobile keys dt p) in
  let legacy := fst (Legacy.updateAngularMovement keys dt p) in
  (Player.targetSpeedOf mobile keys p = 0
   /\ w' = (if Rabs w <? Player.angularAcceleration p * dt then 0
            else w - Js.sign w * (Player.angularAcceleration p * dt))
   /\ Rabs w' <= Rabs w
   /\ Rabs (w' - w) <= Player.angularAcceleration p * dt
   /\ 0 <= w' * w)
  /\ (legacy = Rmax (w - Player.angularAcceleration p * dt)
                    (- Player.baseAngularSpeed p)
      /\ - Player.baseAngularSpeed p <= legacy <= w
      /\ (legacy = w ->
          w = - Player.baseAngularSpeed p
          \/ Player.angularAcceleration p * dt = 0)).
Proof.
  intros Hl Hr Hm Hdt Hacc Hbound w w' legacy.
  split.
  2:{ destruct keys as [kl kr]. cbn [left right] in Hl, Hr. subst kl kr.
      exact (legacy_both_held dt p Hdt Hacc Hbound). }
  assert (Ht : Player.targetSpeedOf mobile keys p = 0).
  { unfold Player.targetSpeedOf. rewrite Hl, Hr. cbn [andb].
    unfold Js.gtb. rewrite ltb_false by assumption. reflexivity. }
  split; [exact Ht|].
  assert (Hm0 : 0 <= Player.angularAcceleration p * dt)
    by (apply Rmult_le_pos; assumption).
  set (m := Player.angularAcceleration p * dt) in *.
  assert (Hw' : w' = (if Rabs w <? m then 0 else w - Js.sign w * m)).
  { unfold w', Player.updateAngularMovement. rewrite Ht. cbn [fst].
    fold w. fold m.
    replace (0 - w) with (- w) by ring. rewrite Rabs_Ropp.
    fold w in Hbound.
    destruct (ltb_spec (Rabs w) m) as [Hlt|Hge].
    - apply clamp_id. pose proof (Rabs_pos w). lra.
    - unfold Js.sign.
      unfold Rabs in Hbound, Hge. destruct (Rcase_abs w) as [Hneg|Hpos].
      + rewrite (ltb_true 0 (- w)) by lra.
        rewrite (ltb_false 0 w) by lra. rewrite (ltb_true w 0) by lra.
        rewrite clamp_id by lra. ring.
      + destruct (ltb_spec 0 w) as [Hw|Hw].
        * rewrite (ltb_false 0 (- w)) by lra. rewrite (ltb_true (- w) 0) by lra.
          rewrite clamp_id by lra. ring.
        * assert (w = 0) by lra.
          rewrite (ltb_false 0 (- w)) by lra. rewrite (ltb_false (- w) 0) by lra.
          rewrite (ltb_false w 0) by lra.
          rewrite clamp_id by lra. ring. }
  split; [exact Hw'|].
  rewrite Hw'. clear Hw' w'.
  destruct (ltb_spec (Rabs w) m) as [Hlt|Hge].
  - replace (0 - w) with (- w) by ring. rewrite Rabs_Ropp, Rabs_R0.
    pose proof (Rabs_pos w). repeat split; lra.
  - unfold Js.sign. unfold Rabs in *.
    destruct (ltb_spec 0 w); destruct (ltb_spec w 0);
      repeat destruct (Rcase_abs _); repeat split; try lra; try nra.
Qed.

Lemma both_inputs_held_brakes_witness :
  let mobile := MobileInput.mk false 0 0 10 50 false false 0 in
  let keys := mkKeys true true in
  let p := Player.mk 445 300 445 300 false 0 0 true
             (Some (Planet.mk 35 400 300 1)) false 0 8 1
             (6 * 2 * PI) ((6 * 2 * PI) ^ 2 / (32 * PI))
             ((6 * 2 * PI) ^ 2 / (32 * PI) * 0.8) (1 / sqrt 2) in
  (left keys = true /\ right keys = true /\
   MobileInput.targetSpeed mobile <= 0 /\ 0 <= 0.02 /\
   0 <= Player.angularAcceleration p /\
   Rabs (Player.angularSpeed p) <= Player.baseAngularSpeed p)
  /\ Player.targetSpeedOf mobile keys p = 0
  /\ Rabs (fst (Player.updateAngularMovement mobile keys 0.02 p))
     <= Rabs (Player.angularSpeed p)
  /\ fst (Legacy.updateAngularMovement keys 0.02 p) <= Player.angularSpeed p.
Proof.
  intros mobile keys p.
  pose proof PI2_1 as Hpi.
  assert (H1 : left keys = true) by reflexivity.
  assert (H2 : right keys = true) by reflexivity.
  assert (H3 : MobileInput.targetSpeed mobile <= 0) by (cbn; lra).
  assert (H4 : 0 <= 0.02) by lra.
  assert (H5 : 0 <= Player.angularAcceleration p).
  { cbn [Player.angularAcceleration p].
    replace ((6 * 2 * PI) ^ 2 / (32 * PI)) with (9 / 2 * PI) by (field; lra).
    lra. }
  assert (H6 : Rabs (Player.angularSpeed p) <= Player.baseAngularSpeed p).
  { cbn [Player.angularSpeed Player.baseAngularSpeed p].
    rewrite Rabs_pos_eq by lra. lra. }
  pose proof (both_inputs_held_brakes mobile keys 0.02 p H1 H2 H3 H4 H5 H6) as B.
  cbv zeta in B. destruct B as [[Bt [_ [Babs _]]] [_ [[_ Bleg] _]]].
  split; [auto 10|]. split; [exact Bt|]. split; [exact Babs|exact Bleg].
Defined.

(* ------------------------------------------------------------------ *)
(** ** Symbolic execution of the game functions *)

Lemma result_eta {A} (r : A * GameState * list Event) :
  (valueOf r, stateOf r, traceOf r) = r.
Proof. destruct r as [[a g] t]. reflexivity. Qed.

Lemma bind_modify {B} f (k : unit -> Game B) g :
  bind (modify f) k g = k tt (f g).
Proof. unfold bind, modify. cbn. apply result_eta. Qed.

Lemma bind_get {B} (k : GameState -> Game B) g : bind get k g = k g g.
Proof. unfold bind, get. cbn. apply result_eta. Qed.

Lemma bind_ret {A B} (a : A) (k : A -> Game B) g : bind (ret a) k g = k a g.
Proof. unfold bind, ret. cbn. apply result_eta. Qed.

Lemma bind_emit {B} e (k : unit -> Game B) g :
  bind (emit e) k g
  = (valueOf (k tt g), stateOf (k tt g), e :: traceOf (k tt g)).
Proof. reflexivity. Qed.

Lemma bind_bind {A B C} (m : Game A) (k1 : A -> Game B) (k2 : B -> Game C) g :
  bind (bind m k1) k2 g = bind m (fun a => bind (k1 a) k2) g.
Proof.
  unfold bind. cbn [valueOf stateOf traceOf fst snd].
  rewrite app_assoc. reflexivity.
Qed.

Lemma bind_generateLevel {B} env n (k : Level.t -> Game B) g :
  bind (generateLevel env n) k g
  = let r := k (Level.generateLevel (streamAt env g) n)
               (set_randomCalls
                  (randomCalls g
                   + mathPos (snd (Level.generate (streamAt env g) n (mkGen n 0))))
                  g) in
    (valueOf r, stateOf r, LevelGenerated n :: traceOf r).
Proof. reflexivity. Qed.

Ltac game_fields :=
  cbv beta iota zeta delta
      [valueOf stateOf traceOf fst snd app filter isCore isConstruction
       set_currentLevel set_player set_gameStarted set_keys set_mobileInput
       set_mode set_speedrunTarget set_currentLevelNumber set_score
       set_levelsCompleted set_deaths set_lives set_startTime set_currentTime
       set_highScore set_dailyBestScore set_paused set_stats set_randomCalls
       addTimePlayed addLanding
       currentLevel player gameStarted keys mobileInput mode speedrunTarget
       currentLevelNumber score levelsCompleted deaths lives startTime
       currentTime highScore dailyBestScore gameSpeed gravityMultiplier paused
       stats randomCalls negb andb orb].

Ltac exec_step :=
  first [ rewrite bind_bind | rewrite bind_modify | rewrite bind_get
        | rewrite bind_ret | rewrite bind_emit | rewrite bind_generateLevel ];
  game_fields.

Ltac exec := repeat exec_step; unfold ret, modify, emit, get; game_fields.

(* ------------------------------------------------------------------ *)
(** ** The order of evaluation in a step *)

Lemma updateUI_facts g :
  filter isCore (traceOf (updateUI g)) = []
  /\ filter isConstruction (traceOf (updateUI g)) = []
  /\ deaths (stateOf (updateUI g)) = deaths g
  /\ levelsCompleted (stateOf (updateUI g)) = levelsCompleted g
  /\ currentLevel (stateOf (updateUI g)) = currentLevel g
  /\ player (stateOf (updateUI g)) = player g
  /\ mode (stateOf (updateUI g)) = mode g.
Proof.
  unfold updateUI. destruct g. exec.
  match goal with |- context [match ?m with Endless => _ | _ => _ end] =>
    destruct m end; exec; auto 10.
Qed.

Lemma handlePlayerDeath_facts g :
  let r := handlePlayerDeath g in
  valueOf r = survives g
  /\ filter isCore (traceOf r) = [PlayerDied]
  /\ filter isConstruction (traceOf r)
     = (if survives g then [PlayerCreated] else [])
  /\ deaths (stateOf r) = (deaths g + 1)%Z
  /\ levelsCompleted (stateOf r) = levelsCompleted g
  /\ currentLevel (stateOf r) = currentLevel g
  /\ (survives g = true -> player (stateOf r) = freshPlayer (currentLevel g)).
Proof.
  unfold handlePlayerDeath, survives, createPlayer, updateUI, freshPlayer, when.
  destruct g as [lvl pl started ks mi md target num sc done dth lv st ct hs
                 db spd gm pz sts rc].
  destruct md; exec;
    try (destruct (livesExhausted (decrLives lv)); exec);
    try (destruct (_ >? _)%Z; exec);
    repeat split; auto; try discriminate.
Qed.

Lemma handleLevelComplete_facts env g :
  let r := handleLevelComplete env g in
  filter isCore (traceOf r) = [LevelCompleted]
  /\ deaths (stateOf r) = deaths g
  /\ levelsCompleted (stateOf r) = (levelsCompleted g + 1)%Z
  /\ mode (stateOf r) = mode g
  /\ (finishing g = true ->
      filter isConstruction (traceOf r) = []
      /\ currentLevel (stateOf r) = currentLevel g
      /\ player (stateOf r) = player g)
  /\ (finishing g = false ->
      filter isConstruction (traceOf r)
      = [LevelGenerated (nextSeed env g); PlayerCreated]
      /\ currentLevel (stateOf r)
         = Level.generateLevel (streamAt env g) (nextSeed env g)
      /\ player (stateOf r) = freshPlayer (currentLevel (stateOf r))).
Proof.
  unfold handleLevelComplete, finishing, nextSeed, completeSpeedrun,
    createPlayer, updateUI, freshPlayer, when.
  destruct g as [lvl pl started ks mi md target num sc done dth lv st ct hs
                 db spd gm pz sts rc].
  destruct md; exec;
    try (destruct (done + 1 >=? target)%Z; exec);
    try (destruct (_ >? _)%Z; exec);
    unfold streamAt; game_fields;
    repeat split; auto; try discriminate.
Qed.

Lemma trace_bind {A B} (m : Game A) (k : A -> Game B) g :
  traceOf (bind m k g)
  = traceOf (m g) ++ traceOf (k (valueOf (m g)) (stateOf (m g))).
Proof. reflexivity. Qed.

Lemma state_bind {A B} (m : Game A) (k : A -> Game B) g :
  stateOf (bind m k g) = stateOf (k (valueOf (m g)) (stateOf (m g))).
Proof. reflexivity. Qed.

Lemma advance_facts env dt g :
  let r := advance env dt g in
  filter isCore (traceOf r) = [PlayerPhysics]
  /\ deaths (stateOf r) = deaths g
  /\ levelsCompleted (stateOf r) = levelsCompleted g.
Proof.
  unfold advance, playerPhysics, animateBlackHoles, updateEffects, when.
  destruct g as [lvl pl started ks mi md target num sc done dth lv st ct hs
                 db spd gm pz sts rc].
  exec.
  match goal with |- context [if ?c then _ else _] => destruct c end;
    exec; auto.
Qed.

Lemma evaluate_facts env g :
  let destroyed :=
    checkBlackHoleCollision (player g) (Level.blackHoles (currentLevel g)) in
  let reachedGoal := Level.checkGoal (currentLevel g) (player g) in
  let r := evaluate env g in
  filter isCore (traceOf r)
  = BlackHoleCheck destroyed
    :: (if destroyed then [PlayerDied]
        else GoalCheck reachedGoal
             :: (if reachedGoal then [LevelCompleted] else []))
  /\ (destroyed = true ->
      deaths (stateOf r) = (deaths g + 1)%Z
      /\ levelsCompleted (stateOf r) = levelsCompleted g)
  /\ (destroyed = false ->
      deaths (stateOf r) = deaths g
      /\ levelsCompleted (stateOf r)
         = (levelsCompleted g + (if reachedGoal then 1 else 0))%Z).
Proof.
  intros destroyed reachedGoal r. unfold r, evaluate.
  rewrite bind_get. fold destroyed. fold reachedGoal.
  rewrite bind_emit. cbn [traceOf stateOf valueOf fst snd filter isCore].
  destruct destroyed.
  - (* death: the goal is not looked at *)
    rewrite !bind_emit. cbn [traceOf stateOf valueOf fst snd filter isCore].
    rewrite trace_bind, state_bind.
    destruct (handlePlayerDeath_facts g) as [_ [Ht [_ [Hd [Hl _]]]]].
    cbn [ret traceOf stateOf snd fst]. rewrite app_nil_r, Ht.
    repeat split; auto; discriminate.
  - rewrite bind_emit. cbn [traceOf stateOf valueOf fst snd filter isCore].
    rewrite trace_bind, state_bind, filter_app.
    assert (Hui : forall g',
      filter isCore (traceOf ((g0 <- get ;;
                               match mode g0 with
                               | Endless | Daily => updateUI
                               | _ => ret tt
                               end)%game g')) = []
      /\ deaths (stateOf ((g0 <- get ;;
                           match mode g0 with
                           | Endless | Daily => updateUI
                           | _ => ret tt
                           end)%game g')) = deaths g'
      /\ levelsCompleted (stateOf ((g0 <- get ;;
                                    match mode g0 with
                                    | Endless | Daily => updateUI
                                    | _ => ret tt
                                    end)%game g')) = levelsCompleted g').
    { intro g'. rewrite bind_get.
      destruct (updateUI_facts g') as [U1 [_ [U2 [U3 _]]]].
      destruct (mode g'); auto. }
    destruct reachedGoal; unfold when.
    + rewrite !bind_emit.
      cbn [traceOf stateOf valueOf fst snd filter isCore].
      destruct (handleLevelComplete_facts env g) as [Ht [Hd [Hl _]]].
      destruct (Hui (stateOf (handleLevelComplete env g))) as [U1 [U2 U3]].
      rewrite Ht, U1, U2, U3, Hd, Hl.
      repeat split; auto; discriminate.
    + destruct (Hui g) as [U1 [U2 U3]].
      cbn [ret traceOf stateOf valueOf fst snd filter].
      rewrite U1, U2, U3.
      repeat split; auto; try discriminate. lia.
Qed.

Lemma update_running env dt g :
  gameStarted g = true -> paused g = false ->
  update env dt g = bind (advance env dt) (fun _ => evaluate env) g.
Proof.
  intros Hs Hp. unfold update. rewrite bind_get, Hs, Hp. reflexivity.
Qed.

Lemma in_core_filter e t : isCore e = true -> In e t -> In e (filter isCore t).
Proof. intros He Hin. apply filter_In. split; assumption. Qed.

(** The bodies of the black holes are not touched by their animation. *)
Lemma update_body mr pos dt bh :
  blackHoleBody (fst (BlackHole.update mr pos dt bh)) = blackHoleBody bh.
Proof.
  unfold BlackHole.update.
  destruct (BlackHole.updateParticles _ _ _ _ _). reflexivity.
Qed.

Lemma updateBlackHoles_bodies mr dt bhs :
  forall pos,
    map blackHoleBody (fst (updateBlackHoles mr pos dt bhs))
    = map blackHoleBody bhs.
Proof.
  induction bhs as [|bh rest IH]; intro pos; cbn [updateBlackHoles].
  - reflexivity.
  - pose proof (update_body mr pos dt bh) as Hb.
    destruct (BlackHole.update mr pos dt bh) as [bh' pos'].
    specialize (IH pos').
    destruct (updateBlackHoles mr pos' dt rest) as [rest' pos''].
    cbn [fst map] in *. rewrite Hb, IH. reflexivity.
Qed.

Lemma checkBlackHoleCollision_bodies p l1 l2 :
  map blackHoleBody l1 = map blackHoleBody l2 ->
  checkBlackHoleCollision p l1 = checkBlackHoleCollision p l2.
Proof.
  revert l2. induction l1 as [|a l1 IH]; intros [|b l2] H; try discriminate.
  - reflexivity.
  - cbn [map] in H. injection H as Hx Hy Hr _ Hrest.
    unfold checkBlackHoleCollision in *. cbn [existsb].
    rewrite (IH l2 Hrest), Hx, Hy, Hr. reflexivity.
Qed.

Lemma checkGoal_physical l1 l2 p :
  physical l1 = physical l2 -> Level.checkGoal l1 p = Level.checkGoal l2 p.
Proof.
  unfold physical. intro H.
  assert (Hpos : Level.goalPosition l1 = Level.goalPosition l2) by congruence.
  assert (Hrad : Level.goalRadius l1 = Level.goalRadius l2) by congruence.
  unfold Level.checkGoal. rewrite Hpos, Hrad. reflexivity.
Qed.

Lemma physical_holes l1 l2 :
  physical l1 = physical l2 ->
  map blackHoleBody (Level.blackHoles l1) = map blackHoleBody (Level.blackHoles l2).
Proof. unfold physical. intro H. congruence. Qed.

Lemma setBlackHoles_physical mr pos dt lvl :
  physical (Level.setBlackHoles (fst (updateBlackHoles mr pos dt (Level.blackHoles lvl))) lvl)
  = physical lvl.
Proof.
  unfold physical, Level.setBlackHoles.
  cbn [Level.planets Level.startPosition Level.goalPosition Level.goalRadius
       Level.blackHoles Level.seed Level.archetype Level.goal].
  rewrite updateBlackHoles_bodies. reflexivity.
Qed.

(** The state between the kinetics and the two tests. *)
Lemma advance_player env dt g :
  let g1 := stateOf (advance env dt g) in
  player g1 = fst (movedPlayer dt g)
  /\ physical (currentLevel g1) = physical (currentLevel g)
  /\ stats g1 = (if snd (movedPlayer dt g) then stats (addLanding g) else stats g)
  /\ mobileInput g1 = updateMobileInput (mobileInput g).
Proof.
  unfold advance, playerPhysics, animateBlackHoles, updateEffects, when,
    movedPlayer.
  destruct g as [lvl pl started ks mi md target num sc done dth lv st ct hs
                 db spd gm pz sts rc].
  pose proof (setBlackHoles_physical (mathRandom env) rc (dt * 0.001 * spd) lvl)
    as Hbodies.
  exec.
  match goal with |- context [if ?c then _ else _] => destruct c end;
    exec; (split; [reflexivity|]); (split; [exact Hbodies|]);
    split; reflexivity.
Qed.

Lemma legacy_advance_player env dt g :
  let g1 := stateOf (LegacyGame.advance env dt g) in
  player g1 = fst (legacyMovedPlayer dt g)
  /\ physical (currentLevel g1) = physical (currentLevel g)
  /\ stats g1
     = (if snd (legacyMovedPlayer dt g) then stats (addLanding g) else stats g).
Proof.
  unfold LegacyGame.advance, LegacyGame.playerPhysics, animateBlackHoles,
    updateEffects, when, legacyMovedPlayer.
  destruct g as [lvl pl started ks mi md target num sc done dth lv st ct hs
                 db spd gm pz sts rc].
  pose proof (setBlackHoles_physical (mathRandom env) rc (dt * 0.001 * spd) lvl)
    as Hbodies.
  exec.
  match goal with |- context [if ?c then _ else _] => destruct c end;
    exec; (split; [reflexivity|]); (split; [exact Hbodies|]);
    reflexivity.
Qed.

Lemma legacy_advance_facts env dt g :
  let r := LegacyGame.advance env dt g in
  filter isCore (traceOf r) = [PlayerPhysics]
  /\ deaths (stateOf r) = deaths g
  /\ levelsCompleted (stateOf r) = levelsCompleted g.
Proof.
  unfold LegacyGame.advance, LegacyGame.playerPhysics, animateBlackHoles,
    updateEffects, when.
  destruct g as [lvl pl started ks mi md target num sc done dth lv st ct hs
                 db spd gm pz sts rc].
  exec.
  match goal with |- context [if ?c then _ else _] => destruct c end;
    exec; auto.
Qed.

Lemma legacy_update_running env dt g :
  gameStarted g = true -> paused g = false ->
  LegacyGame.update env dt g
  = bind (LegacyGame.advance env dt) (fun _ => evaluate env) g.
Proof.
  intros Hs Hp. unfold LegacyGame.update. rewrite bind_get, Hs, Hp. reflexivity.
Qed.

Lemma evaluate_death_state env g :
  checkBlackHoleCollision (player g) (Level.blackHoles (currentLevel g)) = true ->
  stateOf (evaluate env g) = stateOf (handlePlayerDeath g).
Proof.
  intro H. unfold evaluate. rewrite bind_get, H.
  rewrite !bind_emit. cbn [stateOf fst snd].
  rewrite state_bind. reflexivity.
Qed.

(** The order of evaluation, for any kinetics that run [updatePhysics] once
    and leave the counters and the physical level alone. *)
Lemma step_in_order env (kinetics : Game unit) moved g :
  filter isCore (traceOf (kinetics g)) = [PlayerPhysics] ->
  deaths (stateOf (kinetics g)) = deaths g ->
  levelsCompleted (stateOf (kinetics g)) = levelsCompleted g ->
  player (stateOf (kinetics g)) = moved ->
  physical (currentLevel (stateOf (kinetics g))) = physical (currentLevel g) ->
  evaluatedInOrder moved g (stateOf (kinetics g))
    (bind kinetics (fun _ => evaluate env) g).
Proof.
  intros At Ad Al Hp Hl.
  set (g1 := stateOf (kinetics g)) in *.
  assert (Hd : checkBlackHoleCollision (player g1)
                 (Level.blackHoles (currentLevel g1))
               = checkBlackHoleCollision moved (Level.blackHoles (currentLevel g))).
  { rewrite Hp. apply checkBlackHoleCollision_bodies, physical_holes, Hl. }
  assert (Hg : Level.checkGoal (currentLevel g1) (player g1)
               = Level.checkGoal (currentLevel g) moved).
  { rewrite Hp. apply checkGoal_physical, Hl. }
  unfold evaluatedInOrder. cbv zeta.
  split; [auto|].
  rewrite trace_bind, state_bind, filter_app.
  change (stateOf (kinetics g)) with g1.
  destruct (evaluate_facts env g1) as [Et [Ed El]].
  cbv zeta in Et, Ed, El. rewrite Hd in Et, Ed, El. rewrite Hg in Et, El.
  rewrite At, Et, <- Ad, <- Al.
  split; [reflexivity|]. split.
  { intro E. split; [|exact (Ed E)].
    apply evaluate_death_state. rewrite Hd. exact E. }
  split; [exact El|].
  intros [Hdied Hdone].
  apply (in_core_filter PlayerDied _ eq_refl) in Hdied.
  apply (in_core_filter LevelCompleted _ eq_refl) in Hdone.
  rewrite filter_app, At, Et in Hdied, Hdone.
  destruct (checkBlackHoleCollision moved _), (Level.checkGoal _ moved);
    cbn [app In] in Hdied, Hdone; intuition discriminate.
Qed.

(** The player in the black hole that sits on the goal: after the
    kinetics it is where it was, inside both. *)
Lemma holeOnGoal_moved :
  let moved := fst (movedPlayer 16 holeOnGoalState) in
  Player.x moved = 400 /\ Player.y moved = 300.
Proof.
  cbv zeta.
  unfold movedPlayer, holeOnGoalState, holeOnGoalLevel, Level.setBlackHoles,
    Level.new, BlackHole.new, Player.new.
  cbn [currentLevel player gameSpeed gravityMultiplier mobileInput keys
       Level.goal Level.blackHoles Level.planets vx_ vy_].
  unfold Player.updatePhysics, Player.landing, Player.setPrev.
  cbn [Player.onPlanet Player.currentPlanet Player.x Player.y Player.prevX
       Player.prevY find fst snd].
  unfold Player.freeFallStep, Player.integrate, Player.sourcesOf,
    Player.sumForces.
  cbn [map app fold_left calculateGravity vx_ vy_].
  unfold Goal.calculateGravity, BlackHole.calculateGravity, forceLaw.
  cbn [Goal.x Goal.y Goal.radius Goal.gravityStrength BlackHole.x BlackHole.y
       BlackHole.radius BlackHole.gravityStrength vx_ vy_
       Player.x Player.y Player.vx Player.vy].
  replace ((400 - 400) * (400 - 400) + (300 - 300) * (300 - 300)) with 0 by ring.
  rewrite sqrt_0. rewrite !ltb_true by lra.
  cbn [vx_ vy_].
  unfold Player.wrapStep.
  cbn [Player.x Player.y].
  replace (400 + (0 + (0 + 0 + 0) * (16 * 0.001 * 1)) * (16 * 0.001 * 1))
    with 400 by ring.
  replace (300 + (0 + (0 + 0 + 0) * (16 * 0.001 * 1)) * (16 * 0.001 * 1))
    with 300 by ring.
  unfold wrapScreenPosition, wrapCoord, CANVAS_WIDTH, CANVAS_HEIGHT, Js.gtb.
  rewrite !ltb_false by lra.
  cbn [Player.x Player.y]. split; reflexivity.
Qed.

Lemma holeOnGoal_outcome :
  let moved := fst (movedPlayer 16 holeOnGoalState) in
  checkBlackHoleCollision moved (Level.blackHoles (currentLevel holeOnGoalState))
  = true
  /\ Level.checkGoal (currentLevel holeOnGoalState) moved = true.
Proof.
  intro moved. destruct holeOnGoal_moved as [Hx Hy]. fold moved in Hx, Hy.
  assert (Hr : Player.radius moved = 8).
  { unfold moved, movedPlayer, Player.updatePhysics, Player.landing.
    cbn [holeOnGoalState player Player.setPrev Player.new Player.onPlanet
         currentLevel holeOnGoalLevel]. 
    unfold holeOnGoalLevel, Level.setBlackHoles, Level.new.
    cbn [Level.planets find Player.onPlanet Player.currentPlanet fst].
    reflexivity. }
  split.
  - unfold checkBlackHoleCollision, holeOnGoalState, holeOnGoalLevel,
      Level.setBlackHoles, BlackHole.new.
    cbn [currentLevel Level.blackHoles existsb BlackHole.x BlackHole.y
         BlackHole.radius].
    rewrite Hx, Hy, Hr. rewrite ltb_true by lra. reflexivity.
  - unfold Level.checkGoal, holeOnGoalState, holeOnGoalLevel,
      Level.setBlackHoles, Level.new.
    cbn [currentLevel Level.goalPosition Level.goalRadius vx_ vy_].
    rewrite Hx, Hy. rewrite leb_true by lra. reflexivity.
Qed.

(** C7.  In a simulation step, of the modular files and of script.js
    alike, the kinetics run first: the player that the two tests look at is
    the player that [updatePhysics] returned in this step, and the level is
    physically the level of the start of the step.  The black-hole test is
    evaluated second and the goal test last, both on that player.  When the
    black-hole test succeeds the step ends in the state that
    [handlePlayerDeath] makes of it and never evaluates the goal, so that no
    step both kills the player and completes the level, even when the
    player is inside the goal too. *)
Theorem update_evaluation_order env dt g :
  gameStarted g = true -> paused g = false ->
  evaluatedInOrder (fst (movedPlayer dt g)) g (stateOf (advance env dt g))
    (update env dt g)
  /\ evaluatedInOrder (fst (legacyMovedPlayer dt g)) g
       (stateOf (LegacyGame.advance env dt g)) (LegacyGame.update env dt g).
Proof.
  intros Hs Hp.
  rewrite (update_running env dt g Hs Hp).
  rewrite (legacy_update_running env dt g Hs Hp).
  destruct (advance_facts env dt g) as [At [Ad Al]].
  destruct (advance_player env dt g) as [Ap [Aphys _]].
  destruct (legacy_advance_facts env dt g) as [Lt [Ld Ll]].
  destruct (legacy_advance_player env dt g) as [Lp [Lphys _]].
  split; apply step_in_order; assumption.
Qed.

Lemma update_evaluation_order_witness :
  let g := holeOnGoalState in
  let moved := fst (movedPlayer 16 g) in
  let r := update exampleEnv 16 g in
  (gameStarted g = true /\ paused g = false)
  /\ checkBlackHoleCollision moved (Level.blackHoles (currentLevel g)) = true
  /\ Level.checkGoal (currentLevel g) moved = true
  /\ player (stateOf (advance exampleEnv 16 g)) = moved
  /\ filter isCore (traceOf r) = [PlayerPhysics; BlackHoleCheck true; PlayerDied]
  /\ deaths (stateOf r) = (deaths g + 1)%Z
  /\ levelsCompleted (stateOf r) = levelsCompleted g.
Proof.
  intros g moved r.
  assert (H1 : gameStarted g = true) by reflexivity.
  assert (H2 : paused g = false) by reflexivity.
  destruct holeOnGoal_outcome as [Hd Hg]. fold g in Hd, Hg. fold moved in Hd, Hg.
  destruct (proj1 (update_evaluation_order exampleEnv 16 g H1 H2))
    as [[Hp _] [Ht [Hdead _]]].
  fold moved in Hp, Ht, Hdead. fold r in Ht, Hdead.
  rewrite Hd in Ht, Hdead.
  destruct (Hdead eq_refl) as [_ [D1 D2]].
  split; [auto|]. split; [exact Hd|]. split; [exact Hg|]. split; [exact Hp|].
  split; [exact Ht|]. split; [exact D1|exact D2].
Defined.

(* ------------------------------------------------------------------ *)
(** ** Level transitions *)

Lemma regenerateCurrentLevel_facts env g :
  let r := regenerateCurrentLevel env g in
  filter isConstruction (traceOf r)
  = [LevelGenerated (currentLevelNumber g); PlayerCreated]
  /\ currentLevel (stateOf r)
     = Level.generateLevel (streamAt env g) (currentLevelNumber g)
  /\ player (stateOf r) = freshPlayer (currentLevel (stateOf r)).
Proof.
  unfold regenerateCurrentLevel, createPlayer, freshPlayer.
  destruct g as [lvl pl started ks mi md target num sc done dth lv st ct hs
                 db spd gm pz sts rc].
  exec. unfold streamAt. game_fields. auto.
Qed.

Lemma restartLevel_facts env g :
  let r := restartLevel env g in
  filter isConstruction (traceOf r)
  = [LevelGenerated (currentLevelNumber g); PlayerCreated]
  /\ currentLevel (stateOf r)
     = Level.generateLevel (streamAt env g) (currentLevelNumber g)
  /\ player (stateOf r) = freshPlayer (currentLevel (stateOf r)).
Proof.
  unfold restartLevel. cbv zeta.
  rewrite bind_emit, bind_modify.
  cbn [traceOf stateOf valueOf fst snd filter isConstruction].
  apply (regenerateCurrentLevel_facts env (set_paused false g)).
Qed.

Lemma handleInput_KeyR_facts env g :
  gameStarted g = true -> paused g = false ->
  let r := handleInput env KeyR true g in
  filter isConstruction (traceOf r)
  = [LevelGenerated (currentLevelNumber g); PlayerCreated]
  /\ currentLevel (stateOf r)
     = Level.generateLevel (streamAt env g) (currentLevelNumber g)
  /\ player (stateOf r) = freshPlayer (currentLevel (stateOf r)).
Proof.
  intros Hs Hp. unfold handleInput. cbv zeta.
  rewrite bind_get, Hs, Hp. cbn [andb negb when].
  apply regenerateCurrentLevel_facts.
Qed.

(** C10, as stated, fails.  On a death that leaves lives, no level is
    generated: the level of the game is the one it was, and only the player
    is new. *)
Lemma death_keeps_the_level :
  let r := handlePlayerDeath exampleState in
  mode exampleState = Endless /\ lives exampleState = Finite 3
  /\ valueOf r = true
  /\ lives (stateOf r) = Finite 2
  /\ currentLevel (stateOf r) = currentLevel exampleState
  /\ (forall n, ~ In (LevelGenerated n) (traceOf r))
  /\ In PlayerCreated (traceOf r).
Proof.
  intro r.
  destruct (handlePlayerDeath_facts exampleState)
    as [Hv [_ [Hc [_ [_ [Hl _]]]]]].
  fold r in Hv, Hc, Hl.
  assert (Hs : survives exampleState = true) by reflexivity.
  rewrite Hs in Hv, Hc.
  split; [reflexivity|]. split; [reflexivity|]. split; [exact Hv|].
  split; [|split; [exact Hl|split]].
  - unfold r, handlePlayerDeath, createPlayer, updateUI, when, exampleState.
    exec. reflexivity.
  - intros n Hin.
    assert (Hf : In (LevelGenerated n) (filter isConstruction (traceOf r)))
      by (apply filter_In; split; [exact Hin|reflexivity]).
    rewrite Hc in Hf. destruct Hf as [Hf|[]]. discriminate.
  - assert (Hf : In PlayerCreated (filter isConstruction (traceOf r)))
      by (rewrite Hc; left; reflexivity).
    apply filter_In in Hf. tauto.
Qed.

(** C10 (amended).  A restart (pause menu or R key) and the completion of a
    level that does not end a speedrun generate a new level and create a new
    player at its start; a death that leaves lives creates a new player at
    the start of the current level and keeps that level as it is. *)
Theorem level_transitions env g :
  (let r := restartLevel env g in
   filter isConstruction (traceOf r)
   = [LevelGenerated (currentLevelNumber g); PlayerCreated]
   /\ currentLevel (stateOf r)
      = Level.generateLevel (streamAt env g) (currentLevelNumber g)
   /\ player (stateOf r) = freshPlayer (currentLevel (stateOf r)))
  /\ (gameStarted g = true -> paused g = false ->
      let r := handleInput env KeyR true g in
      filter isConstruction (traceOf r)
      = [LevelGenerated (currentLevelNumber g); PlayerCreated]
      /\ currentLevel (stateOf r)
         = Level.generateLevel (streamAt env g) (currentLevelNumber g)
      /\ player (stateOf r) = freshPlayer (currentLevel (stateOf r)))
  /\ (finishing g = false ->
      let r := handleLevelComplete env g in
      filter isConstruction (traceOf r)
      = [LevelGenerated (nextSeed env g); PlayerCreated]
      /\ currentLevel (stateOf r)
         = Level.generateLevel (streamAt env g) (nextSeed env g)
      /\ player (stateOf r) = freshPlayer (currentLevel (stateOf r)))
  /\ (survives g = true ->
      let r := handlePlayerDeath g in
      filter isConstruction (traceOf r) = [PlayerCreated]
      /\ currentLevel (stateOf r) = currentLevel g
      /\ player (stateOf r) = freshPlayer (currentLevel g)).
Proof.
  split; [apply restartLevel_facts|].
  split; [apply handleInput_KeyR_facts|].
  split.
  - intro Hf.
    destruct (handleLevelComplete_facts env g) as [_ [_ [_ [_ [_ H]]]]].
    exact (H Hf).
  - intro Hs.
    destruct (handlePlayerDeath_facts g) as [_ [_ [Hc [_ [_ [Hl Hp]]]]]].
    rewrite Hs in Hc. auto.
Qed.

Lemma level_transitions_witness :
  (gameStarted exampleState = true /\ paused exampleState = false
   /\ finishing exampleState = false /\ survives exampleState = true)
  /\ currentLevel (stateOf (handleInput exampleEnv KeyR true exampleState))
     = Level.generateLevel (streamAt exampleEnv exampleState) 1
  /\ currentLevel (stateOf (handleLevelComplete exampleEnv exampleState))
     = Level.generateLevel (streamAt exampleEnv exampleState) 2
  /\ currentLevel (stateOf (handlePlayerDeath exampleState))
     = currentLevel exampleState.
Proof.
  assert (H1 : gameStarted exampleState = true) by reflexivity.
  assert (H2 : paused exampleState = false) by reflexivity.
  assert (H3 : finishing exampleState = false) by reflexivity.
  assert (H4 : survives exampleState = true) by reflexivity.
  destruct (level_transitions exampleEnv exampleState) as [_ [Hk [Hc Hd]]].
  split; [auto|]. split; [|split].
  - exact (proj1 (proj2 (Hk H1 H2))).
  - exact (proj1 (proj2 (Hc H3))).
  - exact (proj1 (proj2 (Hd H4))).
Defined.

(* ------------------------------------------------------------------ *)
(** ** The generator does not depend on [Math.random] *)

Lemma genRel_bind {A B} (relA : A -> A -> Prop) (relB : B -> B -> Prop)
  (m1 m2 : Gen A) (k1 k2 : A -> Gen B) :
  genRel relA m1 m2 ->
  (forall a1 a2, relA a1 a2 -> genRel relB (k1 a1) (k2 a2)) ->
  genRel relB (GenMonad.bind m1 k1) (GenMonad.bind m2 k2).
Proof.
  intros Hm Hk s. unfold GenMonad.bind.
  destruct (Hm s) as [Ha Hs]. rewrite Hs. apply Hk. exact Ha.
Qed.

Lemma genRel_bind_same {A B} (relB : B -> B -> Prop)
  (m : Gen A) (k1 k2 : A -> Gen B) :
  (forall a, genRel relB (k1 a) (k2 a)) ->
  genRel relB (GenMonad.bind m k1) (GenMonad.bind m k2).
Proof. intros Hk s. unfold GenMonad.bind. apply Hk. Qed.

Lemma blackHoleValid_bodies planets gx gy start bhs1 bhs2 x y :
  sameBodies bhs1 bhs2 ->
  Level.blackHoleValid planets gx gy start bhs1 x y
  = Level.blackHoleValid planets gx gy start bhs2 x y.
Proof.
  intro H. unfold Level.blackHoleValid. f_equal.
  revert bhs2 H. induction bhs1 as [|a l1 IH]; intros [|b l2] H;
    try discriminate; [reflexivity|].
  unfold sameBodies in H. cbn [map] in H.
  assert (Hl : sameBodies l1 l2)
    by (unfold sameBodies; injection H; intros; assumption).
  assert (Hx : BlackHole.x a = BlackHole.x b)
    by (injection H; intros; assumption).
  assert (Hy : BlackHole.y a = BlackHole.y b)
    by (injection H; intros; assumption).
  cbn [forallb]. rewrite (IH l2 Hl).
  rewrite Hx, Hy. reflexivity.
Qed.

Lemma sampleBlackHole_bodies planets gx gy start bhs1 bhs2 attempts :
  sameBodies bhs1 bhs2 ->
  forall s,
    Level.sampleBlackHole planets gx gy start bhs1 attempts s
    = Level.sampleBlackHole planets gx gy start bhs2 attempts s.
Proof.
  intro H. induction attempts as [|n IH]; intro s; [reflexivity|].
  cbn [Level.sampleBlackHole]. unfold GenMonad.bind.
  rewrite (blackHoleValid_bodies planets gx gy start bhs1 bhs2 _ _ H).
  destruct (Level.blackHoleValid _ _ _ _ _ _ _); [reflexivity|apply IH].
Qed.

Lemma addBlackHoles_bodies mr1 mr2 planets gx gy start count :
  forall bhs1 bhs2, sameBodies bhs1 bhs2 ->
    genRel sameBodies
      (Level.addBlackHoles mr1 planets gx gy start count bhs1)
      (Level.addBlackHoles mr2 planets gx gy start count bhs2).
Proof.
  induction count as [|n IH]; intros bhs1 bhs2 H s.
  - cbn. auto.
  - cbn [Level.addBlackHoles]. unfold GenMonad.bind.
    rewrite (sampleBlackHole_bodies planets gx gy start bhs1 bhs2 50 H s).
    destruct (Level.sampleBlackHole planets gx gy start bhs2 50 s)
      as [[[x y]|] s'] ; cbn [fst snd].
    + apply IH.
      unfold sameBodies. rewrite !map_app, H. reflexivity.
    + apply IH. exact H.
Qed.

Ltac gen_peel_with tac :=
  repeat first
    [ tac
    | progress cbv zeta
    | apply genRel_bind_same; intro
    | match goal with
      | |- genRel _ (match ?X with _ => _ end) (match ?X with _ => _ end) =>
          destruct X
      | |- genRel _ (let (_, _) := ?X in _) (let (_, _) := ?X in _) =>
          destruct X
      end ].

Lemma finalize_physics mr1 mr2 levelNumber config planets :
  genRel samePhysics
    (Level._finalizeLevelGeneration mr1 levelNumber config planets)
    (Level._finalizeLevelGeneration mr2 levelNumber config planets).
Proof.
  unfold Level._finalizeLevelGeneration. gen_peel_with fail;
  (eapply genRel_bind;
   [ apply addBlackHoles_bodies; reflexivity
   | intros b1 b2 Hb s; cbn [GenMonad.ret fst snd]; split; [|reflexivity];
     unfold samePhysics, physical, Level.setBlackHoles; cbn; rewrite Hb;
     reflexivity ]).
Qed.

Lemma archetype_physics mr1 mr2 levelNumber config :
  genRel samePhysics
    (Level._generateByArchetype mr1 levelNumber config)
    (Level._generateByArchetype mr2 levelNumber config).
Proof.
  unfold Level._generateByArchetype.
  destruct (cfgArchetype config);
    unfold Level._generateSimple, Level._generateBinarySystem,
      Level._generateGauntlet, Level._generateVoid, Level._generateMaze,
      Level._generateGiant, Level._generatePrecision, Level._generateSlingshot,
      Level._generateChaos;
    gen_peel_with ltac:(idtac;
      match goal with
      | |- genRel _ (Level._finalizeLevelGeneration _ _ _ _) _ =>
          apply finalize_physics
      end).
Qed.

Lemma generate_physics mr1 mr2 levelNumber :
  genRel samePhysics (Level.generate mr1 levelNumber)
                     (Level.generate mr2 levelNumber).
Proof.
  unfold Level.generate. apply genRel_bind_same. intro config.
  eapply genRel_bind; [apply archetype_physics|].
  intros l1 l2 H s. cbn [GenMonad.ret fst snd]. split; [|reflexivity].
  unfold samePhysics, physical in *. cbn.
  injection H as Hp Hs Hg Hr Hb _ _ Hgoal.
  rewrite Hp, Hs, Hg, Hr, Hb, Hgoal. reflexivity.
Qed.

(** C1.  Two calls of [Level.generateLevel] with the same level number give
    the same level, whatever [Math.random] returns and whatever the state of
    the game when the call is made: same planets (positions, radii, gravity
    strengths), same start, same goal, same black holes (positions, radii);
    only the vortex particles of the black holes, drawn from [Math.random],
    may differ. *)
Theorem generateLevel_deterministic levelNumber :
  (forall mr1 mr2,
     physical (Level.generateLevel mr1 levelNumber)
     = physical (Level.generateLevel mr2 levelNumber))
  /\ (forall env1 env2 g1 g2,
        physical (valueOf (generateLevel env1 levelNumber g1))
        = physical (valueOf (generateLevel env2 levelNumber g2))).
Proof.
  assert (H : forall mr1 mr2,
     physical (Level.generateLevel mr1 levelNumber)
     = physical (Level.generateLevel mr2 levelNumber)).
  { intros mr1 mr2. unfold Level.generateLevel.
    apply (generate_physics mr1 mr2 levelNumber). }
  split; [exact H|].
  intros env1 env2 g1 g2. apply H.
Qed.

(* ------------------------------------------------------------------ *)
(** ** Spacing of the planets placed by rejection sampling *)

Lemma spaced_sym k a b : spaced k a b -> spaced k b a.
Proof.
  unfold spaced, distance. intro H.
  replace ((Planet.x b - Planet.x a) * (Planet.x b - Planet.x a)
           + (Planet.y b - Planet.y a) * (Planet.y b - Planet.y a))
    with ((Planet.x a - Planet.x b) * (Planet.x a - Planet.x b)
          + (Planet.y a - Planet.y b) * (Planet.y a - Planet.y b)) by ring.
  lra.
Qed.

Lemma farEnough_spaced spacing radius x y strength planets :
  Level.farEnough spacing radius x y planets = true ->
  forall e, In e planets -> spaced spacing (Planet.mk radius x y strength) e.
Proof.
  unfold Level.farEnough. intros H e He.
  rewrite forallb_forall in H. specialize (H e He). cbv zeta in H.
  match type of H with context [?a <? ?b] => destruct (ltb_spec a b) end;
    [discriminate|].
  unfold spaced, distance. cbn [Planet.radius Planet.x Planet.y]. lra.
Qed.

Lemma sample_farEnough drawRadius inset spacing planets attempts :
  forall s radius x y,
    fst (Level.sample drawRadius inset spacing planets attempts s)
    = Some (radius, x, y) ->
    Level.farEnough spacing radius x y planets = true.
Proof.
  induction attempts as [|n IH]; intros s radius x y H.
  - discriminate.
  - cbn [Level.sample] in H. unfold GenMonad.bind in H.
    match type of H with context [if ?c then _ else _] =>
      destruct c eqn:Hc end.
    + cbn [GenMonad.ret fst] in H. injection H as <- <- <-. exact Hc.
    + eapply IH. exact H.
Qed.

Lemma pairwiseSpaced_nil k : pairwiseSpaced k [].
Proof. intros i j a b _ H. destruct i; discriminate. Qed.

Lemma pairwiseSpaced_one k p : pairwiseSpaced k [p].
Proof.
  intros i j a b Hij Hi Hj.
  destruct i as [|[|i]]; destruct j as [|[|j]]; try discriminate.
  contradiction.
Qed.

Lemma pairwiseSpaced_snoc k planets p :
  pairwiseSpaced k planets ->
  (forall e, In e planets -> spaced k p e) ->
  pairwiseSpaced k (planets ++ [p]).
Proof.
  intros Hl Hp i j a b Hij Hi Hj.
  assert (Hcase : forall n c, nth_error (planets ++ [p]) n = Some c ->
            (n < length planets /\ nth_error planets n = Some c)%nat
            \/ (n = length planets /\ c = p)).
  { intros n c Hn.
    destruct (Nat.lt_ge_cases n (length planets)) as [Hlt|Hge].
    - left. split; [assumption|]. rewrite nth_error_app1 in Hn; assumption.
    - right. rewrite nth_error_app2 in Hn by assumption.
      destruct (n - length planets)%nat as [|m] eqn:Hm.
      + cbn in Hn. injection Hn as <-. split; [lia|reflexivity].
      + cbn in Hn. destruct m; discriminate. }
  destruct (Hcase i a Hi) as [[_ Ha]|[Hia ->]];
    destruct (Hcase j b Hj) as [[_ Hb]|[Hjb ->]].
  - exact (Hl i j a b Hij Ha Hb).
  - apply spaced_sym, Hp. eapply nth_error_In; eassumption.
  - apply Hp. eapply nth_error_In; eassumption.
  - exfalso. lia.
Qed.

Lemma placeOne_spaced drawRadius inset k planets s :
  pairwiseSpaced k planets ->
  pairwiseSpaced k (fst (Level.placeOne drawRadius inset k planets s)).
Proof.
  intro H. unfold Level.placeOne, GenMonad.bind.
  destruct (fst (Level.sample drawRadius inset k planets 100 s))
    as [[[radius x] y]|] eqn:Hs; cbn [GenMonad.ret fst].
  - apply pairwiseSpaced_snoc; [assumption|].
    apply farEnough_spaced. eapply sample_farEnough. exact Hs.
  - assumption.
Qed.

Lemma placeMany_spaced drawRadius inset k count :
  forall planets s,
    pairwiseSpaced k planets ->
    pairwiseSpaced k (fst (Level.placeMany drawRadius inset k count planets s)).
Proof.
  induction count as [|n IH]; intros planets s H.
  - exact H.
  - cbn [Level.placeMany]. unfold GenMonad.bind. apply IH.
    apply placeOne_spaced. exact H.
Qed.

Lemma chaosOne_spaced lo hi k planets s :
  pairwiseSpaced k planets ->
  pairwiseSpaced k (fst (Level.chaosOne lo hi k planets s)).
Proof.
  intro H. unfold Level.chaosOne, GenMonad.bind.
  destruct (fst (Level.sample (Level.drawRadiusFloor lo (hi - lo)) 15 k
                   planets 100 s)) as [[[radius x] y]|] eqn:Hs;
    cbn [GenMonad.ret fst].
  - apply pairwiseSpaced_snoc; [assumption|].
    apply farEnough_spaced. eapply sample_farEnough. exact Hs.
  - assumption.
Qed.

Lemma chaosLoop_spaced lo hi k count :
  forall planets s,
    pairwiseSpaced k planets ->
    pairwiseSpaced k (fst (Level.chaosLoop lo hi k count planets s)).
Proof.
  induction count as [|n IH]; intros planets s H.
  - exact H.
  - cbn [Level.chaosLoop]. unfold GenMonad.bind. apply IH.
    apply chaosOne_spaced. exact H.
Qed.

Lemma finalize_planets mr levelNumber config planets s :
  Level.planets (fst (Level._finalizeLevelGeneration mr levelNumber config
                        planets s))
  = match planets with
    | [] => [Planet.mk 30 (CANVAS_WIDTH / 2) (CANVAS_HEIGHT / 2) 1]
    | _ => planets
    end.
Proof.
  unfold Level._finalizeLevelGeneration, GenMonad.bind. cbv zeta.
  repeat match goal with
         | |- context [let (_, _) := ?X in _] => destruct X
         end.
  reflexivity.
Qed.

Lemma finalize_spaced mr levelNumber config planets s k :
  pairwiseSpaced k planets ->
  pairwiseSpaced k
    (Level.planets (fst (Level._finalizeLevelGeneration mr levelNumber config
                           planets s))).
Proof.
  intro H. rewrite finalize_planets. destruct planets.
  - apply pairwiseSpaced_one.
  - exact H.
Qed.

Lemma archetype_spaced mr levelNumber config s k :
  spacingFactor (cfgArchetype config) = Some k ->
  pairwiseSpaced (minSpacing config * k)
    (Level.planets (fst (Level._generateByArchetype mr levelNumber config s))).
Proof.
  unfold Level._generateByArchetype.
  destruct (cfgArchetype config); cbn [spacingFactor]; intro H;
    try discriminate; injection H as <-;
    unfold Level._generateSimple, Level._generateMaze, Level._generateGiant,
      Level._generatePrecision, Level._generateChaos;
    destruct (planetCount config) as [pc0 pc1];
    destruct (sizeRange config) as [lo hi];
    unfold GenMonad.bind; cbv zeta; cbn [fst snd];
    apply finalize_spaced;
    rewrite ?Rmult_1_r;
    first [ apply placeMany_spaced | apply chaosLoop_spaced ];
    first [ apply pairwiseSpaced_nil | apply pairwiseSpaced_one ].
Qed.

Lemma generateLevel_archetype mr levelNumber :
  Level.archetype (Level.generateLevel mr levelNumber)
  = cfgArchetype (tierOf levelNumber).
Proof. reflexivity. Qed.

Lemma generateLevel_planets mr levelNumber :
  Level.planets (Level.generateLevel mr levelNumber)
  = Level.planets
      (fst (Level._generateByArchetype mr levelNumber (tierOf levelNumber)
              (snd (Level.tierConfig levelNumber (mkGen levelNumber 0))))).
Proof. reflexivity. Qed.

Lemma goalCollides_false goalRadius minBuffer gx gy planets :
  Level.goalCollides goalRadius minBuffer gx gy planets = false ->
  forall planet, In planet planets ->
    Planet.radius planet + goalRadius + minBuffer
    <= distance gx gy (Planet.x planet) (Planet.y planet).
Proof.
  unfold Level.goalCollides. intros H planet Hin.
  destruct (Rle_lt_dec (Planet.radius planet + goalRadius + minBuffer)
              (distance gx gy (Planet.x planet) (Planet.y planet)))
    as [Hle|Hlt]; [exact Hle|].
  exfalso.
  assert (Ht : existsb
    (fun planet0 =>
       sqrt ((gx - Planet.x planet0) * (gx - Planet.x planet0)
             + (gy - Planet.y planet0) * (gy - Planet.y planet0))
       <? Planet.radius planet0 + goalRadius + minBuffer) planets = true).
  { apply existsb_exists. exists planet. split; [exact Hin|].
    apply ltb_true. exact Hlt. }
  cbv zeta in H. rewrite H in Ht. discriminate.
Qed.

Lemma rerollGoal_clear goalPlanet goalDistance planets budget :
  forall gx gy s gx' gy',
    fst (Level.rerollGoal goalPlanet goalDistance planets budget gx gy s)
    = (gx', gy', false) ->
    Level.goalCollides 20 40 gx' gy' planets = false.
Proof.
  induction budget as [|n IH]; intros gx gy s gx' gy' H.
  - discriminate.
  - cbn [Level.rerollGoal] in H.
    destruct (Level.goalCollides 20 40 gx gy planets) eqn:Hc.
    + unfold GenMonad.bind in H. eapply IH. exact H.
    + cbn [GenMonad.ret fst] in H. injection H as <- <-. exact Hc.
Qed.

(** The clamp comes after the re-roll loop and can undo its work: a goal
    that clears a planet near the left border is pushed back onto it. *)
Lemma clamp_can_undo_the_clearance :
  let planets := [Planet.mk 45 65 300 1] in
  Level.goalCollides 20 40 (-45) 300 planets = false
  /\ Level.clampGoal (-45) 300 = (50, 300)
  /\ Level.goalCollides 20 40 50 300 planets = true.
Proof.
  intro planets. unfold Level.goalCollides, planets.
  cbn [existsb Planet.x Planet.y Planet.radius].
  replace ((-45 - 65) * (-45 - 65) + (300 - 300) * (300 - 300))
    with (110 * 110) by ring.
  replace ((50 - 65) * (50 - 65) + (300 - 300) * (300 - 300))
    with (15 * 15) by ring.
  rewrite !sqrt_square by lra.
  rewrite ltb_false by lra. rewrite ltb_true by lra.
  split; [reflexivity|]. split; [|reflexivity].
  unfold Level.clampGoal, CANVAS_WIDTH, CANVAS_HEIGHT. cbv zeta.
  f_equal; unfold Rmax, Rmin; repeat destruct (Rle_dec _ _); lra.
Qed.

(** C5 (amended).  In a generated level whose archetype places every planet
    by rejection sampling (simple, giant, precision, maze, chaos), any two
    distinct planets are at least the sum of their radii plus [k] times the
    minimum spacing of the tier apart, [k] being 1 for simple and giant, 1.2
    for precision, 0.7 for maze and 0.8 for chaos. *)
Theorem generated_level_spacing mr levelNumber k :
  spacingFactor (Level.archetype (Level.generateLevel mr levelNumber)) = Some k ->
  pairwiseSpaced (minSpacing (tierOf levelNumber) * k)
    (Level.planets (Level.generateLevel mr levelNumber)).
Proof.
  intro H.
  rewrite generateLevel_archetype in H. rewrite generateLevel_planets.
  apply archetype_spaced. exact H.
Qed.

Lemma generated_level_spacing_witness :
  spacingFactor (Level.archetype (Level.generateLevel (fun _ => 0.5) 1))
  = Some 1
  /\ pairwiseSpaced (minSpacing (tierOf 1) * 1)
       (Level.planets (Level.generateLevel (fun _ => 0.5) 1)).
Proof.
  assert (H1 : spacingFactor
                 (Level.archetype (Level.generateLevel (fun _ => 0.5) 1))
               = Some 1) by reflexivity.
  split; [exact H1|].
  exact (generated_level_spacing (fun _ => 0.5) 1%Z 1 H1).
Defined.

(* ------------------------------------------------------------------ *)
(** ** Level 25: a gauntlet *)

Lemma floor_between (a : R) (z : Z) : IZR z <= a < IZR z + 1 -> Js.floor a = z.
Proof. apply Zfloor_eq. Qed.

Lemma tierConfig_25 :
  Level.tierConfig 25 (mkGen 25 0)
  = (mkConfig (5, 6)%Z (15, 65) 160 0 2 Gauntlet, mkGen 141639 0).
Proof.
  unfold Level.tierConfig.
  change (25 <=? 5)%Z with false. change (25 <=? 15)%Z with false.
  change (25 <=? 30)%Z with true. cbv iota.
  unfold GenMonad.bind, GenMonad.ret, random. cbn [fst snd randSeed mathPos].
  change (lcg 25) with 48542%Z. change (lcg 48542) with 141639%Z.
  rewrite (floor_between (IZR 48542 / 233280 * 2) 0) by lra.
  rewrite (floor_between (IZR 141639 / 233280 * 4) 2) by lra.
  reflexivity.
Qed.

Lemma random_at s :
  random s = (IZR (lcg (randSeed s)) / 233280,
              mkGen (lcg (randSeed s)) (mathPos s)).
Proof. reflexivity. Qed.

Lemma tierOf_25 : tierOf 25 = mkConfig (5, 6)%Z (15, 65) 160 0 2 Gauntlet.
Proof. unfold tierOf. rewrite tierConfig_25. reflexivity. Qed.

Lemma gauntlet_25_planets :
  exists rest,
    Level.planets (Level.generateLevel (fun _ => 0.5) 25)
    = Planet.mk (65 * 0.7) ((0 + 1) / (5 + 1) * (800 - 100) + 50)
                (600 / 2 + (26693 / 233280 - 0.5) * 200)
                (Level.strengthOf (65 * 0.7))
      :: Planet.mk (15 + 110970 / 233280 * (15 * 0.5))
                   ((1 + 1) / (5 + 1) * (800 - 100) + 50)
                   (600 / 2 + (150547 / 233280 - 0.5) * 200)
                   (Level.strengthOf (15 + 110970 / 233280 * (15 * 0.5)))
      :: rest.
Proof.
  rewrite generateLevel_planets, tierOf_25, tierConfig_25.
  cbn [fst snd]. unfold Level._generateByArchetype. cbn [cfgArchetype].
  unfold Level._generateGauntlet, GenMonad.bind. cbv zeta.
  rewrite finalize_planets.
  cbn [planetCount fst snd].
  change (Z.max 5 5) with 5%Z. change (Z.to_nat 5) with 5%nat.
  rewrite (random_at (mkGen 141639 0)). cbn [fst snd randSeed mathPos].
  change (lcg 141639) with 101476%Z.
  rewrite (ltb_true (IZR 101476 / 233280) 0.5) by lra.
  cbn [Level.gauntletLoop sizeRange Nat.even GenMonad.bind GenMonad.ret fst snd
       app].
  rewrite (random_at (mkGen 101476 0)). cbn [fst snd randSeed mathPos].
  change (lcg 101476) with 26693%Z.
  rewrite (random_at (mkGen 26693 0)). cbn [fst snd randSeed mathPos].
  change (lcg 26693) with 110970%Z.
  rewrite (random_at (mkGen 110970 0)). cbn [fst snd randSeed mathPos].
  change (lcg 110970) with 150547%Z.
  change (INR 0) with 0. change (INR 1) with 1.
  unfold CANVAS_WIDTH, CANVAS_HEIGHT.
  eexists. reflexivity.
Qed.

(** C5, as stated, fails.  Level 25 belongs to the medium tier (minimum
    spacing 160) and draws the gauntlet archetype, laid out horizontally; its
    first two planets are about 158 apart, where radii plus spacing make
    about 224. *)
Lemma gauntlet_planets_closer_than_spacing :
  let level := Level.generateLevel (fun _ => 0.5) 25 in
  Level.archetype level = Gauntlet
  /\ minSpacing (tierOf 25) = 160
  /\ exists a b,
       nth_error (Level.planets level) 0 = Some a
       /\ nth_error (Level.planets level) 1 = Some b
       /\ distance (Planet.x a) (Planet.y a) (Planet.x b) (Planet.y b)
          < Planet.radius a + Planet.radius b + minSpacing (tierOf 25).
Proof.
  intro level.
  split; [unfold level; rewrite generateLevel_archetype, tierOf_25; reflexivity|].
  split; [rewrite tierOf_25; reflexivity|].
  destruct gauntlet_25_planets as [rest Hp]. unfold level. rewrite Hp.
  eexists. eexists. split; [reflexivity|]. split; [reflexivity|].
  rewrite tierOf_25. cbn [Planet.x Planet.y Planet.radius minSpacing].
  unfold distance.
  apply Rlt_le_trans with (r2 := 224).
  - rewrite <- (sqrt_square 224) by lra.
    apply sqrt_lt_1_alt. split.
    + match goal with |- 0 <= ?u * ?u + ?v * ?v =>
        pose proof (Rle_0_sqr u); pose proof (Rle_0_sqr v) end.
      unfold Rsqr in *. lra.
    + lra.
  - lra.
Qed.

(* ================================================================== *)
(** * Further properties of the utilities and of the player *)

Lemma wrapCoord_bounds limit v : 0 <= limit -> 0 <= wrapCoord limit v <= limit.
Proof.
  intro Hl. unfold wrapCoord.
  destruct (ltb_spec v 0); [lra|].
  destruct (gtb_spec v limit); lra.
Qed.

Lemma wrapCoord_fixed limit v :
  0 <= limit -> (wrapCoord limit v = v <-> 0 <= v <= limit).
Proof.
  intro Hl. unfold wrapCoord.
  destruct (ltb_spec v 0); [lra|].
  destruct (gtb_spec v limit); lra.
Qed.

(** X1.  [wrapScreenPosition] always returns a position of the canvas,
    leaves exactly the positions of the canvas where they are, and wrapping
    twice is wrapping once. *)
Theorem wrapScreenPosition_in_canvas x y :
  let p := wrapScreenPosition x y in
  inCanvas (fst p) (snd p)
  /\ (p = (x, y) <-> inCanvas x y)
  /\ wrapScreenPosition (fst p) (snd p) = p.
Proof.
  assert (HW : 0 <= CANVAS_WIDTH) by (unfold CANVAS_WIDTH; lra).
  assert (HH : 0 <= CANVAS_HEIGHT) by (unfold CANVAS_HEIGHT; lra).
  cbv zeta. unfold wrapScreenPosition, inCanvas. cbn [fst snd].
  pose proof (wrapCoord_bounds CANVAS_WIDTH x HW) as Bx.
  pose proof (wrapCoord_bounds CANVAS_HEIGHT y HH) as By.
  split; [auto|]. split.
  - split.
    + intro E. injection E as Ex Ey.
      apply wrapCoord_fixed in Ex, Ey; auto.
    + intros [Hx Hy]. f_equal; apply wrapCoord_fixed; auto.
  - f_equal; apply wrapCoord_fixed; auto.
Qed.

(** X2.  After a call of [updatePhysics] that leaves the player in flight,
    the player is on the canvas. *)
Theorem flight_step_stays_in_canvas gameSpeed gravityMultiplier mobile goal
  blackHoles planets keys deltaTime (p : Player.t) :
  let q := fst (Player.updatePhysics gameSpeed gravityMultiplier mobile goal
                  blackHoles planets keys deltaTime p) in
  Player.onPlanet q = false ->
  inCanvas (Player.x q) (Player.y q).
Proof.
  assert (HW : 0 <= CANVAS_WIDTH) by (unfold CANVAS_WIDTH; lra).
  assert (HH : 0 <= CANVAS_HEIGHT) by (unfold CANVAS_HEIGHT; lra).
  cbv zeta. unfold Player.updatePhysics.
  destruct (Player.landing planets p) as [p1 landed].
  assert (Hfree : forall dt,
    inCanvas (Player.x (Player.freeFallStep gravityMultiplier
                (Player.sourcesOf planets goal blackHoles) dt p1))
             (Player.y (Player.freeFallStep gravityMultiplier
                (Player.sourcesOf planets goal blackHoles) dt p1))).
  { intro dt. unfold Player.freeFallStep, Player.wrapStep, wrapScreenPosition,
      inCanvas. cbn [Player.x Player.y].
    split; apply wrapCoord_bounds; assumption. }
  destruct (Player.onPlanet p1) eqn:Hon.
  - destruct (Player.currentPlanet p1) as [planet|].
    + cbn [fst]. unfold Player.onPlanetStep.
      destruct (Player.updateAngularMovement mobile keys
                  (deltaTime * 0.001 * gameSpeed) p1) as [speed angle].
      cbn [Player.onPlanet]. rewrite Hon. discriminate.
    + intros _. apply Hfree.
  - intros _. apply Hfree.
Qed.

Lemma flight_step_stays_in_canvas_witness :
  let p := Player.new 790 300 None in
  let q := fst (Player.updatePhysics 1 4.2
                  (MobileInput.mk false 0 0 10 50 false false 0)
                  (Goal.mk 100 100 20 0.56) [] [] (mkKeys false false) 16 p) in
  Player.onPlanet q = false /\ inCanvas (Player.x q) (Player.y q).
Proof.
  intros p q.
  assert (H : Player.onPlanet q = false) by reflexivity.
  split; [exact H|].
  exact (flight_step_stays_in_canvas 1 4.2
           (MobileInput.mk false 0 0 10 50 false false 0)
           (Goal.mk 100 100 20 0.56) [] [] (mkKeys false false) 16 p H).
Defined.

(* ------------------------------------------------------------------ *)
(** ** Landing in a step *)

Lemma find_ext_eq {A} (f h : A -> bool) (l : list A) :
  (forall a, f a = h a) -> find f l = find h l.
Proof.
  intro H. induction l as [|a l IH]; [reflexivity|].
  cbn [find]. rewrite H, IH. reflexivity.
Qed.

(** With the previous position on the position, the landing test is the
    position test: the swept half has no segment to look at. *)
Lemma shouldLand_at_rest (p : Player.t) (planet : Planet.t) :
  Player.shouldLand (Player.setPrev (Player.x p) (Player.y p) p) planet
  = touches p planet.
Proof.
  unfold Player.shouldLand, touches, Player.setPrev.
  cbn [Player.x Player.y Player.prevX Player.prevY Player.radius].
  rewrite swept_degenerate by reflexivity.
  destruct (_ <=? _); reflexivity.
Qed.

(** A step that finds the player neither in a black hole nor in the goal
    leaves it as the kinetics made it. *)
Lemma evaluate_quiet env g :
  checkBlackHoleCollision (player g) (Level.blackHoles (currentLevel g)) = false ->
  Level.checkGoal (currentLevel g) (player g) = false ->
  player (stateOf (evaluate env g)) = player g.
Proof.
  intros Hd Hg. unfold evaluate. rewrite bind_get, Hd, Hg.
  rewrite !bind_emit. cbn [stateOf fst snd].
  unfold when. rewrite bind_ret, bind_get.
  destruct (updateUI_facts g) as [_ [_ [_ [_ [_ [Hp _]]]]]].
  destruct (mode g); try exact Hp; reflexivity.
Qed.

(** X5.  In a step of the game the landing loop of [updatePhysics] runs on
    a player whose previous position is its position, because [update]
    stores the position before the call: the landing test of a planet is
    then the point test at the position where the step starts (in the exact
    reading and, for a position made of numbers, on doubles), and the swept
    half of the test has no segment to look at.  A player in flight that
    touches a planet lands on the first such planet in level order and runs
    the surface physics in the same call: it ends the step on that planet,
    with no velocity and the jump available, at [planet.radius +
    player.radius + 2] from the centre, and one landing is counted.  A
    player that touches no planet stays in flight and makes a free-fall
    step.  Unless the step ends with a death or the completion of the
    level, this is the player that [update] leaves. *)
Theorem landing_in_a_step env dt g :
  Player.onPlanet (player g) = false ->
  let level := currentLevel g in
  let p := Player.setPrev (Player.x (player g)) (Player.y (player g)) (player g) in
  let mobile := updateMobileInput (mobileInput g) in
  let combinedKeys :=
    mkKeys (left (keys g) || MobileInput.left mobile)
           (right (keys g) || MobileInput.right mobile) in
  let seconds := dt * 0.001 * gameSpeed g in
  let g1 := stateOf (advance env dt g) in
  let q := player g1 in
  (forall planet, Player.shouldLand p planet = touches (player g) planet)
  /\ (forall planetX planetY planetRadius radius x y : PrimFloat.float,
        Binary64.finite x = true -> Binary64.finite y = true ->
        Binary64.shouldLand planetX planetY planetRadius radius x y x y
        = Binary64.pointInCircle x y planetX planetY
            (PrimFloat.add planetRadius radius))
  /\ match find (touches (player g)) (Level.planets level) with
     | Some planet =>
         q = Player.onPlanetStep mobile combinedKeys seconds planet
               (Player.landOn p planet)
         /\ Player.onPlanet q = true /\ Player.currentPlanet q = Some planet
         /\ Player.hasJumped q = false /\ Player.vx q = 0 /\ Player.vy q = 0
         /\ Player.x q
            = Planet.x planet
              + cos (Player.angle q)
                * (Planet.radius planet + Player.radius (player g) + 2)
         /\ Player.y q
            = Planet.y planet
              + sin (Player.angle q)
                * (Planet.radius planet + Player.radius (player g) + 2)
         /\ totalLandings (stats g1) = (totalLandings (stats g) + 1)%Z
     | None =>
         q = Player.freeFallStep (gravityMultiplier g)
               (Player.sourcesOf (Level.planets level) (Level.goal level)
                  (Level.blackHoles level)) seconds p
         /\ Player.onPlanet q = false
         /\ stats g1 = stats g
     end
  /\ (gameStarted g = true -> paused g = false ->
      checkBlackHoleCollision q (Level.blackHoles (currentLevel g1)) = false ->
      Level.checkGoal (currentLevel g1) q = false ->
      player (stateOf (update env dt g)) = q).
Proof.
  intros Hfly level p mobile combinedKeys seconds g1 q.
  split; [intro planet; apply shouldLand_at_rest|].
  split; [exact Binary64Facts.double_shouldLand_at_rest|].
  split.
  2:{ intros Hs Hpz Hd Hg. rewrite (update_running env dt g Hs Hpz).
      rewrite state_bind. apply evaluate_quiet; assumption. }
  destruct (advance_player env dt g) as [Hq [_ [Hstats _]]].
  fold g1 in Hq, Hstats. fold q in Hq.
  unfold movedPlayer in Hq, Hstats.
  fold level mobile combinedKeys p in Hq, Hstats.
  unfold Player.updatePhysics, Player.landing in Hq, Hstats.
  assert (Hp : Player.onPlanet p = false) by exact Hfly.
  rewrite Hp in Hq, Hstats.
  rewrite (find_ext_eq (Player.shouldLand p) (touches (player g)) _
             (shouldLand_at_rest (player g))) in Hq, Hstats.
  destruct (find (touches (player g)) (Level.planets level)) as [planet|].
  - cbn [Player.landOn Player.onPlanet Player.currentPlanet fst snd] in Hq, Hstats.
    fold seconds in Hq.
    split; [exact Hq|].
    rewrite Hq, Hstats. unfold Player.onPlanetStep.
    destruct (Player.updateAngularMovement mobile combinedKeys seconds
                (Player.landOn p planet)) as [speed angle].
    unfold Player.landOn, addLanding, set_stats.
    cbn [Player.onPlanet Player.currentPlanet Player.hasJumped Player.vx
         Player.vy Player.x Player.y Player.angle Player.radius stats
         totalLandings p Player.setPrev].
    repeat split; reflexivity.
  - cbn [fst snd] in Hq, Hstats. rewrite Hp in Hq, Hstats.
    cbn [fst snd] in Hq, Hstats. fold seconds in Hq.
    split; [exact Hq|]. split; [|exact Hstats].
    rewrite Hq. unfold Player.freeFallStep, Player.wrapStep, Player.integrate.
    destruct (wrapScreenPosition _ _). cbn [Player.onPlanet]. exact Hp.
Qed.

Lemma landing_in_a_step_witness :
  let g := touchingState in
  let planet := Planet.mk 35 400 300 1 in
  let q := player (stateOf (advance exampleEnv 16 g)) in
  Player.onPlanet (player g) = false
  /\ find (touches (player g)) (Level.planets (currentLevel g)) = Some planet
  /\ Player.onPlanet q = true /\ Player.currentPlanet q = Some planet
  /\ Player.vx q = 0 /\ Player.vy q = 0.
Proof.
  intros g planet q.
  assert (H : Player.onPlanet (player g) = false) by reflexivity.
  assert (Hf : find (touches (player g)) (Level.planets (currentLevel g))
               = Some planet).
  { unfold g, touchingState, Level.new, Player.new, touches.
    cbn [currentLevel player Level.planets find Planet.x Planet.y Planet.radius
         Player.x Player.y Player.radius].
    rewrite leb_true by lra. reflexivity. }
  pose proof (proj1 (proj2 (proj2 (landing_in_a_step exampleEnv 16 g H)))) as T.
  cbv zeta in T. rewrite Hf in T. fold q in T.
  destruct T as [_ [T1 [T2 [_ [T3 [T4 _]]]]]].
  split; [exact H|]. split; [exact Hf|]. auto.
Defined.

(* ------------------------------------------------------------------ *)
(** ** On the surface of a planet *)

Lemma clamp_bounds base w :
  0 <= base -> - base <= Rmax (- base) (Rmin base w) <= base.
Proof.
  intro Hb. unfold Rmax, Rmin.
  destruct (Rle_dec base w); destruct (Rle_dec _ _); lra.
Qed.

(** X6.  Whatever the inputs and the time step, the angular speed that
    [updateAngularMovement] returns is within the base angular speed, and
    the angle moves by that speed times the time step. *)
Theorem angular_speed_is_clamped mobile keys dt (p : Player.t) :
  0 <= Player.baseAngularSpeed p ->
  let r := Player.updateAngularMovement mobile keys dt p in
  Rabs (fst r) <= Player.baseAngularSpeed p
  /\ Rabs (snd r - Player.angle p) <= Player.baseAngularSpeed p * Rabs dt.
Proof.
  intro Hb. cbv zeta. unfold Player.updateAngularMovement. cbn [fst snd].
  set (w := Rmax _ _).
  assert (Hw : Rabs w <= Player.baseAngularSpeed p).
  { apply Rabs_le. apply clamp_bounds. assumption. }
  split; [assumption|].
  replace (Player.angle p + w * dt - Player.angle p) with (w * dt) by ring.
  rewrite Rabs_mult. apply Rmult_le_compat_r; [apply Rabs_pos|assumption].
Qed.

Lemma angular_speed_is_clamped_witness :
  let p := Player.new 445 300 (Some (Planet.mk 35 400 300 1)) in
  0 <= Player.baseAngularSpeed p
  /\ Rabs (fst (Player.updateAngularMovement
                  (MobileInput.mk false 0 0 10 50 false false 0)
                  (mkKeys false true) 0.016 p))
     <= Player.baseAngularSpeed p.
Proof.
  intro p.
  assert (H : 0 <= Player.baseAngularSpeed p).
  { cbn. pose proof PI_RGT_0. lra. }
  split; [exact H|].
  exact (proj1 (angular_speed_is_clamped
                  (MobileInput.mk false 0 0 10 50 false false 0)
                  (mkKeys false true) 0.016 p H)).
Defined.

Lemma sign_zero : Js.sign 0 = 0.
Proof. unfold Js.sign. rewrite !ltb_false by lra. reflexivity. Qed.

Lemma updateAngularMovement_at_rest mobile keys dt (p : Player.t) :
  left keys = false -> right keys = false ->
  MobileInput.targetSpeed mobile <= 0 ->
  Player.angularSpeed p = 0 -> 0 <= Player.baseAngularSpeed p ->
  Player.updateAngularMovement mobile keys dt p = (0, Player.angle p).
Proof.
  intros Hl Hr Hm Hw Hb.
  unfold Player.updateAngularMovement, Player.targetSpeedOf.
  rewrite Hl, Hr, Hw. cbn [andb].
  unfold Js.gtb. rewrite (ltb_false 0 (MobileInput.targetSpeed mobile) Hm).
  replace (0 - 0) with 0 by ring. rewrite sign_zero.
  assert (E : (if Rabs 0 <? Player.angularAcceleration p * dt then 0
               else 0 + 0 * (Player.angularAcceleration p * dt)) = 0).
  { destruct (_ <? _); ring. }
  rewrite E. rewrite clamp_id by lra.
  f_equal. ring.
Qed.

(** X7.  A player at rest on a planet, with no key held and no joystick
    target, stays where the step puts it: [updatePhysics] keeps the angle,
    the zero angular speed, the velocity and the planet, reports no landing,
    and applying it again changes nothing. *)
Theorem resting_player_stays_put gameSpeed gravityMultiplier mobile goal
  blackHoles planets keys deltaTime (p : Player.t) (planet : Planet.t) :
  Player.onPlanet p = true -> Player.currentPlanet p = Some planet ->
  left keys = false -> right keys = false ->
  MobileInput.targetSpeed mobile <= 0 ->
  Player.angularSpeed p = 0 -> 0 <= Player.baseAngularSpeed p ->
  let step := Player.updatePhysics gameSpeed gravityMultiplier mobile goal
                blackHoles planets keys deltaTime in
  let q := fst (step p) in
  snd (step p) = false
  /\ Player.angle q = Player.angle p /\ Player.angularSpeed q = 0
  /\ Player.vx q = Player.vx p /\ Player.vy q = Player.vy p
  /\ Player.onPlanet q = true /\ Player.currentPlanet q = Some planet
  /\ step q = (q, false).
Proof.
  intros Hon Hcur Hl Hr Hm Hw Hb. cbv zeta.
  assert (Hstep : forall p0, Player.onPlanet p0 = true ->
    Player.currentPlanet p0 = Some planet ->
    Player.angularSpeed p0 = 0 -> 0 <= Player.baseAngularSpeed p0 ->
    Player.updatePhysics gameSpeed gravityMultiplier mobile goal blackHoles
      planets keys deltaTime p0
    = (Player.mk
         (Planet.x planet
          + cos (Player.angle p0) * (Planet.radius planet + Player.radius p0 + 2))
         (Planet.y planet
          + sin (Player.angle p0) * (Planet.radius planet + Player.radius p0 + 2))
         (Player.prevX p0) (Player.prevY p0) (Player.screenWrapped p0)
         (Player.vx p0) (Player.vy p0) true (Some planet) (Player.hasJumped p0)
         (Player.angle p0) (Player.radius p0) 0 (Player.baseAngularSpeed p0)
         (Player.angularAcceleration p0) (Player.angularDeceleration p0)
         (Player.escapeThreshold p0), false)).
  { intros p0 Hon0 Hcur0 Hw0 Hb0.
    unfold Player.updatePhysics, Player.landing. rewrite Hon0, Hon0, Hcur0.
    unfold Player.onPlanetStep.
    rewrite (updateAngularMovement_at_rest mobile keys _ p0 Hl Hr Hm Hw0 Hb0).
    rewrite Hon0, Hcur0. reflexivity. }
  rewrite (Hstep p Hon Hcur Hw Hb). cbn [fst snd].
  cbn [Player.angle Player.angularSpeed Player.vx Player.vy Player.onPlanet
       Player.currentPlanet].
  repeat split.
  rewrite Hstep; [reflexivity|reflexivity|reflexivity|reflexivity|exact Hb].
Qed.

Lemma resting_player_stays_put_witness :
  let planet := Planet.mk 35 400 300 1 in
  let p := Player.new 445 300 (Some planet) in
  let step := Player.updatePhysics 1 4.2
                (MobileInput.mk false 0 0 10 50 false false 0)
                (Goal.mk 100 100 20 0.56) [] [planet] (mkKeys false false) 16 in
  step (fst (step p)) = (fst (step p), false).
Proof.
  intros planet p step.
  assert (Hb : 0 <= Player.baseAngularSpeed p).
  { cbn. pose proof PI_RGT_0. lra. }
  assert (Hm : MobileInput.targetSpeed
                 (MobileInput.mk false 0 0 10 50 false false 0) <= 0)
    by (cbn; lra).
  exact (proj2 (proj2 (proj2 (proj2 (proj2 (proj2 (proj2
    (resting_player_stays_put 1 4.2
       (MobileInput.mk false 0 0 10 50 false false 0)
       (Goal.mk 100 100 20 0.56) [] [planet] (mkKeys false false) 16 p planet
       eq_refl eq_refl eq_refl eq_refl Hm eq_refl Hb)))))))).
Defined.

Lemma on_circle cx cy a d :
  0 <= d -> distance (cx + cos a * d) (cy + sin a * d) cx cy = d.
Proof.
  intro Hd. unfold distance.
  replace ((cx + cos a * d - cx) * (cx + cos a * d - cx)
           + (cy + sin a * d - cy) * (cy + sin a * d - cy))
    with (d * d * ((sin a)² + (cos a)²)) by (unfold Rsqr; ring).
  rewrite sin2_cos2, Rmult_1_r. apply sqrt_square. assumption.
Qed.

(** X8.  After any call of [updatePhysics] that leaves the player on a
    planet, the player is at distance [planet.radius + player.radius + 2]
    from the centre of that planet, in the direction of its angle; its
    radius is unchanged. *)
Theorem surface_distance_after_step gameSpeed gravityMultiplier mobile goal
  blackHoles planets keys deltaTime (p : Player.t) (planet : Planet.t) :
  let q := fst (Player.updatePhysics gameSpeed gravityMultiplier mobile goal
                  blackHoles planets keys deltaTime p) in
  Player.onPlanet q = true -> Player.currentPlanet q = Some planet ->
  0 <= Planet.radius planet + Player.radius p + 2 ->
  distance (Player.x q) (Player.y q) (Planet.x planet) (Planet.y planet)
  = Planet.radius planet + Player.radius p + 2
  /\ Player.x q = Planet.x planet
                  + cos (Player.angle q) * (Planet.radius planet + Player.radius p + 2)
  /\ Player.y q = Planet.y planet
                  + sin (Player.angle q) * (Planet.radius planet + Player.radius p + 2)
  /\ Player.radius q = Player.radius p.
Proof.
  cbv zeta. unfold Player.updatePhysics.
  assert (Hrad : Player.radius (fst (Player.landing planets p)) = Player.radius p).
  { unfold Player.landing. destruct (Player.onPlanet p); [reflexivity|].
    destruct (find _ _); reflexivity. }
  destruct (Player.landing planets p) as [p1 landed]. cbn [fst] in Hrad.
  destruct (Player.onPlanet p1) eqn:Hon.
  - destruct (Player.currentPlanet p1) as [planet1|] eqn:Hcur.
    + cbn [fst]. unfold Player.onPlanetStep.
      destruct (Player.updateAngularMovement mobile keys
                  (deltaTime * 0.001 * gameSpeed) p1) as [speed angle].
      cbn [Player.onPlanet Player.currentPlanet Player.x Player.y Player.angle
           Player.radius].
      intros _ E Hd. rewrite Hcur in E. injection E as ->.
      rewrite Hrad. repeat split. apply on_circle. assumption.
    + cbn [fst]. unfold Player.freeFallStep, Player.wrapStep, Player.integrate.
      cbn [Player.currentPlanet Player.x Player.y]. rewrite Hcur.
      intros _ E. discriminate.
  - cbn [fst]. unfold Player.freeFallStep, Player.wrapStep, Player.integrate.
    cbn [Player.onPlanet Player.x Player.y]. rewrite Hon. discriminate.
Qed.

Lemma surface_distance_after_step_witness :
  let planet := Planet.mk 35 400 300 1 in
  let p := Player.new 445 300 (Some planet) in
  let q := fst (Player.updatePhysics 1 4.2
                  (MobileInput.mk false 0 0 10 50 false false 0)
                  (Goal.mk 100 100 20 0.56) [] [planet] (mkKeys false true) 16 p) in
  distance (Player.x q) (Player.y q) (Planet.x planet) (Planet.y planet)
  = Planet.radius planet + Player.radius p + 2.
Proof.
  intros planet p q.
  assert (Hd : 0 <= Planet.radius planet + Player.radius p + 2) by (cbn; lra).
  exact (proj1 (surface_distance_after_step 1 4.2
                  (MobileInput.mk false 0 0 10 50 false false 0)
                  (Goal.mk 100 100 20 0.56) [] [planet] (mkKeys false true) 16
                  p planet eq_refl eq_refl Hd)).
Defined.

(* ------------------------------------------------------------------ *)
(** ** The touch joystick *)

(** X9.  With a positive dead zone and a positive maximal distance,
    [updateMobileInput] leaves the joystick either neutral (no direction,
    target speed 0) or pointing in exactly one direction, the one of the
    finger, with a target speed in (0, 1]; it changes nothing else, and
    applying it twice is applying it once. *)
Theorem updateMobileInput_range (m : MobileInput.t) :
  0 < MobileInput.deadzone m -> 0 < MobileInput.maxDistance m ->
  let m' := updateMobileInput m in
  ((MobileInput.left m' = false /\ MobileInput.right m' = false
    /\ MobileInput.targetSpeed m' = 0)
   \/ (MobileInput.active m = true
       /\ MobileInput.right m' = (MobileInput.currentX m >? MobileInput.centerX m)
       /\ MobileInput.left m' = negb (MobileInput.right m')
       /\ 0 < MobileInput.targetSpeed m' <= 1))
  /\ updateMobileInput m' = m'.
Proof.
  intros Hd Hmax. cbv zeta. split.
  - unfold updateMobileInput.
    destruct (MobileInput.active m); cbn [negb]; [|left; auto].
    destruct (ltb_spec (Rabs (MobileInput.currentX m - MobileInput.centerX m))
                       (MobileInput.deadzone m)) as [Hin|Hout];
      [left; cbn; auto|].
    right. cbn [MobileInput.left MobileInput.right MobileInput.targetSpeed].
    split; [reflexivity|]. split.
    + unfold Js.gtb.
      destruct (ltb_spec 0 (MobileInput.currentX m - MobileInput.centerX m)),
               (ltb_spec (MobileInput.centerX m) (MobileInput.currentX m));
        try reflexivity; lra.
    + split; [reflexivity|].
      set (d := Rabs (MobileInput.currentX m - MobileInput.centerX m)) in *.
      assert (Hmin : 0 < Rmin d (MobileInput.maxDistance m)
                     <= MobileInput.maxDistance m).
      { unfold Rmin. destruct (Rle_dec d (MobileInput.maxDistance m)); lra. }
      split.
      * apply Rdiv_lt_0_compat; lra.
      * apply Rmult_le_reg_r with (MobileInput.maxDistance m); [assumption|].
        unfold Rdiv. rewrite Rmult_assoc, Rinv_l by lra. lra.
  - unfold updateMobileInput.
    destruct (MobileInput.active m); cbn [negb]; [|reflexivity].
    destruct (Rabs (MobileInput.currentX m - MobileInput.centerX m)
              <? MobileInput.deadzone m) eqn:E.
    + cbn [MobileInput.active MobileInput.currentX MobileInput.centerX
           MobileInput.deadzone MobileInput.maxDistance negb].
      rewrite E. reflexivity.
    + cbn [MobileInput.active MobileInput.currentX MobileInput.centerX
           MobileInput.deadzone MobileInput.maxDistance negb].
      rewrite E. reflexivity.
Qed.

Lemma updateMobileInput_range_witness :
  let m := MobileInput.mk true 130 100 10 50 false false 0 in
  0 < MobileInput.deadzone m /\ 0 < MobileInput.maxDistance m
  /\ updateMobileInput (updateMobileInput m) = updateMobileInput m.
Proof.
  intro m.
  assert (H1 : 0 < MobileInput.deadzone m) by (cbn; lra).
  assert (H2 : 0 < MobileInput.maxDistance m) by (cbn; lra).
  split; [exact H1|]. split; [exact H2|].
  exact (proj2 (updateMobileInput_range m H1 H2)).
Defined.

(* ------------------------------------------------------------------ *)
(** ** Gravity *)

(** X10.  The force of a gravity source never exceeds
    [gravityStrength * GRAVITY_CONSTANT * gravityMultiplier
     / ((radius + 5)^2 + 100)], the value it has on the rim of the zone in
    which it is switched off. *)
Theorem gravity_is_bounded gravityMultiplier s px py :
  0 <= sourceRadius s -> 0 <= sourceStrength s -> 0 <= gravityMultiplier ->
  let f := calculateGravity gravityMultiplier s px py in
  sqrt (vx_ f ^ 2 + vy_ f ^ 2)
  <= sourceStrength s * GRAVITY_CONSTANT * gravityMultiplier
     / ((sourceRadius s + 5) ^ 2 + 100).
Proof.
  intros Hr Hs Hg.
  assert (Hk : 0 <= sourceStrength s * GRAVITY_CONSTANT * gravityMultiplier).
  { unfold GRAVITY_CONSTANT. apply Rmult_le_pos; [|assumption].
    apply Rmult_le_pos; [assumption|lra]. }
  assert (Hf : calculateGravity gravityMultiplier s px py
               = forceLaw (sourceX s) (sourceY s) (sourceRadius s)
                   (sourceStrength s) gravityMultiplier px py)
    by (destruct s; reflexivity).
  cbv zeta. rewrite Hf.
  pose proof (forceLaw_spec (sourceX s) (sourceY s) (sourceRadius s)
                (sourceStrength s) gravityMultiplier px py Hr Hs Hg) as H.
  cbv zeta in H. destruct H as [Hin Hout].
  set (d := distance px py (sourceX s) (sourceY s)) in *.
  assert (Hden : 0 < (sourceRadius s + 5) ^ 2 + 100)
    by (pose proof (pow2_ge_0 (sourceRadius s + 5)); lra).
  destruct (Rlt_le_dec d (sourceRadius s + 5)) as [Hlt|Hge].
  - rewrite (Hin Hlt). cbn [vx_ vy_].
    replace (0 ^ 2 + 0 ^ 2) with 0 by ring. rewrite sqrt_0.
    apply Rmult_le_pos; [assumption|]. left. apply Rinv_0_lt_compat. assumption.
  - destruct (Hout Hge) as [_ [_ Hmag]]. rewrite Hmag.
    unfold Rdiv. apply Rmult_le_compat_l; [assumption|].
    apply Rinv_le_contravar; [assumption|].
    assert ((sourceRadius s + 5) ^ 2 <= d ^ 2).
    { apply pow_incr. lra. }
    lra.
Qed.

Lemma gravity_is_bounded_witness :
  let s := OfPlanet (Planet.mk 35 400 300 1) in
  let f := calculateGravity 4.2 s 500 300 in
  sqrt (vx_ f ^ 2 + vy_ f ^ 2)
  <= sourceStrength s * GRAVITY_CONSTANT * 4.2 / ((sourceRadius s + 5) ^ 2 + 100).
Proof.
  intros s f.
  assert (H1 : 0 <= sourceRadius s) by (cbn; lra).
  assert (H2 : 0 <= sourceStrength s) by (cbn; lra).
  assert (H3 : 0 <= 4.2) by lra.
  exact (gravity_is_bounded 4.2 s 500 300 H1 H2 H3).
Defined.

(* ================================================================== *)
(** * Invariants of the level generator *)

Lemma lcg_range n : (0 <= n)%Z -> (0 <= lcg n < 233280)%Z.
Proof. intro H. unfold lcg. apply Z.rem_bound_pos; lia. Qed.

(** X11.  From a non-negative seed, [random] returns a number of [0, 1) and
    leaves a seed of [0, 233280); the value only depends on the seed. *)
Theorem random_in_unit_interval (s : GenState) :
  (0 <= randSeed s)%Z ->
  0 <= fst (random s) < 1
  /\ (0 <= randSeed (snd (random s)) < 233280)%Z
  /\ fst (random s) = IZR (randSeed (snd (random s))) / 233280
  /\ mathPos (snd (random s)) = mathPos s.
Proof.
  intro H. rewrite random_at. cbn [fst snd randSeed mathPos].
  pose proof (lcg_range _ H) as [H0 H1].
  apply IZR_le in H0. apply IZR_lt in H1.
  repeat split; try lia; try (apply lcg_range; assumption).
  - apply Rmult_le_pos; [assumption|]. left. apply Rinv_0_lt_compat. lra.
  - apply Rmult_lt_reg_r with 233280; [lra|].
    unfold Rdiv. rewrite Rmult_assoc, Rinv_l by lra. lra.
Qed.

Lemma random_in_unit_interval_witness :
  0 <= fst (random (mkGen 25 0)) < 1.
Proof.
  assert (H : (0 <= randSeed (mkGen 25 0))%Z) by (cbn; lia).
  exact (proj1 (random_in_unit_interval (mkGen 25 0) H)).
Defined.

Lemma genPost_random : genPost random (fun r => 0 <= r < 1).
Proof.
  intros s Hs. rewrite random_at. cbn [fst snd]. unfold seedOk in *.
  cbn [randSeed].
  pose proof (lcg_range _ Hs) as [H0 H1].
  split; [|assumption].
  apply IZR_le in H0. apply IZR_lt in H1. split.
  - apply Rmult_le_pos; [assumption|]. left. apply Rinv_0_lt_compat. lra.
  - apply Rmult_lt_reg_r with 233280; [lra|].
    unfold Rdiv. rewrite Rmult_assoc, Rinv_l by lra. lra.
Qed.

Lemma genPost_ret {A} (a : A) (P : A -> Prop) : P a -> genPost (GenMonad.ret a) P.
Proof. intros H s Hs. split; assumption. Qed.

Lemma genPost_bind {A B} (m : Gen A) (k : A -> Gen B) (P : A -> Prop)
  (Q : B -> Prop) :
  genPost m P -> (forall a, P a -> genPost (k a) Q) ->
  genPost (GenMonad.bind m k) Q.
Proof.
  intros Hm Hk s Hs. unfold GenMonad.bind.
  destruct (Hm s Hs) as [Ha Hs']. exact (Hk _ Ha _ Hs').
Qed.

Lemma genPost_weaken {A} (m : Gen A) (P Q : A -> Prop) :
  genPost m P -> (forall a, P a -> Q a) -> genPost m Q.
Proof. intros Hm HPQ s Hs. destruct (Hm s Hs). split; auto. Qed.

Lemma genPost_takeMath n : genPost (takeMath n) (fun _ => True).
Proof. intros s Hs. split; [exact I|exact Hs]. Qed.

Ltac gen_random r Hr :=
  eapply genPost_bind; [apply genPost_random | intros r Hr; cbv beta].

Lemma floor_range (a : R) (n : Z) :
  0 <= a < IZR n -> (0 <= Js.floor a < n)%Z.
Proof.
  intros [H0 H1]. unfold Js.floor.
  pose proof (Zfloor_bound a) as [Hl Hu]. split.
  - apply Zfloor_lub. exact H0.
  - apply lt_IZR. lra.
Qed.

Lemma floor_nonneg_le (a : R) : 0 <= a -> 0 <= IZR (Js.floor a) <= a.
Proof.
  intro H. unfold Js.floor. pose proof (Zfloor_bound a) as [Hl Hu].
  split; [|assumption].
  apply IZR_le. apply Zfloor_lub. exact H.
Qed.

Lemma arrayGet_in (arr : list Archetype) (k : Z) :
  (0 <= k < Z.of_nat (length arr))%Z -> In (arrayGet arr k) arr.
Proof.
  intros [H0 H1]. unfold arrayGet.
  destruct (Z.ltb_spec k 0); [lia|].
  apply nth_In. lia.
Qed.

Lemma tierConfig_post levelNumber :
  genPost (Level.tierConfig levelNumber)
          (fun c => configOk c /\ In (cfgArchetype c) (tierArchetypes levelNumber)
                    /\ ((levelNumber <= 50)%Z -> blackHoleCount c = 0%Z)
                    /\ ((levelNumber <= 5)%Z ->
                        planetCount c = (3, 4)%Z /\ sizeRange c = (25, 45)
                        /\ minSpacing c = 120)).
Proof.
  unfold Level.tierConfig, tierArchetypes, configOk.
  destruct (Z.leb_spec levelNumber 5) as [L5|L5].
  { apply genPost_ret. cbn. repeat split; try lia; try lra. auto. }
  destruct (Z.leb_spec levelNumber 15) as [L15|L15].
  { gen_random r1 Hr1. gen_random r2 Hr2. apply genPost_ret. cbn.
    repeat split; try lia; try lra;
      try (destruct (r1 <? 0.5); lia).
    destruct (r2 <? 0.7); auto. }
  destruct (Z.leb_spec levelNumber 30) as [L30|L30].
  { gen_random r1 Hr1. gen_random r2 Hr2. apply genPost_ret.
    cbn [planetCount sizeRange minSpacing blackHoleCount goalHops cfgArchetype
         fst snd].
    assert (0 <= Js.floor (r1 * 2) < 2)%Z by (apply floor_range; lra).
    repeat split; try lia; try lra.
    apply arrayGet_in. apply floor_range. cbn. lra. }
  destruct (Z.leb_spec levelNumber 50) as [L50|L50].
  { gen_random r1 Hr1. gen_random r2 Hr2. apply genPost_ret.
    cbn [planetCount sizeRange minSpacing blackHoleCount goalHops cfgArchetype
         fst snd].
    assert (0 <= Js.floor (r1 * 2) < 2)%Z by (apply floor_range; lra).
    repeat split; try lia; try lra.
    apply arrayGet_in. apply floor_range. cbn. lra. }
  destruct (Z.leb_spec levelNumber 75) as [L75|L75].
  { gen_random r0 Hr0. gen_random r1 Hr1. gen_random r2 Hr2. apply genPost_ret.
    cbn [planetCount sizeRange minSpacing blackHoleCount goalHops cfgArchetype
         fst snd].
    assert (0 <= Js.floor (r1 * 2) < 2)%Z by (apply floor_range; lra).
    repeat split; try lia; try lra; try (destruct (r0 <? 0.3); lia).
    apply arrayGet_in. apply floor_range. cbn. lra. }
  gen_random r1 Hr1. gen_random r2 Hr2. apply genPost_ret.
  cbn [planetCount sizeRange minSpacing blackHoleCount goalHops cfgArchetype
       fst snd].
  assert (0 <= Js.floor (r1 * 3) < 3)%Z by (apply floor_range; lra).
  assert (1 <= Js.floor (IZR levelNumber / 50))%Z.
  { unfold Js.floor. apply Zfloor_lub.
    assert (76 <= IZR levelNumber) by (apply IZR_le; lia). lra. }
  repeat split; try lia; try lra.
  apply arrayGet_in. apply floor_range. cbn. lra.
Qed.

Lemma strengthOf_pos radius : 0 < radius -> 0 < Level.strengthOf radius.
Proof.
  intro H. unfold Level.strengthOf. apply pow_lt.
  apply Rdiv_lt_0_compat; lra.
Qed.

Lemma drawRadiusFloor_post lo width :
  0 <= width ->
  genPost (Level.drawRadiusFloor lo width) (fun r => lo <= r <= lo + width).
Proof.
  intro Hw. unfold Level.drawRadiusFloor.
  gen_random r Hr. apply genPost_ret.
  assert (H : 0 <= r * width <= width) by nra.
  pose proof (floor_nonneg_le (r * width) (proj1 H)). lra.
Qed.

Lemma drawRadiusFloorScaled_post lo width factor :
  0 <= width -> 0 <= factor <= 1 ->
  genPost (Level.drawRadiusFloorScaled lo width factor)
          (fun r => lo <= r <= lo + width).
Proof.
  intros Hw Hf. unfold Level.drawRadiusFloorScaled.
  gen_random r Hr. apply genPost_ret.
  assert (H1 : 0 <= r * width <= width) by nra.
  assert (H : 0 <= r * width * factor <= width) by nra.
  pose proof (floor_nonneg_le (r * width * factor) (proj1 H)). lra.
Qed.

(** A candidate of the rejection-sampling loop lies, with its whole disc
    and the inset of the archetype, on the canvas. *)
Lemma sample_post drawRadius inset spacing planets rlo rhi attempts :
  genPost drawRadius (fun r => rlo <= r <= rhi) ->
  0 <= inset -> 2 * rhi + 2 * inset <= CANVAS_HEIGHT ->
  genPost (Level.sample drawRadius inset spacing planets attempts)
    (fun c => match c with
              | Some (radius, x, y) =>
                  rlo <= radius <= rhi
                  /\ radius + inset <= x <= CANVAS_WIDTH - radius - inset
                  /\ radius + inset <= y <= CANVAS_HEIGHT - radius - inset
              | None => True
              end).
Proof.
  intros Hdraw Hi Hfit. unfold CANVAS_HEIGHT in Hfit.
  induction attempts as [|n IH].
  - apply genPost_ret. exact I.
  - cbn [Level.sample].
    eapply genPost_bind; [exact Hdraw|]. intros radius Hrad. cbv beta.
    gen_random rx Hrx. gen_random ry Hry.
    destruct (Level.farEnough _ _ _ _ _); [|exact IH].
    apply genPost_ret. unfold CANVAS_WIDTH, CANVAS_HEIGHT.
    split; [assumption|]. split; nra.
Qed.

Section Placement.

Variables (drawRadius : Gen R) (inset spacing rlo rhi : R).
Variable Q : Planet.t -> Prop.

Hypothesis Hdraw : genPost drawRadius (fun r => rlo <= r <= rhi).
Hypothesis Hinset : 0 <= inset.
Hypothesis Hfit : 2 * rhi + 2 * inset <= CANVAS_HEIGHT.
Hypothesis HQ : forall radius x y,
  rlo <= radius <= rhi ->
  radius + inset <= x <= CANVAS_WIDTH - radius - inset ->
  radius + inset <= y <= CANVAS_HEIGHT - radius - inset ->
  Q (Planet.mk radius x y (Level.strengthOf radius)).

Lemma placeOne_post planets :
  Forall Q planets ->
  genPost (Level.placeOne drawRadius inset spacing planets)
    (fun l => Forall Q l /\ (length l <= S (length planets))%nat).
Proof.
  intro Hp. unfold Level.placeOne.
  eapply genPost_bind;
    [exact (sample_post drawRadius inset spacing planets rlo rhi 100
              Hdraw Hinset Hfit)|].
  intros [[[radius x] y]|] Hc; apply genPost_ret.
  - destruct Hc as [Hr [Hx Hy]]. split.
    + apply Forall_app. split; [assumption|].
      constructor; [|constructor]. apply (HQ radius x y); assumption.
    + rewrite length_app. cbn. lia.
  - split; [assumption|lia].
Qed.

Lemma placeMany_post count :
  forall planets, Forall Q planets ->
  genPost (Level.placeMany drawRadius inset spacing count planets)
    (fun l => Forall Q l /\ (length l <= length planets + count)%nat).
Proof.
  induction count as [|n IH]; intros planets Hp.
  - apply genPost_ret. split; [assumption|lia].
  - cbn [Level.placeMany].
    eapply genPost_bind; [exact (placeOne_post planets Hp)|].
    intros planets' [Hp' Hlen]. cbv beta.
    eapply genPost_weaken; [exact (IH planets' Hp')|].
    intros l [Hl Hn]. split; [assumption|lia].
Qed.

End Placement.

Lemma planetOk_sampled inset radius x y :
  0 <= inset -> 8 <= radius <= 90 ->
  radius + inset <= x <= CANVAS_WIDTH - radius - inset ->
  radius + inset <= y <= CANVAS_HEIGHT - radius - inset ->
  planetOk (Planet.mk radius x y (Level.strengthOf radius)).
Proof.
  intros Hi Hr Hx Hy. unfold planetOk, inCanvas.
  cbn [Planet.radius Planet.x Planet.y Planet.gravityStrength].
  split; [assumption|]. split; [apply strengthOf_pos; lra|].
  lra.
Qed.

Lemma chaosLoop_post lo hi spacing count :
  8 <= lo -> lo <= hi <= 90 ->
  forall planets, Forall planetOk planets ->
  genPost (Level.chaosLoop lo hi spacing count planets)
    (fun l => Forall planetOk l /\ (length l <= length planets + count)%nat).
Proof.
  intros Hlo Hhi.
  induction count as [|n IH]; intros planets Hp.
  - apply genPost_ret. split; [assumption|lia].
  - cbn [Level.chaosLoop]. unfold Level.chaosOne.
    eapply genPost_bind.
    { eapply genPost_bind.
      - apply (sample_post _ 15 spacing planets lo hi 100).
        + eapply genPost_weaken; [apply (drawRadiusFloor_post lo (hi - lo)); lra|].
          cbv beta. intros r Hr. lra.
        + lra.
        + unfold CANVAS_HEIGHT. lra.
      - intros [[[radius x] y]|] Hc.
        + gen_random r Hr. apply genPost_ret.
          instantiate (1 := fun l => Forall planetOk l
                                     /\ (length l <= S (length planets))%nat).
          cbv beta. destruct Hc as [Hrad [Hx Hy]]. split.
          * apply Forall_app. split; [assumption|].
            constructor; [|constructor].
            unfold planetOk, inCanvas.
            cbn [Planet.radius Planet.x Planet.y Planet.gravityStrength].
            split; [lra|]. split; [|lra].
            apply Rmult_lt_0_compat; [apply strengthOf_pos; lra|lra].
          * rewrite length_app. cbn. lia.
        + apply genPost_ret. split; [assumption|lia]. }
    intros planets' [Hp' Hlen]. cbv beta.
    eapply genPost_weaken; [exact (IH planets' Hp')|].
    intros l [Hl Hn]. split; [assumption|lia].
Qed.

Lemma snoc_ok planets p :
  Forall planetOk planets -> planetOk p -> Forall planetOk (planets ++ [p]).
Proof.
  intros Hl Hp. apply Forall_app. split; [assumption|].
  constructor; [assumption|constructor].
Qed.

Lemma gauntletLoop_post config planetCount horizontal :
  configOk config ->
  forall remaining i planets,
    (Z.of_nat i + Z.of_nat remaining <= planetCount)%Z ->
    Forall planetOk planets ->
    genPost (Level.gauntletLoop config planetCount horizontal remaining i planets)
      (fun l => Forall planetOk l
                /\ length l = (length planets + remaining)%nat).
Proof.
  intros [_ [_ [Hlo [Hhi _]]]].
  induction remaining as [|n IH]; intros i planets Hi Hp.
  - apply genPost_ret. split; [assumption|lia].
  - cbn [Level.gauntletLoop].
    destruct (sizeRange config) as [lo hi]. cbn [fst snd] in Hlo, Hhi.
    assert (Ht : 0 < (INR i + 1) / (IZR planetCount + 1) < 1).
    { rewrite INR_IZR_INZ.
      assert (H1 : 0 <= IZR (Z.of_nat i)) by (apply IZR_le; lia).
      assert (H2 : IZR (Z.of_nat i) + 1 <= IZR planetCount).
      { rewrite <- plus_IZR. apply IZR_le. lia. }
      split.
      - apply Rdiv_lt_0_compat; lra.
      - apply Rmult_lt_reg_r with (IZR planetCount + 1); [lra|].
        unfold Rdiv. rewrite Rmult_assoc, Rinv_l by lra. lra. }
    set (t := (INR i + 1) / (IZR planetCount + 1)) in *.
    eapply genPost_bind with (P := fun r => 8 <= r <= 90).
    { destruct (Nat.even i).
      - apply genPost_ret. lra.
      - gen_random r Hr. apply genPost_ret. nra. }
    intros radius Hrad. cbv beta.
    eapply genPost_bind with (P := fun x => 0 <= x <= CANVAS_WIDTH).
    { unfold CANVAS_WIDTH. destruct horizontal.
      - apply genPost_ret. nra.
      - gen_random r Hr. apply genPost_ret. lra. }
    intros x Hx. cbv beta.
    eapply genPost_bind with (P := fun y => 0 <= y <= CANVAS_HEIGHT).
    { unfold CANVAS_HEIGHT. destruct horizontal.
      - gen_random r Hr. apply genPost_ret. lra.
      - apply genPost_ret. nra. }
    intros y Hy. cbv beta.
    eapply genPost_weaken.
    + apply IH; [lia|]. apply snoc_ok; [assumption|].
      unfold planetOk, inCanvas.
      cbn [Planet.radius Planet.x Planet.y Planet.gravityStrength].
      split; [assumption|]. split; [apply strengthOf_pos; lra|]. lra.
    + cbv beta. intros l [Hl Hn]. split; [assumption|].
      rewrite Hn, length_app. cbn. lia.
Qed.

Lemma voidLoop_post config :
  configOk config ->
  forall remaining planets,
    Forall planetOk planets ->
    genPost (Level.voidLoop config remaining planets)
      (fun l => Forall planetOk l
                /\ length l = (length planets + remaining)%nat).
Proof.
  intros [_ [_ [Hlo [Hhi _]]]].
  induction remaining as [|n IH]; intros planets Hp.
  - apply genPost_ret. split; [assumption|lia].
  - cbn [Level.voidLoop].
    destruct (sizeRange config) as [lo hi]. cbn [fst snd] in Hlo, Hhi.
    eapply genPost_bind; [apply (drawRadiusFloor_post lo (hi - lo)); lra|].
    intros radius Hrad. cbv beta.
    gen_random rx Hrx. gen_random ry Hry.
    eapply genPost_weaken.
    + apply IH. apply snoc_ok; [assumption|].
      unfold planetOk, inCanvas, CANVAS_WIDTH, CANVAS_HEIGHT.
      cbn [Planet.radius Planet.x Planet.y Planet.gravityStrength].
      split; [lra|]. split; [apply strengthOf_pos; lra|].
      split; nra.
    + cbv beta. intros l [Hl Hn]. split; [assumption|].
      rewrite Hn, length_app. cbn. lia.
Qed.

Lemma slingshotLoop_post config pathPlanets :
  configOk config ->
  forall remaining i planets,
    Forall planetOk planets ->
    genPost (Level.slingshotLoop config pathPlanets remaining i planets)
      (fun l => Forall planetOk l
                /\ length l = (length planets + remaining)%nat).
Proof.
  intros [_ [_ [Hlo [Hhi _]]]].
  induction remaining as [|n IH]; intros i planets Hp.
  - apply genPost_ret. split; [assumption|lia].
  - cbn [Level.slingshotLoop].
    destruct (sizeRange config) as [lo hi]. cbn [fst snd] in Hlo, Hhi.
    eapply genPost_bind;
      [apply (drawRadiusFloorScaled_post lo (hi - lo) 0.7); lra|].
    intros radius Hrad. cbv beta.
    eapply genPost_weaken.
    + apply IH. apply snoc_ok; [assumption|].
      unfold planetOk, inCanvas.
      cbn [Planet.radius Planet.x Planet.y Planet.gravityStrength].
      split; [lra|]. split; [apply strengthOf_pos; lra|].
      assert (Hmin : Rmin CANVAS_WIDTH CANVAS_HEIGHT = 600).
      { unfold CANVAS_WIDTH, CANVAS_HEIGHT, Rmin.
        destruct (Rle_dec 800 600); lra. }
      rewrite Hmin. unfold CANVAS_WIDTH, CANVAS_HEIGHT.
      pose proof (COS_bound (INR i / (INR pathPlanets - 1) * PI)) as [C1 C2].
      pose proof (SIN_bound (INR i / (INR pathPlanets - 1) * PI)) as [S1 S2].
      lra.
    + cbv beta. intros l [Hl Hn]. split; [assumption|].
      rewrite Hn, length_app. cbn. lia.
Qed.

Lemma pairwise_nil {A} (rel : A -> A -> Prop) : pairwise rel [].
Proof. intros i j a b _ H. destruct i; discriminate. Qed.

Lemma pairwise_snoc {A} (rel : A -> A -> Prop) (l : list A) (p : A) :
  (forall a b, rel a b -> rel b a) ->
  pairwise rel l -> (forall e, In e l -> rel p e) -> pairwise rel (l ++ [p]).
Proof.
  intros Hsym Hl Hp i j a b Hij Hi Hj.
  assert (Hcase : forall n c, nth_error (l ++ [p]) n = Some c ->
            nth_error l n = Some c \/ (n = length l /\ c = p)).
  { intros n c Hn.
    destruct (Nat.lt_ge_cases n (length l)) as [Hlt|Hge].
    - left. rewrite nth_error_app1 in Hn; assumption.
    - right. rewrite nth_error_app2 in Hn by assumption.
      destruct (n - length l)%nat as [|m] eqn:Hm.
      + cbn in Hn. injection Hn as <-. split; [lia|reflexivity].
      + cbn in Hn. destruct m; discriminate. }
  destruct (Hcase i a Hi) as [Ha|[Hia ->]];
    destruct (Hcase j b Hj) as [Hb|[Hjb ->]].
  - exact (Hl i j a b Hij Ha Hb).
  - apply Hsym, Hp. eapply nth_error_In; eassumption.
  - apply Hp. eapply nth_error_In; eassumption.
  - exfalso. lia.
Qed.

Lemma distance_sym ax ay bx by_ : distance ax ay bx by_ = distance bx by_ ax ay.
Proof. unfold distance. f_equal. ring. Qed.

Lemma negb_ltb_true a b : negb (a <? b) = true -> b <= a.
Proof. destruct (ltb_spec a b); [discriminate|lra]. Qed.

Lemma blackHoleValid_clear planets goalX goalY start blackHoles x y :
  Level.blackHoleValid planets goalX goalY start blackHoles x y = true ->
  (forall planet, In planet planets ->
     Planet.radius planet + 80
     <= distance x y (Planet.x planet) (Planet.y planet))
  /\ 100 <= distance x y goalX goalY
  /\ 120 <= distance x y (vx_ start) (vy_ start)
  /\ (forall bh, In bh blackHoles ->
        150 <= distance x y (BlackHole.x bh) (BlackHole.y bh)).
Proof.
  unfold Level.blackHoleValid. rewrite !andb_true_iff, !forallb_forall.
  intros [[[Hp Hg] Hs] Hb].
  assert (E : forall a b, a ^ 2 + b ^ 2 = a * a + b * b) by (intros; ring).
  rewrite E in Hg, Hs.
  repeat split.
  - intros planet Hin. apply negb_ltb_true. exact (Hp planet Hin).
  - apply negb_ltb_true. exact Hg.
  - apply negb_ltb_true. exact Hs.
  - intros bh Hin. apply negb_ltb_true. exact (Hb bh Hin).
Qed.

Lemma sampleBlackHole_post planets goalX goalY start blackHoles attempts :
  genPost (Level.sampleBlackHole planets goalX goalY start blackHoles attempts)
    (fun c => match c with
              | Some (x, y) =>
                  50 <= x <= CANVAS_WIDTH - 50 /\ 50 <= y <= CANVAS_HEIGHT - 50
                  /\ Level.blackHoleValid planets goalX goalY start blackHoles x y
                     = true
              | None => True
              end).
Proof.
  induction attempts as [|n IH].
  - apply genPost_ret. exact I.
  - cbn [Level.sampleBlackHole].
    gen_random rx Hrx. gen_random ry Hry.
    destruct (Level.blackHoleValid _ _ _ _ _ _ _) eqn:Hv; [|exact IH].
    apply genPost_ret. unfold CANVAS_WIDTH, CANVAS_HEIGHT.
    split; [lra|]. split; [lra|]. exact Hv.
Qed.

Lemma addBlackHoles_post mr planets goalX goalY start count :
  forall blackHoles,
    Forall (holeOk planets goalX goalY start) blackHoles ->
    pairwise holesApart blackHoles ->
    genPost (Level.addBlackHoles mr planets goalX goalY start count blackHoles)
      (fun l => Forall (holeOk planets goalX goalY start) l
                /\ pairwise holesApart l
                /\ (length l <= length blackHoles + count)%nat).
Proof.
  induction count as [|n IH]; intros blackHoles Hok Hap.
  - apply genPost_ret. repeat split; [assumption|assumption|lia].
  - cbn [Level.addBlackHoles].
    eapply genPost_bind; [apply sampleBlackHole_post|].
    intros [[x y]|] Hc.
    + destruct Hc as [Hx [Hy Hv]].
      apply blackHoleValid_clear in Hv. destruct Hv as [Hp [Hg [Hs Hb]]].
      gen_random r Hr.
      eapply genPost_bind; [apply genPost_takeMath|]. intros pos _.
      eapply genPost_weaken.
      * apply IH.
        -- apply Forall_app. split; [assumption|].
           constructor; [|constructor].
           unfold holeOk, BlackHole.new.
           cbn [BlackHole.radius BlackHole.x BlackHole.y
                BlackHole.gravityStrength].
           assert (0 <= Js.floor (r * 4) < 4)%Z by (apply floor_range; lra).
           assert (0 <= IZR (Js.floor (r * 4)) <= 3).
           { split; apply IZR_le; lia. }
           repeat split; try assumption; try lra.
        -- apply pairwise_snoc; [|assumption|].
           ++ unfold holesApart. intros a b Hab.
              rewrite distance_sym. exact Hab.
           ++ intros e He. unfold holesApart, BlackHole.new.
              cbn [BlackHole.x BlackHole.y]. apply Hb. exact He.
      * cbv beta. intros l [H1 [H2 H3]]. repeat split; try assumption.
        rewrite length_app in H3. cbn in H3. lia.
    + eapply genPost_weaken; [apply (IH blackHoles Hok Hap)|].
      cbv beta. intros l [H1 [H2 H3]]. repeat split; try assumption. lia.
Qed.

Lemma rerollGoal_post goalPlanet goalDistance planets budget :
  forall goalX goalY,
    genPost (Level.rerollGoal goalPlanet goalDistance planets budget goalX goalY)
            (fun _ => True).
Proof.
  induction budget as [|n IH]; intros goalX goalY.
  - apply genPost_ret. exact I.
  - cbn [Level.rerollGoal].
    destruct (Level.goalCollides _ _ _ _ _).
    + gen_random r1 Hr1. gen_random r2 Hr2. apply IH.
    + apply genPost_ret. exact I.
Qed.

Lemma clampGoal_bounds goalX goalY :
  50 <= fst (Level.clampGoal goalX goalY) <= CANVAS_WIDTH - 50
  /\ 50 <= snd (Level.clampGoal goalX goalY) <= CANVAS_HEIGHT - 50.
Proof.
  unfold Level.clampGoal, CANVAS_WIDTH, CANVAS_HEIGHT, Rmax, Rmin.
  cbn [fst snd].
  repeat match goal with |- context [Rle_dec ?a ?b] => destruct (Rle_dec a b) end;
    lra.
Qed.

Lemma finalize_post mr levelNumber config planets0 :
  configOk config ->
  Forall planetOk planets0 -> (length planets0 <= 9)%nat ->
  genPost (Level._finalizeLevelGeneration mr levelNumber config planets0)
          (levelOk (blackHoleCount config)).
Proof.
  intros Hc Hp0 Hlen0.
  unfold Level._finalizeLevelGeneration. cbv zeta.
  set (planets := match planets0 with
                  | [] => [Planet.mk 30 (CANVAS_WIDTH / 2) (CANVAS_HEIGHT / 2) 1]
                  | _ :: _ => planets0
                  end).
  assert (Hp : Forall planetOk planets).
  { unfold planets. destruct planets0; [|assumption].
    constructor; [|constructor].
    unfold planetOk, inCanvas, CANVAS_WIDTH, CANVAS_HEIGHT. cbn. lra. }
  assert (Hlen : (1 <= length planets <= 9)%nat).
  { unfold planets. destruct planets0; cbn in *; lia. }
  assert (Hfirst : exists first, nth_error planets 0 = Some first
                     /\ nth 0 planets (Planet.mk 0 0 0 0) = first
                     /\ 8 <= Planet.radius first).
  { destruct planets as [|first rest]; [cbn in Hlen; lia|].
    exists first. inversion Hp as [|? ? Hf _]. destruct Hf as [[Hr _] _].
    repeat split. assumption. }
  destruct Hfirst as [first [Hnth [Hdef Hrad]]]. rewrite Hdef.
  gen_random r0 Hr0. gen_random r1 Hr1. gen_random r2 Hr2.
  eapply genPost_bind; [apply rerollGoal_post|].
  intros [[gx gy] exhausted] _. cbv beta iota.
  match goal with
  | |- context [let (_, _) := ?X in _] => destruct X as [gx1 gy1]
  end.
  pose proof (clampGoal_bounds gx1 gy1) as Hclamp.
  destruct (Level.clampGoal gx1 gy1) as [gx2 gy2]. cbn [fst snd] in Hclamp.
  eapply genPost_bind.
  { apply addBlackHoles_post.
    - constructor.
    - apply pairwise_nil. }
  intros holes [Hok [Hap Hn]]. cbv beta.
  apply genPost_ret.
  unfold levelOk, Level.setBlackHoles, Level.new.
  cbn [Level.planets Level.startPosition Level.goalPosition Level.goalRadius
       Level.blackHoles Level.goal vx_ vy_] in *.
  split; [assumption|]. split; [assumption|]. split.
  { exists first. split; [assumption|]. apply on_circle. lra. }
  split; [reflexivity|]. split; [reflexivity|].
  split; [tauto|]. split; [tauto|]. split.
  { destruct Hc as [_ [_ [_ [_ [_ [Hb _]]]]]]. cbn in Hn. lia. }
  split; assumption.
Qed.

Lemma archetype_post mr levelNumber config :
  configOk config ->
  genPost (Level._generateByArchetype mr levelNumber config)
          (levelOk (blackHoleCount config)).
Proof.
  intro Hc.
  pose proof Hc as [Hpc [Hpc9 [Hlo [Hhi [Hms _]]]]].
  assert (Hplace : forall inset spacing count planets lo width,
    0 <= inset <= 30 -> 8 <= lo -> 0 <= width -> lo + width <= 90 ->
    Forall planetOk planets ->
    genPost (Level.placeMany (Level.drawRadiusFloor lo width) inset spacing
               count planets)
      (fun l => Forall planetOk l /\ (length l <= length planets + count)%nat)).
  { intros inset spacing count planets lo width Hi Hl Hw Hlw Hp.
    apply (placeMany_post _ inset spacing lo (lo + width)).
    - apply drawRadiusFloor_post. assumption.
    - lra.
    - unfold CANVAS_HEIGHT. lra.
    - intros radius x y Hr Hx Hy. apply (planetOk_sampled inset); lra.
    - assumption. }
  assert (Hfin : forall (m : Gen (list Planet.t)) bound,
    (bound <= 9)%nat ->
    genPost m (fun l => Forall planetOk l /\ (length l <= bound)%nat) ->
    genPost (GenMonad.bind m
               (fun planets =>
                  Level._finalizeLevelGeneration mr levelNumber config planets))
            (levelOk (blackHoleCount config))).
  { intros m bound Hb Hm. eapply genPost_bind; [exact Hm|].
    intros planets [Hp Hlen]. cbv beta.
    apply finalize_post; [assumption|assumption|lia]. }
  unfold Level._generateByArchetype.
  assert (Hsimple : genPost (Level._generateSimple mr levelNumber config)
                            (levelOk (blackHoleCount config))).
  { unfold Level._generateSimple.
    destruct (planetCount config) as [pc0 pc1].
    destruct (sizeRange config) as [lo hi]. cbn [fst snd] in *.
    gen_random r Hr.
    assert (Hk : (0 <= Js.floor (r * IZR (pc1 - pc0 + 1)) < pc1 - pc0 + 1)%Z).
    { apply floor_range.
      assert (1 <= IZR (pc1 - pc0 + 1)) by (apply IZR_le; lia). nra. }
    apply (Hfin _ (Z.to_nat (pc0 + Js.floor (r * IZR (pc1 - pc0 + 1))))); [lia|].
    eapply genPost_weaken; [apply (Hplace 20); try lra; constructor|].
    cbv beta. cbn [length]. intros l [Hl Hn]. split; [assumption|lia]. }
  destruct (cfgArchetype config); try exact Hsimple.
  - (* binary *)
    unfold Level._generateBinarySystem.
    destruct (planetCount config) as [pc0 pc1].
    destruct (sizeRange config) as [lo hi]. cbn [fst snd] in *.
    gen_random r1 Hr1. gen_random r2 Hr2. gen_random r3 Hr3. gen_random r4 Hr4.
    assert (Hk : (0 <= Js.floor (r4 * IZR (pc1 - pc0)) <= pc1 - pc0)%Z).
    { assert (0 <= IZR (pc1 - pc0)) by (apply IZR_le; lia).
      assert (H0 : 0 <= r4 * IZR (pc1 - pc0) <= IZR (pc1 - pc0)) by nra.
      pose proof (floor_nonneg_le _ (proj1 H0)) as [F1 F2].
      split; [apply le_IZR; assumption|].
      apply le_IZR. lra. }
    apply (Hfin _ (2 + Z.to_nat (pc0 - 2 + Js.floor (r4 * IZR (pc1 - pc0))))%nat);
      [lia|].
    eapply genPost_weaken.
    + apply (placeMany_post _ 20 (minSpacing config) lo (lo + (hi - lo))).
      * apply drawRadiusFloorScaled_post; lra.
      * lra.
      * unfold CANVAS_HEIGHT. lra.
      * intros radius x y Hr Hx Hy. apply (planetOk_sampled 20); lra.
      * pose proof (COS_bound (r3 * PI * 2)) as [C1 C2].
        pose proof (SIN_bound (r3 * PI * 2)) as [S1 S2].
        set (c := cos (r3 * PI * 2)) in *. set (s := sin (r3 * PI * 2)) in *.
        assert (Hsep : 0 <= hi * 0.7 + r1 * hi * 0.3
                            + (hi * 0.6 + r2 * hi * 0.3)
                            + minSpacing config * 0.7 <= 325) by nra.
        set (sep := hi * 0.7 + r1 * hi * 0.3 + (hi * 0.6 + r2 * hi * 0.3)
                    + minSpacing config * 0.7) in *.
        assert (Hcs : - sep <= c * sep <= sep) by nra.
        assert (Hss : - sep <= s * sep <= sep) by nra.
        constructor; [|constructor; [|constructor]];
          unfold planetOk, inCanvas, CANVAS_WIDTH, CANVAS_HEIGHT;
          cbn [Planet.radius Planet.x Planet.y Planet.gravityStrength];
          (split; [nra|]); (split; [apply strengthOf_pos; nra|]); lra.
    + cbv beta. cbn [length]. intros l [Hl Hn]. split; [assumption|lia].
  - (* gauntlet *)
    unfold Level._generateGauntlet.
    gen_random r Hr.
    apply (Hfin _ (Z.to_nat (Z.max 5 (fst (planetCount config))))); [lia|].
    eapply genPost_weaken.
    + apply gauntletLoop_post; [assumption|lia|constructor].
    + cbv beta. cbn [length]. intros l [Hl Hn]. split; [assumption|lia].
  - (* void *)
    unfold Level._generateVoid.
    apply (Hfin _ (Z.to_nat (Z.max 3 (fst (planetCount config) - 1)))); [lia|].
    eapply genPost_weaken.
    + apply voidLoop_post; [assumption|constructor].
    + cbv beta. cbn [length]. intros l [Hl Hn]. split; [assumption|lia].
  - (* maze *)
    unfold Level._generateMaze.
    destruct (sizeRange config) as [lo hi]. cbn [fst snd] in *.
    apply (Hfin _ (Z.to_nat (snd (planetCount config)))); [lia|].
    eapply genPost_weaken; [apply (Hplace 20); try lra; constructor|].
    cbv beta. cbn [length]. intros l [Hl Hn]. split; [assumption|lia].
  - (* giant *)
    unfold Level._generateGiant.
    destruct (sizeRange config) as [lo hi]. cbn [fst snd] in *.
    gen_random r1 Hr1. gen_random r2 Hr2.
    apply (Hfin _ (1 + Z.to_nat (fst (planetCount config) - 1))%nat); [lia|].
    eapply genPost_weaken.
    + apply (Hplace 20); try lra.
      constructor; [|constructor].
      unfold planetOk, inCanvas, CANVAS_WIDTH, CANVAS_HEIGHT.
      cbn [Planet.radius Planet.x Planet.y Planet.gravityStrength].
      split; [lra|]. split; [|lra].
      apply Rmult_lt_0_compat; [apply strengthOf_pos; lra|lra].
    + cbv beta. cbn [length]. intros l [Hl Hn]. split; [assumption|lia].
  - (* precision *)
    unfold Level._generatePrecision.
    destruct (sizeRange config) as [lo hi]. cbn [fst snd] in *.
    apply (Hfin _ (Z.to_nat (snd (planetCount config)))); [lia|].
    eapply genPost_weaken; [apply (Hplace 30); try lra; constructor|].
    cbv beta. cbn [length]. intros l [Hl Hn]. split; [assumption|lia].
  - (* slingshot *)
    unfold Level._generateSlingshot.
    apply (Hfin _ 4%nat); [lia|].
    eapply genPost_weaken.
    + apply slingshotLoop_post; [assumption|constructor].
    + cbv beta. cbn [length]. intros l [Hl Hn]. split; [assumption|lia].
  - (* chaos *)
    unfold Level._generateChaos.
    destruct (sizeRange config) as [lo hi]. cbn [fst snd] in *.
    apply (Hfin _ (Z.to_nat (snd (planetCount config)))); [lia|].
    eapply genPost_weaken.
    + apply chaosLoop_post; [lra|lra|constructor].
    + cbv beta. cbn [length]. intros l [Hl Hn]. split; [assumption|lia].
Qed.

Lemma generate_post mr levelNumber :
  genPost (Level.generate mr levelNumber)
    (fun l => exists config,
       configOk config
       /\ In (cfgArchetype config) (tierArchetypes levelNumber)
       /\ ((levelNumber <= 50)%Z -> blackHoleCount config = 0%Z)
       /\ levelOk (blackHoleCount config) l
       /\ Level.archetype l = cfgArchetype config
       /\ Level.seed l = levelNumber).
Proof.
  unfold Level.generate.
  eapply genPost_bind; [apply tierConfig_post|].
  intros config [Hc [Ha [Hb _]]]. cbv beta.
  eapply genPost_bind; [apply (archetype_post mr levelNumber config Hc)|].
  intros level Hl. cbv beta. apply genPost_ret.
  exists config. split; [assumption|]. split; [assumption|].
  split; [assumption|]. split; [|split; reflexivity].
  unfold levelOk in *.
  cbn [Level.planets Level.startPosition Level.goalPosition Level.goalRadius
       Level.blackHoles Level.goal].
  exact Hl.
Qed.

Lemma generateLevel_ok mr levelNumber :
  (0 <= levelNumber)%Z ->
  exists config,
    configOk config
    /\ In (cfgArchetype config) (tierArchetypes levelNumber)
    /\ ((levelNumber <= 50)%Z -> blackHoleCount config = 0%Z)
    /\ levelOk (blackHoleCount config) (Level.generateLevel mr levelNumber)
    /\ Level.archetype (Level.generateLevel mr levelNumber) = cfgArchetype config
    /\ Level.seed (Level.generateLevel mr levelNumber) = levelNumber.
Proof.
  intro H. unfold Level.generateLevel.
  exact (proj1 (generate_post mr levelNumber (mkGen levelNumber 0) H)).
Qed.

(** X12.  The archetype of the level generated for a non-negative level
    number is one of the archetypes of the tier of that number; no read of
    a tier's table falls outside the table. *)
Theorem generated_archetype_of_tier mr levelNumber :
  (0 <= levelNumber)%Z ->
  In (Level.archetype (Level.generateLevel mr levelNumber))
     (tierArchetypes levelNumber)
  /\ Level.archetype (Level.generateLevel mr levelNumber) <> Undefined.
Proof.
  intro H.
  destruct (generateLevel_ok mr levelNumber H) as [config [_ [Ha [_ [_ [E _]]]]]].
  rewrite E.
  split; [assumption|].
  intro Hu. rewrite Hu in Ha. unfold tierArchetypes in Ha.
  repeat match type of Ha with
         | In _ (if ?c then _ else _) => destruct c
         end;
    cbn in Ha; intuition discriminate.
Qed.

Lemma generated_archetype_of_tier_witness :
  In (Level.archetype (Level.generateLevel (fun _ => 0.5) 60))
     (tierArchetypes 60).
Proof.
  assert (H : (0 <= 60)%Z) by lia.
  exact (proj1 (generated_archetype_of_tier (fun _ => 0.5) 60 H)).
Defined.

(** X13.  A level generated for a non-negative level number has between 1
    and 9 planets; each has a radius between 8 and 90, a positive gravity
    strength and its centre on the canvas. *)
Theorem generated_planets_well_formed mr levelNumber :
  (0 <= levelNumber)%Z ->
  let planets := Level.planets (Level.generateLevel mr levelNumber) in
  (1 <= length planets <= 9)%nat
  /\ forall planet, In planet planets ->
       8 <= Planet.radius planet <= 90
       /\ 0 < Planet.gravityStrength planet
       /\ inCanvas (Planet.x planet) (Planet.y planet).
Proof.
  intro H. cbv zeta.
  destruct (generateLevel_ok mr levelNumber H)
    as [config [_ [_ [_ [[Hp [Hlen _]] _]]]]].
  split; [assumption|].
  intros planet Hin. rewrite Forall_forall in Hp. exact (Hp planet Hin).
Qed.

Lemma generated_planets_well_formed_witness :
  (1 <= length (Level.planets (Level.generateLevel (fun _ => 0.5%R) 60)) <= 9)%nat.
Proof.
  assert (H : (0 <= 60)%Z) by lia.
  exact (proj1 (generated_planets_well_formed (fun _ => 0.5) 60 H)).
Defined.

(** X14.  In a level generated for a non-negative level number the start
    position is at distance [radius + 15] from the centre of the first
    planet, and the player created for the level stands at the start
    position, on that planet, at rest. *)
Theorem generated_start_on_first_planet mr levelNumber :
  (0 <= levelNumber)%Z ->
  let level := Level.generateLevel mr levelNumber in
  exists first,
    nth_error (Level.planets level) 0 = Some first
    /\ distance (vx_ (Level.startPosition level)) (vy_ (Level.startPosition level))
                (Planet.x first) (Planet.y first)
       = Planet.radius first + 15
    /\ Player.onPlanet (freshPlayer level) = true
    /\ Player.currentPlanet (freshPlayer level) = Some first
    /\ Player.x (freshPlayer level) = vx_ (Level.startPosition level)
    /\ Player.y (freshPlayer level) = vy_ (Level.startPosition level)
    /\ Player.vx (freshPlayer level) = 0 /\ Player.vy (freshPlayer level) = 0
    /\ Player.angularSpeed (freshPlayer level) = 0.
Proof.
  intro H. cbv zeta.
  destruct (generateLevel_ok mr levelNumber H)
    as [config [_ [_ [_ [[_ [_ [[first [Hn Hd]] _]]] _]]]]].
  exists first. unfold freshPlayer. rewrite Hn.
  repeat split; assumption.
Qed.

Lemma generated_start_on_first_planet_witness :
  exists first,
    nth_error (Level.planets (Level.generateLevel (fun _ => 0.5) 60)) 0
    = Some first
    /\ Player.currentPlanet (freshPlayer (Level.generateLevel (fun _ => 0.5) 60))
       = Some first.
Proof.
  assert (H : (0 <= 60)%Z) by lia.
  destruct (generated_start_on_first_planet (fun _ => 0.5) 60 H)
    as [first [H1 [_ [_ [H2 _]]]]].
  exists first. split; assumption.
Defined.

(** X15.  In a level generated for a non-negative level number the goal has
    radius 20 and gravity strength 0.56, and its centre is at least 50 away
    from every border of the canvas. *)
Theorem generated_goal_on_canvas mr levelNumber :
  (0 <= levelNumber)%Z ->
  let level := Level.generateLevel mr levelNumber in
  50 <= vx_ (Level.goalPosition level) <= CANVAS_WIDTH - 50
  /\ 50 <= vy_ (Level.goalPosition level) <= CANVAS_HEIGHT - 50
  /\ Level.goalRadius level = 20
  /\ Level.goal level
     = Goal.mk (vx_ (Level.goalPosition level)) (vy_ (Level.goalPosition level))
               20 0.56.
Proof.
  intro H. cbv zeta.
  destruct (generateLevel_ok mr levelNumber H)
    as [config [_ [_ [_ [[_ [_ [_ [Hr [Hg [Hx [Hy _]]]]]]] _]]]]].
  repeat split; try assumption; try apply Hx; try apply Hy.
Qed.

Lemma generated_goal_on_canvas_witness :
  Level.goalRadius (Level.generateLevel (fun _ => 0.5) 60) = 20.
Proof.
  assert (H : (0 <= 60)%Z) by lia.
  exact (proj1 (proj2 (proj2 (generated_goal_on_canvas (fun _ => 0.5) 60 H)))).
Defined.

(** X16.  A level generated for a non-negative level number has at most
    three black holes, and none up to level 50; every black hole has a
    radius between 8 and 11 and gravity strength 15. *)
Theorem black_holes_only_after_level_50 mr levelNumber :
  (0 <= levelNumber)%Z ->
  let holes := Level.blackHoles (Level.generateLevel mr levelNumber) in
  (length holes <= 3)%nat
  /\ ((levelNumber <= 50)%Z -> holes = [])
  /\ forall hole, In hole holes ->
       8 <= BlackHole.radius hole <= 11 /\ BlackHole.gravityStrength hole = 15.
Proof.
  intro H. cbv zeta.
  destruct (generateLevel_ok mr levelNumber H)
    as [config [Hc [_ [Hz [[_ [_ [_ [_ [_ [_ [_ [Hn [Hok _]]]]]]]]] _]]]]].
  destruct Hc as [_ [_ [_ [_ [_ [Hb _]]]]]].
  split; [lia|]. split.
  - intro L. rewrite (Hz L) in Hn.
    destruct (Level.blackHoles _); [reflexivity|cbn in Hn; lia].
  - intros hole Hin. rewrite Forall_forall in Hok.
    destruct (Hok hole Hin) as [Hr [Hs _]]. split; assumption.
Qed.

Lemma black_holes_only_after_level_50_witness :
  Level.blackHoles (Level.generateLevel (fun _ => 0.5) 30) = [].
Proof.
  assert (H : (0 <= 30)%Z) by lia.
  assert (L : (30 <= 50)%Z) by lia.
  exact (proj1 (proj2 (black_holes_only_after_level_50 (fun _ => 0.5) 30 H)) L).
Defined.

(** X17.  Every black hole of a level generated for a non-negative level
    number keeps its centre at least 50 from the borders of the canvas, at
    least [planet.radius + 80] from the centre of every planet, 100 from
    the goal, 120 from the start position and 150 from every other black
    hole. *)
Theorem black_holes_keep_clear mr levelNumber :
  (0 <= levelNumber)%Z ->
  let level := Level.generateLevel mr levelNumber in
  (forall hole, In hole (Level.blackHoles level) ->
     50 <= BlackHole.x hole <= CANVAS_WIDTH - 50
     /\ 50 <= BlackHole.y hole <= CANVAS_HEIGHT - 50
     /\ (forall planet, In planet (Level.planets level) ->
           Planet.radius planet + 80
           <= distance (BlackHole.x hole) (BlackHole.y hole)
                       (Planet.x planet) (Planet.y planet))
     /\ 100 <= distance (BlackHole.x hole) (BlackHole.y hole)
                        (vx_ (Level.goalPosition level))
                        (vy_ (Level.goalPosition level))
     /\ 120 <= distance (BlackHole.x hole) (BlackHole.y hole)
                        (vx_ (Level.startPosition level))
                        (vy_ (Level.startPosition level)))
  /\ pairwise holesApart (Level.blackHoles level).
Proof.
  intro H. cbv zeta.
  destruct (generateLevel_ok mr levelNumber H)
    as [config [_ [_ [_ [[_ [_ [_ [_ [_ [_ [_ [_ [Hok Hap]]]]]]]]] _]]]]].
  split.
  - intros hole Hin. rewrite Forall_forall in Hok.
    destruct (Hok hole Hin) as [_ [_ [Hx [Hy [Hp [Hg Hs]]]]]].
    repeat split; try assumption; try apply Hx; try apply Hy.
  - exact Hap.
Qed.

Lemma black_holes_keep_clear_witness :
  (0 <= 120)%Z
  /\ pairwise holesApart
       (Level.blackHoles (Level.generateLevel (fun _ => 0.5) 120)).
Proof.
  assert (H : (0 <= 120)%Z) by lia.
  split; [exact H|].
  exact (proj2 (black_holes_keep_clear (fun _ => 0.5) 120 H)).
Defined.

Lemma tierConfig_tutorial levelNumber s :
  (levelNumber <= 5)%Z ->
  Level.tierConfig levelNumber s
  = (mkConfig (3, 4)%Z (25, 45) 120 0 1 Simple, s).
Proof.
  intro L. unfold Level.tierConfig.
  destruct (Z.leb_spec levelNumber 5); [reflexivity|lia].
Qed.

(** X18.  The levels of the tutorial tier (level numbers 0 to 5) are of
    the simple archetype, have no black hole and at most four planets, each
    of a radius between 25 and 45 and with its whole disc at least 20 inside
    the canvas. *)
Theorem tutorial_levels mr levelNumber :
  (0 <= levelNumber <= 5)%Z ->
  let level := Level.generateLevel mr levelNumber in
  Level.archetype level = Simple
  /\ Level.blackHoles level = []
  /\ (1 <= length (Level.planets level) <= 4)%nat
  /\ forall planet, In planet (Level.planets level) -> tutorialPlanet planet.
Proof.
  intros [H0 H5]. cbv zeta.
  assert (Hholes : Level.blackHoles (Level.generateLevel mr levelNumber) = []).
  { destruct (generateLevel_ok mr levelNumber H0)
      as [config [_ [_ [Hz [[_ [_ [_ [_ [_ [_ [_ [Hn _]]]]]]]] _]]]]].
    rewrite Hz in Hn by lia.
    destruct (Level.blackHoles _); [reflexivity|cbn in Hn; lia]. }
  split.
  { rewrite generateLevel_archetype. unfold tierOf.
    rewrite tierConfig_tutorial by assumption. reflexivity. }
  split; [exact Hholes|].
  assert (E : Level.planets (Level.generateLevel mr levelNumber)
              = match fst (Level.placeMany (Level.drawRadiusFloor 25 (45 - 25))
                             20 120
                             (Z.to_nat (3 + Js.floor
                                (fst (random (mkGen levelNumber 0))
                                 * IZR (4 - 3 + 1))))
                             [] (snd (random (mkGen levelNumber 0)))) with
                | [] => [Planet.mk 30 (CANVAS_WIDTH / 2) (CANVAS_HEIGHT / 2) 1]
                | p :: rest => p :: rest
                end).
  { rewrite generateLevel_planets. unfold tierOf.
    rewrite tierConfig_tutorial by assumption. cbn [fst snd].
    unfold Level._generateByArchetype. cbn [cfgArchetype].
    unfold Level._generateSimple. cbn [planetCount sizeRange minSpacing].
    unfold GenMonad.bind.
    rewrite finalize_planets.
    destruct (fst (Level.placeMany _ _ _ _ _ _)); reflexivity. }
  rewrite E. clear E.
  assert (Hs : seedOk (mkGen levelNumber 0)) by exact H0.
  destruct (genPost_random _ Hs) as [Hr Hs1]. cbv beta in Hr.
  set (r := fst (random (mkGen levelNumber 0))) in *.
  set (s1 := snd (random (mkGen levelNumber 0))) in *.
  clearbody r s1.
  assert (Hk : (0 <= Js.floor (r * IZR (4 - 3 + 1)) < 2)%Z).
  { apply floor_range. cbn. lra. }
  assert (Hplaced :
    Forall tutorialPlanet
      (fst (Level.placeMany (Level.drawRadiusFloor 25 (45 - 25)) 20 120
              (Z.to_nat (3 + Js.floor (r * IZR (4 - 3 + 1)))) [] s1))
    /\ (length (fst (Level.placeMany (Level.drawRadiusFloor 25 (45 - 25)) 20 120
                       (Z.to_nat (3 + Js.floor (r * IZR (4 - 3 + 1)))) [] s1))
        <= 0 + Z.to_nat (3 + Js.floor (r * IZR (4 - 3 + 1))))%nat).
  { refine (proj1 (placeMany_post (Level.drawRadiusFloor 25 (45 - 25)) 20 120
                     25 45 tutorialPlanet _ _ _ _ _ [] _ s1 Hs1)).
    - eapply genPost_weaken; [apply drawRadiusFloor_post; lra|].
      cbv beta. intros a Ha. lra.
    - lra.
    - unfold CANVAS_HEIGHT. lra.
    - intros radius x y Hrad Hx Hy. unfold tutorialPlanet.
      cbn [Planet.radius Planet.x Planet.y]. auto.
    - constructor. }
  destruct Hplaced as [Hall Hlen].
  destruct (fst (Level.placeMany _ _ _ _ _ _)) as [|p rest].
  - split; [cbn; lia|].
    intros planet [<-|[]]. unfold tutorialPlanet, CANVAS_WIDTH, CANVAS_HEIGHT.
    cbn. lra.
  - split; [cbn [length] in *; lia|].
    intros planet Hin. rewrite Forall_forall in Hall. exact (Hall planet Hin).
Qed.

Lemma tutorial_levels_witness :
  Level.archetype (Level.generateLevel (fun _ => 0.5) 1) = Simple
  /\ Level.blackHoles (Level.generateLevel (fun _ => 0.5) 1) = []
  /\ (1 <= length (Level.planets (Level.generateLevel (fun _ => 0.5%R) 1)) <= 4)%nat.
Proof.
  assert (H : (0 <= 1 <= 5)%Z) by lia.
  pose proof (tutorial_levels (fun _ => 0.5) 1 H) as T. cbv zeta in T.
  destruct T as [T1 [T2 [T3 _]]].
  split; [exact T1|]. split; [exact T2|exact T3].
Defined.

(* ================================================================== *)
(** * Black holes are animated, not moved *)

Lemma updateParticles_facts mr radius dt ps :
  forall pos,
    let r := BlackHole.updateParticles mr pos radius dt ps in
    length (fst r) = length ps
    /\ Forall (fun p => radius <= vp_distance p) (fst r)
    /\ (pos <= snd r <= pos + length ps)%nat.
Proof.
  induction ps as [|p rest IH]; intro pos; cbn [BlackHole.updateParticles].
  - cbn. repeat split; [constructor|lia|lia].
  - destruct (ltb_spec (vp_distance p - vp_speed p * 8 * dt) radius) as [Hin|Hout].
    + specialize (IH (S pos)). cbv zeta in IH.
      destruct (BlackHole.updateParticles mr (S pos) radius dt rest)
        as [rest' pos'].
      cbn [fst snd length] in *. destruct IH as [I1 [I2 I3]].
      repeat split; try lia.
      constructor; [cbn; lra|assumption].
    + specialize (IH pos). cbv zeta in IH.
      destruct (BlackHole.updateParticles mr pos radius dt rest)
        as [rest' pos'].
      cbn [fst snd length] in *. destruct IH as [I1 [I2 I3]].
      repeat split; try lia.
      constructor; [cbn; lra|assumption].
Qed.

(** X19.  [BlackHole.update] is an animation: the position, the radius and
    the gravity strength of the hole, hence its force, are unchanged; the
    disk turns by [dt * 0.5]; no particle is created or lost, and every
    particle is left at a distance of at least the radius from the centre;
    at most one value of [Math.random] is read per particle. *)
Theorem blackHole_update_is_cosmetic mr pos dt (bh : BlackHole.t) :
  let r := BlackHole.update mr pos dt bh in
  blackHoleBody (fst r) = blackHoleBody bh
  /\ (forall gravityMultiplier px py,
        BlackHole.calculateGravity gravityMultiplier (fst r) px py
        = BlackHole.calculateGravity gravityMultiplier bh px py)
  /\ BlackHole.rotation (fst r) = BlackHole.rotation bh + dt * 0.5
  /\ length (BlackHole.particles (fst r)) = length (BlackHole.particles bh)
  /\ Forall (fun p => BlackHole.radius bh <= vp_distance p)
            (BlackHole.particles (fst r))
  /\ (pos <= snd r <= pos + length (BlackHole.particles bh))%nat.
Proof.
  cbv zeta. unfold BlackHole.update.
  pose proof (updateParticles_facts mr (BlackHole.radius bh) dt
                (BlackHole.particles bh) pos) as H. cbv zeta in H.
  destruct (BlackHole.updateParticles mr pos (BlackHole.radius bh) dt
              (BlackHole.particles bh)) as [ps pos'].
  cbn [fst snd] in *. destruct H as [H1 [H2 H3]].
  repeat split; try assumption; lia.
Qed.

(* ================================================================== *)
(** * The level on screen and the level number *)

Lemma physical_generateLevel mr1 mr2 levelNumber :
  physical (Level.generateLevel mr1 levelNumber)
  = physical (Level.generateLevel mr2 levelNumber).
Proof.
  unfold Level.generateLevel.
  exact (proj1 (generate_physics mr1 mr2 levelNumber (mkGen levelNumber 0))).
Qed.

Lemma startGame_state env m target g :
  let r := startGame env m target g in
  let n := match m with
           | Endless | Speedrun => 1%Z
           | Daily => dailyChallengeSeed env
           | Practice => orDefault target 1
           end in
  currentLevel (stateOf r) = Level.generateLevel (streamAt env g) n
  /\ currentLevelNumber (stateOf r) = n
  /\ levelsCompleted (stateOf r) = 0%Z
  /\ deaths (stateOf r) = 0%Z
  /\ mode (stateOf r) = m
  /\ gameStarted (stateOf r) = true
  /\ lives (stateOf r)
     = match m with Endless | Daily => Finite 3 | _ => Infinity end
  /\ player (stateOf r) = freshPlayer (currentLevel (stateOf r))
  /\ currentTime (stateOf r) = 0
  /\ startTime (stateOf r) = now env.
Proof.
  unfold startGame, createPlayer, updateUI, freshPlayer, when.
  destruct g as [lvl pl started ks mi md tgt num sc done dth lv st ct hs
                 db spd gm pz sts rc].
  destruct m; exec; unfold streamAt; game_fields; repeat split; auto.
Qed.

(** X20.  [startGame] leaves, in every mode, a running game whose level is
    the level generated from the current level number (1, the seed of the
    day, or the level chosen for practice), with no level completed, no
    death, three lives (endless, daily) or an unlimited number (speedrun,
    practice), and a new player on the level. *)
Theorem startGame_initial_state env m target g :
  let g' := stateOf (startGame env m target g) in
  inSync env g'
  /\ currentLevelNumber g'
     = match m with
       | Endless | Speedrun => 1%Z
       | Daily => dailyChallengeSeed env
       | Practice => orDefault target 1
       end
  /\ gameStarted g' = true /\ levelsCompleted g' = 0%Z /\ deaths g' = 0%Z
  /\ lives g' = match m with Endless | Daily => Finite 3 | _ => Infinity end
  /\ player g' = freshPlayer (currentLevel g').
Proof.
  cbv zeta.
  pose proof (startGame_state env m target g) as H. cbv zeta in H.
  destruct H as [Hl [Hn [Hc [Hd [Hm [Hs [Hlv [Hp _]]]]]]]].
  repeat split; try assumption.
  - rewrite Hl, Hn. apply physical_generateLevel.
  - intro E. rewrite Hn, Hc, Hm in *. subst m. lia.
Qed.

Lemma advance_state env dt g :
  let g' := stateOf (advance env dt g) in
  physical (currentLevel g') = physical (currentLevel g)
  /\ currentLevelNumber g' = currentLevelNumber g
  /\ levelsCompleted g' = levelsCompleted g
  /\ mode g' = mode g
  /\ highScore g' = highScore g
  /\ dailyBestScore g' = dailyBestScore g
  /\ lives g' = lives g
  /\ gameStarted g' = gameStarted g
  /\ currentTime g' = now env - startTime g.
Proof.
  unfold advance, playerPhysics, animateBlackHoles, updateEffects, when.
  destruct g as [lvl pl started ks mi md target num sc done dth lv st ct hs
                 db spd gm pz sts rc].
  exec.
  assert (Hbodies : forall pos,
    physical (Level.setBlackHoles
                (fst (updateBlackHoles (mathRandom env) pos (dt * 0.001 * spd)
                        (Level.blackHoles lvl))) lvl)
    = physical lvl).
  { intro pos. unfold physical, Level.setBlackHoles.
    cbn [Level.planets Level.startPosition Level.goalPosition Level.goalRadius
         Level.blackHoles Level.seed Level.archetype Level.goal].
    rewrite updateBlackHoles_bodies. reflexivity. }
  match goal with |- context [if ?c then _ else _] => destruct c end;
    exec; (split; [exact (Hbodies rc)|]); repeat split; auto.
Qed.

Lemma updateUI_state g :
  let g' := stateOf (updateUI g) in
  currentLevel g' = currentLevel g
  /\ currentLevelNumber g' = currentLevelNumber g
  /\ levelsCompleted g' = levelsCompleted g
  /\ mode g' = mode g
  /\ highScore g' = highScore g
  /\ dailyBestScore g' = dailyBestScore g.
Proof.
  unfold updateUI. destruct g. exec.
  match goal with |- context [match ?m with Endless => _ | _ => _ end] =>
    destruct m end; exec; auto 10.
Qed.

Lemma handlePlayerDeath_state g :
  let r := handlePlayerDeath g in
  let g' := stateOf r in
  currentLevel g' = currentLevel g
  /\ currentLevelNumber g' = currentLevelNumber g
  /\ levelsCompleted g' = levelsCompleted g
  /\ mode g' = mode g
  /\ highScore g' = highScore g
  /\ dailyBestScore g' = dailyBestScore g
  /\ lives g' = match mode g with
                | Endless | Daily => decrLives (lives g)
                | _ => lives g
                end
  /\ totalDeaths (stats g') = (totalDeaths (stats g) + 1)%Z
  /\ valueOf r = survives g
  /\ (survives g = true -> gameStarted g' = gameStarted g)
  /\ (survives g = false ->
      gameStarted g' = false /\ player g' = player g
      /\ totalTimePlayed (stats g') = totalTimePlayed (stats g) + currentTime g
      /\ longestStreak (stats g')
         = Z.max (longestStreak (stats g)) (levelsCompleted g)).
Proof.
  unfold handlePlayerDeath, survives, createPlayer, updateUI, freshPlayer, when.
  destruct g as [lvl pl started ks mi md target num sc done dth lv st ct hs
                 db spd gm pz sts rc].
  destruct sts as [td tl tp tj tla ls].
  destruct md; repeat exec_step;
    try (destruct (livesExhausted (decrLives lv)); repeat exec_step);
    try (match goal with |- context [(?a >? ?b)%Z] =>
           destruct (Z.gtb_spec a b) end; repeat exec_step);
    exec;
    cbn [totalDeaths totalLevelsCompleted totalTimePlayed totalJumps
         totalLandings longestStreak];
    repeat split; auto; try discriminate; intros;
    cbn [totalDeaths totalLevelsCompleted totalTimePlayed totalJumps
         totalLandings longestStreak] in *; try lia.
Qed.

Ltac game_fields_all :=
  cbv beta iota zeta delta
      [valueOf stateOf traceOf fst snd app
       set_currentLevel set_player set_gameStarted set_keys set_mobileInput
       set_mode set_speedrunTarget set_currentLevelNumber set_score
       set_levelsCompleted set_deaths set_lives set_startTime set_currentTime
       set_highScore set_dailyBestScore set_paused set_stats set_randomCalls
       addTimePlayed addLanding calculateEndlessScore
       currentLevel player gameStarted keys mobileInput mode speedrunTarget
       currentLevelNumber score levelsCompleted deaths lives startTime
       currentTime highScore dailyBestScore gameSpeed gravityMultiplier paused
       stats randomCalls negb andb orb] in *.

Lemma handleLevelComplete_state env g :
  let g' := stateOf (handleLevelComplete env g) in
  currentLevelNumber g'
  = (if finishing g then currentLevelNumber g else currentLevelNumber g + 1)%Z
  /\ (highScore g <= highScore g')%Z
  /\ (dailyBestScore g <= dailyBestScore g')%Z
  /\ (mode g = Endless -> highScore g' = Z.max (highScore g) (score g'))
  /\ (mode g = Daily -> dailyBestScore g' = Z.max (dailyBestScore g) (score g'))
  /\ lives g' = lives g
  /\ deaths g' = deaths g
  /\ (finishing g = true -> gameStarted g' = false)
  /\ (finishing g = false -> gameStarted g' = gameStarted g).
Proof.
  unfold handleLevelComplete, finishing, completeSpeedrun, createPlayer,
    updateUI, when.
  destruct g as [lvl pl started ks mi md target num sc done dth lv st ct hs
                 db spd gm pz sts rc].
  destruct md; repeat exec_step;
    try (destruct (done + 1 >=? target)%Z; repeat exec_step);
    try (match goal with |- context [(?a >? ?b)%Z] =>
           destruct (Z.gtb_spec a b) end; repeat exec_step);
    exec; game_fields_all;
    repeat split; auto; try discriminate; intros; try lia.
Qed.

Lemma evaluate_preserves env (P : GameState -> Prop) g :
  P g ->
  (P g -> P (stateOf (handlePlayerDeath g))) ->
  (P g -> P (stateOf (handleLevelComplete env g))) ->
  (forall g0, P g0 -> P (stateOf (updateUI g0))) ->
  P (stateOf (evaluate env g)).
Proof.
  intros Hg Hdeath Hdone Hui. unfold evaluate.
  rewrite bind_get, bind_emit. cbn [stateOf fst snd].
  destruct (checkBlackHoleCollision _ _).
  - rewrite !bind_emit. cbn [stateOf fst snd].
    rewrite state_bind. cbn [ret stateOf fst snd]. auto.
  - rewrite bind_emit. cbn [stateOf fst snd]. rewrite state_bind.
    assert (Hlast : forall g0, P g0 ->
      P (stateOf (bind get (fun g1 => match mode g1 with
                                      | Endless | Daily => updateUI
                                      | _ => ret tt
                                      end) g0))).
    { intros g0 H0. rewrite bind_get. destruct (mode g0); auto. }
    apply Hlast.
    destruct (Level.checkGoal _ _); unfold when.
    + rewrite !bind_emit. cbn [stateOf fst snd]. auto.
    + exact Hg.
Qed.

Lemma update_preserves env dt (P : GameState -> Prop) g :
  P g ->
  (forall g0, P g0 -> P (stateOf (advance env dt g0))) ->
  (forall g0, P g0 -> P (stateOf (handlePlayerDeath g0))) ->
  (forall g0, P g0 -> P (stateOf (handleLevelComplete env g0))) ->
  (forall g0, P g0 -> P (stateOf (updateUI g0))) ->
  P (stateOf (update env dt g)).
Proof.
  intros Hg Hadv Hdeath Hdone Hui. unfold update. rewrite bind_get.
  destruct (negb (gameStarted g) || paused g).
  - exact Hg.
  - rewrite state_bind. apply evaluate_preserves; auto.
Qed.

Lemma inSync_advance env dt g : inSync env g -> inSync env (stateOf (advance env dt g)).
Proof.
  intros [H1 H2].
  pose proof (advance_state env dt g) as A. cbv zeta in A.
  destruct A as [Ap [An [Ac [Am _]]]].
  split.
  - rewrite Ap, An. exact H1.
  - rewrite Am, An, Ac. exact H2.
Qed.

Lemma inSync_death env g : inSync env g -> inSync env (stateOf (handlePlayerDeath g)).
Proof.
  intros [H1 H2].
  pose proof (handlePlayerDeath_state g) as A. cbv zeta in A.
  destruct A as [Al [An [Ac [Am _]]]].
  split.
  - rewrite Al, An. exact H1.
  - rewrite Am, An, Ac. exact H2.
Qed.

Lemma inSync_updateUI env g : inSync env g -> inSync env (stateOf (updateUI g)).
Proof.
  intros [H1 H2].
  pose proof (updateUI_state g) as A. cbv zeta in A.
  destruct A as [Al [An [Ac [Am _]]]].
  split.
  - rewrite Al, An. exact H1.
  - rewrite Am, An, Ac. exact H2.
Qed.

Lemma inSync_complete env g :
  inSync env g -> inSync env (stateOf (handleLevelComplete env g)).
Proof.
  intros [H1 H2].
  pose proof (handleLevelComplete_state env g) as A. cbv zeta in A.
  destruct A as [An _].
  pose proof (handleLevelComplete_facts env g) as B. cbv zeta in B.
  destruct B as [_ [_ [Bc [Bm [Bfin Bnext]]]]].
  destruct (finishing g) eqn:Hf.
  - destruct (Bfin eq_refl) as [_ [Bl _]].
    split.
    + rewrite Bl, An. exact H1.
    + rewrite Bm. intro Hd. unfold finishing in Hf. rewrite Hd in Hf.
      discriminate.
  - destruct (Bnext eq_refl) as [_ [Bl _]].
    assert (Hseed : nextSeed env g = (currentLevelNumber g + 1)%Z).
    { unfold nextSeed. destruct (mode g) eqn:Hm; try reflexivity.
      rewrite (H2 eq_refl). lia. }
    split.
    + rewrite Bl, An, Hseed. apply physical_generateLevel.
    + rewrite Bm, An, Bc. intro Hd. rewrite (H2 Hd). lia.
Qed.

(** X21.  The simulation step keeps the game in step with its level
    number: if the level on screen is the level generated from the current
    level number (and, in the daily mode, the level number is the seed of
    the day plus the number of levels completed), the same holds after
    [update], whatever happened in the step. *)
Theorem update_keeps_level_in_sync env dt g :
  inSync env g -> inSync env (stateOf (update env dt g)).
Proof.
  intro H. apply update_preserves.
  - exact H.
  - intros g0. apply inSync_advance.
  - intros g0. apply inSync_death.
  - intros g0. apply inSync_complete.
  - intros g0. apply inSync_updateUI.
Qed.

Lemma exampleState_inSync : inSync exampleEnv exampleState.
Proof.
  split.
  - apply physical_generateLevel.
  - discriminate.
Qed.

Lemma update_keeps_level_in_sync_witness :
  inSync exampleEnv (stateOf (update exampleEnv 16 exampleState)).
Proof.
  exact (update_keeps_level_in_sync exampleEnv 16 exampleState
           exampleState_inSync).
Defined.

(** X22.  Restarting the level, from the pause menu or with the R key in a
    running game, gives back the level that was on screen: same planets,
    start, goal and black holes (the particles of the black holes apart),
    with a new player on it; nothing else of the level number, the lives,
    the deaths or the levels completed changes. *)
Theorem restart_gives_the_same_level env g :
  inSync env g ->
  let g1 := stateOf (restartLevel env g) in
  let g2 := stateOf (handleInput env KeyR true g) in
  (physical (currentLevel g1) = physical (currentLevel g)
   /\ player g1 = freshPlayer (currentLevel g1)
   /\ paused g1 = false
   /\ inSync env g1)
  /\ (gameStarted g = true -> paused g = false ->
      physical (currentLevel g2) = physical (currentLevel g)
      /\ player g2 = freshPlayer (currentLevel g2)
      /\ inSync env g2)
  /\ (gameStarted g = false \/ paused g = true -> g2 = g).
Proof.
  intros [H1 H2]. cbv zeta.
  assert (Hre : forall g0,
    currentLevel (stateOf (regenerateCurrentLevel env g0))
    = Level.generateLevel (streamAt env g0) (currentLevelNumber g0)
    /\ player (stateOf (regenerateCurrentLevel env g0))
       = freshPlayer (currentLevel (stateOf (regenerateCurrentLevel env g0)))
    /\ currentLevelNumber (stateOf (regenerateCurrentLevel env g0))
       = currentLevelNumber g0
    /\ levelsCompleted (stateOf (regenerateCurrentLevel env g0))
       = levelsCompleted g0
    /\ mode (stateOf (regenerateCurrentLevel env g0)) = mode g0
    /\ paused (stateOf (regenerateCurrentLevel env g0)) = paused g0).
  { intro g0. unfold regenerateCurrentLevel, createPlayer, freshPlayer.
    destruct g0. exec. unfold streamAt. game_fields. repeat split. }
  split; [|split].
  - unfold restartLevel. rewrite bind_emit. cbn [stateOf fst snd].
    rewrite bind_modify.
    destruct (Hre (set_paused false g)) as [Rl [Rp [Rn [Rc [Rm Rz]]]]].
    assert (En : currentLevelNumber (set_paused false g) = currentLevelNumber g)
      by (destruct g; reflexivity).
    assert (Ec : levelsCompleted (set_paused false g) = levelsCompleted g)
      by (destruct g; reflexivity).
    assert (Em : mode (set_paused false g) = mode g)
      by (destruct g; reflexivity).
    rewrite En in *. rewrite Ec, Em in *.
    split; [|split; [|split; [|split]]].
    + rewrite Rl, H1. apply physical_generateLevel.
    + exact Rp.
    + rewrite Rz. destruct g; reflexivity.
    + rewrite Rl, Rn. apply physical_generateLevel.
    + rewrite Rm, Rn, Rc. exact H2.
  - intros Hs Hp. unfold handleInput. rewrite bind_get, Hs, Hp.
    cbn [andb negb when].
    destruct (Hre g) as [Rl [Rp [Rn [Rc [Rm Rz]]]]].
    split; [|split; [|split]].
    + rewrite Rl, H1. apply physical_generateLevel.
    + exact Rp.
    + rewrite Rl, Rn. apply physical_generateLevel.
    + rewrite Rm, Rn, Rc. exact H2.
  - intros Hoff. unfold handleInput. rewrite bind_get.
    destruct Hoff as [Hs|Hp]; [rewrite Hs|rewrite Hp];
      cbn [andb negb when]; [reflexivity|].
    destruct (gameStarted g); reflexivity.
Qed.

Lemma restart_gives_the_same_level_witness :
  physical (currentLevel (stateOf (restartLevel exampleEnv exampleState)))
  = physical (currentLevel exampleState).
Proof.
  exact (proj1 (proj1 (restart_gives_the_same_level exampleEnv exampleState
                         exampleState_inSync))).
Defined.

(** X23.  Over a simulation step the high score, the best daily score, the
    number of levels completed, the number of deaths and the level number
    never decrease, and the mode does not change. *)
Theorem step_counters_never_decrease env dt g :
  let g' := stateOf (update env dt g) in
  (highScore g <= highScore g')%Z
  /\ (dailyBestScore g <= dailyBestScore g')%Z
  /\ (levelsCompleted g <= levelsCompleted g')%Z
  /\ (deaths g <= deaths g')%Z
  /\ (currentLevelNumber g <= currentLevelNumber g')%Z
  /\ mode g' = mode g.
Proof.
  cbv zeta.
  apply (update_preserves env dt
           (fun g' => (highScore g <= highScore g')%Z
                      /\ (dailyBestScore g <= dailyBestScore g')%Z
                      /\ (levelsCompleted g <= levelsCompleted g')%Z
                      /\ (deaths g <= deaths g')%Z
                      /\ (currentLevelNumber g <= currentLevelNumber g')%Z
                      /\ mode g' = mode g)).
  - repeat split; lia.
  - intros g0 [H1 [H2 [H3 [H4 [H5 H6]]]]].
    pose proof (advance_state env dt g0) as A. cbv zeta in A.
    destruct A as [_ [An [Ac [Am [Ah [Ad _]]]]]].
    pose proof (advance_facts env dt g0) as B. cbv zeta in B.
    destruct B as [_ [Bd _]].
    rewrite An, Ac, Am, Ah, Ad, Bd. auto 10.
  - intros g0 [H1 [H2 [H3 [H4 [H5 H6]]]]].
    pose proof (handlePlayerDeath_state g0) as A. cbv zeta in A.
    destruct A as [_ [An [Ac [Am [Ah [Ad _]]]]]].
    pose proof (handlePlayerDeath_facts g0) as B. cbv zeta in B.
    destruct B as [_ [_ [_ [Bd _]]]].
    rewrite An, Ac, Am, Ah, Ad, Bd. repeat split; auto; lia.
  - intros g0 [H1 [H2 [H3 [H4 [H5 H6]]]]].
    pose proof (handleLevelComplete_state env g0) as A. cbv zeta in A.
    destruct A as [An [Ah [Ad [_ [_ [_ [Adth _]]]]]]].
    pose proof (handleLevelComplete_facts env g0) as B. cbv zeta in B.
    destruct B as [_ [_ [Bc [Bm _]]]].
    rewrite An, Adth, Bc, Bm.
    repeat split; auto; try lia. destruct (finishing g0); lia.
  - intros g0 [H1 [H2 [H3 [H4 [H5 H6]]]]].
    pose proof (updateUI_state g0) as A. cbv zeta in A.
    destruct A as [_ [An [Ac [Am [Ah Ad]]]]].
    pose proof (updateUI_facts g0) as B.
    destruct B as [_ [_ [Bd _]]].
    rewrite An, Ac, Am, Ah, Ad, Bd. auto 10.
Qed.

(** X24.  A death costs one life in the endless and daily modes and none in
    the others; it is counted once in [deaths] and in the statistics.  The
    game is over exactly when, in the endless or the daily mode, the life
    lost was the last one: the game is then stopped, the player is not
    replaced, the time played and the longest streak are recorded.
    Otherwise the game goes on with a new player on the same level. *)
Theorem death_costs_a_life g :
  let r := handlePlayerDeath g in
  let g' := stateOf r in
  lives g' = match mode g with
             | Endless | Daily => decrLives (lives g)
             | _ => lives g
             end
  /\ deaths g' = (deaths g + 1)%Z
  /\ totalDeaths (stats g') = (totalDeaths (stats g) + 1)%Z
  /\ currentLevel g' = currentLevel g
  /\ (valueOf r = false <->
      (mode g = Endless \/ mode g = Daily)
      /\ exists n, lives g = Finite n /\ (n <= 1)%Z)
  /\ (valueOf r = true ->
      gameStarted g' = gameStarted g
      /\ player g' = freshPlayer (currentLevel g))
  /\ (valueOf r = false ->
      gameStarted g' = false /\ player g' = player g
      /\ totalTimePlayed (stats g') = totalTimePlayed (stats g) + currentTime g
      /\ longestStreak (stats g')
         = Z.max (longestStreak (stats g)) (levelsCompleted g)).
Proof.
  cbv zeta.
  pose proof (handlePlayerDeath_state g) as A. cbv zeta in A.
  destruct A as [Al [_ [_ [_ [_ [_ [Alv [Atd [Av [Ason Aover]]]]]]]]]].
  pose proof (handlePlayerDeath_facts g) as B. cbv zeta in B.
  destruct B as [_ [_ [_ [Bd [_ [_ Bp]]]]]].
  rewrite Av.
  split; [exact Alv|]. split; [exact Bd|]. split; [exact Atd|].
  split; [exact Al|]. split; [|split].
  - unfold survives. destruct (mode g); split;
      try discriminate;
      try (intros [[E|E] _]; discriminate).
    + intro H. split; [auto|].
      destruct (lives g) as [n|]; [|discriminate].
      exists n. split; [reflexivity|]. cbn in H.
      destruct (Z.leb_spec (n - 1) 0); [lia|discriminate].
    + intros [_ [n [-> Hn]]]. cbn.
      destruct (Z.leb_spec (n - 1) 0); [reflexivity|lia].
    + intro H. split; [auto|].
      destruct (lives g) as [n|]; [|discriminate].
      exists n. split; [reflexivity|]. cbn in H.
      destruct (Z.leb_spec (n - 1) 0); [lia|discriminate].
    + intros [_ [n [-> Hn]]]. cbn.
      destruct (Z.leb_spec (n - 1) 0); [reflexivity|lia].
  - intro H. split; auto.
  - intro H. apply Aover. exact H.
Qed.

Lemma death_costs_a_life_witness :
  gameStarted (stateOf (handlePlayerDeath exampleState))
  = gameStarted exampleState
  /\ player (stateOf (handlePlayerDeath exampleState))
     = freshPlayer (currentLevel exampleState).
Proof.
  assert (H : valueOf (handlePlayerDeath exampleState) = true).
  { rewrite (proj1 (handlePlayerDeath_facts exampleState)). reflexivity. }
  exact (proj1 (proj2 (proj2 (proj2 (proj2 (proj2
           (death_costs_a_life exampleState)))))) H).
Defined.

(** X25.  For the same number of levels completed, the endless score is at
    least 1000 per level and a shorter time never gives a lower score. *)
Theorem endless_score_rewards_speed g1 g2 :
  (0 <= levelsCompleted g1)%Z ->
  levelsCompleted g2 = levelsCompleted g1 ->
  0 < currentTime g1 <= currentTime g2 ->
  (1000 * levelsCompleted g1 <= calculateEndlessScore g2
   <= calculateEndlessScore g1)%Z.
Proof.
  intros HL E [Ht1 Ht2]. unfold calculateEndlessScore. rewrite E.
  destruct (Z.eqb_spec (levelsCompleted g1) 0) as [H0|Hn]; cbn [orb].
  - rewrite H0. lia.
  - destruct (eqb_spec (currentTime g1 / 1000) 0) as [Hz|_]; [lra|].
    destruct (eqb_spec (currentTime g2 / 1000) 0) as [Hz|_]; [lra|].
    set (L := IZR (levelsCompleted g1)).
    assert (HLr : 0 <= L) by (apply IZR_le; assumption).
    assert (HL3 : 0 <= 6000 * L ^ 3).
    { apply Rmult_le_pos; [lra|]. apply pow_le. assumption. }
    assert (Hb2 : 0 <= 6000 * L ^ 3 / (currentTime g2 / 1000)).
    { apply Rmult_le_pos; [assumption|].
      left. apply Rinv_0_lt_compat. lra. }
    assert (Hmono : 6000 * L ^ 3 / (currentTime g2 / 1000)
                    <= 6000 * L ^ 3 / (currentTime g1 / 1000)).
    { unfold Rdiv at 1 3. apply Rmult_le_compat_l; [assumption|].
      apply Rinv_le_contravar; lra. }
    split.
    + unfold Js.floor. apply Zfloor_lub.
      rewrite mult_IZR. fold L. lra.
    + unfold Js.floor. apply Zfloor_le. lra.
Qed.

Lemma endless_score_rewards_speed_witness :
  let g1 := set_currentTime 30000 (set_levelsCompleted 2 exampleState) in
  let g2 := set_currentTime 60000 (set_levelsCompleted 2 exampleState) in
  (1000 * levelsCompleted g1 <= calculateEndlessScore g2
   <= calculateEndlessScore g1)%Z.
Proof.
  intros g1 g2.
  assert (H1 : (0 <= levelsCompleted g1)%Z) by (cbn; lia).
  assert (H2 : levelsCompleted g2 = levelsCompleted g1) by reflexivity.
  assert (H3 : 0 < currentTime g1 <= currentTime g2) by (cbn; lra).
  exact (endless_score_rewards_speed g1 g2 H1 H2 H3).
Defined.

(** X26.  Escape pauses a running game.  A step of a paused game is the
    upkeep of the effects and nothing else: [update] calls
    [particlePool.update] and [updateScreenShake], both with
    [deltaTime * 0.001 * gameSpeed], and leaves the level, the player, the
    inputs, the clock, the score, the lives and the counters as they are.  A
    second Escape gives back exactly the state in which the game was paused.
    The arrow keys and R do not resume a paused game.  (The [update] of
    script.js returns at once while the game is paused.) *)
Theorem paused_step_only_updates_effects env dt g :
  gameStarted g = true -> paused g = false ->
  let g1 := stateOf (handleInput env Escape true g) in
  let particleDt := dt * 0.001 * gameSpeed g in
  paused g1 = true
  /\ update env dt g1
     = (tt, g1, [ParticlesUpdated particleDt; ScreenShakeUpdated particleDt])
  /\ LegacyGame.update env dt g1 = (tt, g1, [])
  /\ stateOf (handleInput env Escape true g1) = g
  /\ stateOf (handleInput env KeyR true g1) = g1
  /\ (forall code down, code <> Escape ->
        paused (stateOf (handleInput env code down g1)) = true).
Proof.
  intros Hs Hp. cbv zeta.
  destruct g as [lvl pl started ks mi md target num sc done dth lv st ct hs
                 db spd gm pz sts rc].
  cbn [gameStarted paused] in Hs, Hp. subst started pz.
  unfold handleInput, update, LegacyGame.update, updateEffects, when. exec.
  repeat split.
  intros code down Hc. destruct code, down; try contradiction; exec; reflexivity.
Qed.

Lemma paused_step_only_updates_effects_witness :
  let g1 := stateOf (handleInput exampleEnv Escape true exampleState) in
  let particleDt := 16 * 0.001 * gameSpeed exampleState in
  update exampleEnv 16 g1
  = (tt, g1, [ParticlesUpdated particleDt; ScreenShakeUpdated particleDt]).
Proof.
  exact (proj1 (proj2 (paused_step_only_updates_effects exampleEnv 16
                         exampleState eq_refl eq_refl))).
Defined.

(* ================================================================== *)
(** * Settings, daily seed, release of the joystick *)






(** X28.  The seed of the daily challenge identifies the day: two dates
    with the same seed are the same date. *)
Theorem daily_seed_identifies_the_day year1 month1 day1 year2 month2 day2 :
  (0 <= month1 <= 11)%Z -> (1 <= day1 <= 31)%Z ->
  (0 <= month2 <= 11)%Z -> (1 <= day2 <= 31)%Z ->
  getDailyChallengeSeed year1 month1 day1
  = getDailyChallengeSeed year2 month2 day2 ->
  year1 = year2 /\ month1 = month2 /\ day1 = day2.
Proof.
  unfold getDailyChallengeSeed. cbv zeta. intros. lia.
Qed.

Lemma daily_seed_identifies_the_day_witness :
  getDailyChallengeSeed 2026 10 2 = 20261102%Z
  /\ (2026 = 2026 /\ 10 = 10 /\ 2 = 2)%Z.
Proof.
  split; [reflexivity|].
  apply (daily_seed_identifies_the_day 2026 10 2 2026 10 2);
    try lia; reflexivity.
Defined.

(** X29.  From year 1 on, the level of the daily challenge is drawn in
    the last tier: its seed is above 75, so its archetype is void, maze,
    giant, precision or chaos, and it is a well-formed level. *)
Theorem daily_challenge_is_last_tier mr year month day :
  (1 <= year)%Z -> (0 <= month <= 11)%Z -> (1 <= day <= 31)%Z ->
  let seed := getDailyChallengeSeed year month day in
  let level := Level.generateLevel mr seed in
  (75 < seed)%Z
  /\ In (Level.archetype level) [Void; Maze; Giant; Precision; Chaos]
  /\ Level.seed level = seed
  /\ levelOk 3 level.
Proof.
  intros Hy Hm Hd. cbv zeta.
  assert (Hs : (75 < getDailyChallengeSeed year month day)%Z).
  { unfold getDailyChallengeSeed. cbv zeta. lia. }
  split; [exact Hs|].
  assert (H0 : (0 <= getDailyChallengeSeed year month day)%Z) by lia.
  destruct (generateLevel_ok mr _ H0) as [config [Hc [Ha [_ [Hok [E Hseed]]]]]].
  split; [|split; [exact Hseed|]].
  - rewrite E. unfold tierArchetypes in Ha.
    repeat match type of Ha with
           | In _ (if (?a <=? ?b)%Z then _ else _) =>
               destruct (Z.leb_spec a b); [lia|]
           end.
    exact Ha.
  - destruct Hc as [_ [_ [_ [_ [_ [Hb _]]]]]].
    unfold levelOk in *.
    destruct Hok as [K1 [K2 [K3 [K4 [K5 [K6 [K7 [K8 K9]]]]]]]].
    repeat split; try assumption; try apply K2; try apply K6; try apply K7;
      try apply K9.
    lia.
Qed.

Lemma daily_challenge_is_last_tier_witness :
  In (Level.archetype
        (Level.generateLevel (fun _ => 0.5) (getDailyChallengeSeed 2026 10 2)))
     [Void; Maze; Giant; Precision; Chaos].
Proof.
  assert (H1 : (1 <= 2026)%Z) by lia.
  assert (H2 : (0 <= 10 <= 11)%Z) by lia.
  assert (H3 : (1 <= 2 <= 31)%Z) by lia.
  exact (proj1 (proj2 (daily_challenge_is_last_tier (fun _ => 0.5) 2026 10 2
                         H1 H2 H3))).
Defined.

(** X30.  Releasing the joystick always leaves it inactive, so that a
    second release does nothing; it makes the player jump only if the
    joystick was active, no arrow key is held and the player stands on a
    planet with its jump unused, and it counts that jump once. *)
Theorem release_jumps_at_most_once g :
  let g1 := stateOf (handleMobileEnd g) in
  let jumps :=
    MobileInput.active (mobileInput g)
    && negb (left (keys g) || right (keys g))
    && Player.onPlanet (player g) && negb (Player.hasJumped (player g)) in
  (MobileInput.active (mobileInput g) = true ->
   MobileInput.active (mobileInput g1) = false)
  /\ (MobileInput.active (mobileInput g) = false -> g1 = g)
  /\ handleMobileEnd g1 = (tt, g1, [])
  /\ player g1 = (if jumps then Player.jump (player g) else player g)
  /\ totalJumps (stats g1)
     = (totalJumps (stats g) + (if jumps then 1 else 0))%Z
  /\ currentLevel g1 = currentLevel g.
Proof.
  cbv zeta. unfold handleMobileEnd, when.
  destruct g as [lvl pl started ks mi md target num sc done dth lv st ct hs
                 db spd gm pz sts rc].
  destruct mi as [act cx ctr dz mx ml mrr ts].
  destruct sts as [td tl tp tj tla ls].
  destruct ks as [kl kr].
  rewrite !bind_get. game_fields. cbn [MobileInput.active left right].
  destruct act, kl, kr, (Player.onPlanet pl), (Player.hasJumped pl);
    cbv iota; exec;
    cbn [MobileInput.active MobileInput.currentX MobileInput.centerX
         MobileInput.deadzone MobileInput.maxDistance MobileInput.left
         MobileInput.right MobileInput.targetSpeed negb
         totalDeaths totalLevelsCompleted totalTimePlayed totalJumps
         totalLandings longestStreak];
    repeat split; try discriminate; try reflexivity;
    try (f_equal; lia); lia.
Qed.

Lemma release_jumps_at_most_once_witness :
  let g := set_mobileInput (MobileInput.mk true 130 100 10 50 false true 0.6)
             exampleState in
  MobileInput.active (mobileInput (stateOf (handleMobileEnd g))) = false.
Proof.
  intro g.
  exact (proj1 (release_jumps_at_most_once g) eq_refl).
Defined.
